(** * ljmd-cl: the OpenCL host driver of the Lennard-Jones MD code

    A shallow embedding of [src/ljmd-cl.c]: the line reader
    [get_me_a_line], the command-line handling at the head of [main], the
    set-up of the device, and the main MD loop with its conditional
    read-backs and its output cadence.

    - C [int] values are integers of [Z]; the conversion from [long] to
      [int] and the clamping of [strtol] are written out.
    - [FPTYPE] ([float] or [double], chosen by a macro in the source) is a
      type class: the driver is generic in it.
    - The device facility (OpenCL and [OpenCL_utils.h]) is a record of
      parameters: the status every call returns and what a kernel does to
      the device buffers.
    - Every externally visible action is appended to a log kept in the
      host state, most recent event first. *)

From Stdlib Require Import ZArith List String Ascii Bool Lia.
From Stdlib Require Import QArith.
From Stdlib Require PrimFloat Uint63.
Import ListNotations.

Local Open Scope Z_scope.
Local Open Scope string_scope.

(** ** The C library functions the driver uses *)

(** [isspace] in the C locale: space, and the controls \t \n \v \f \r. *)
Definition isspace (c : ascii) : bool :=
  let n := nat_of_ascii c in
  (n =? 32)%nat || ((9 <=? n)%nat && (n <=? 13)%nat).

Definition isdigit (c : ascii) : bool :=
  let n := nat_of_ascii c in (48 <=? n)%nat && (n <=? 57)%nat.

Definition NUL : ascii := Ascii.zero.
Definition newline : ascii := ascii_of_nat 10.
Definition hash : ascii := "#"%char.

(** The C string held in a [char] array: its bytes up to the first NUL. *)
Fixpoint c_str (s : string) : string :=
  match s with
  | EmptyString => EmptyString
  | String c r => if Ascii.eqb c NUL then EmptyString else String c (c_str r)
  end.

(** [ptr = strchr(tmp, '#'); if (ptr) *ptr = '\0';] *)
Fixpoint cut_at (d : ascii) (s : string) : string :=
  match s with
  | EmptyString => EmptyString
  | String c r => if Ascii.eqb c d then EmptyString else String c (cut_at d r)
  end.

(** [while (isspace( *ptr )) ++ptr;] *)
Fixpoint skip_spaces (s : string) : string :=
  match s with
  | EmptyString => EmptyString
  | String c r => if isspace c then skip_spaces r else s
  end.

(** [fgets(tmp, size, fp)]: at most [size - 1] bytes, stopping after a
    newline; [None] (a NULL result) when the stream is at its end. The
    second component is what remains of the stream. *)
Fixpoint fgets_chunk (n : nat) (inp : string) : string * string :=
  match n, inp with
  | O, _ => (EmptyString, inp)
  | S _, EmptyString => (EmptyString, EmptyString)
  | S n', String c r =>
      if Ascii.eqb c newline then (String c EmptyString, r)
      else let (l, rest) := fgets_chunk n' r in (String c l, rest)
  end.

Definition fgets (size : nat) (inp : string) : option (string * string) :=
  match inp with
  | EmptyString => None
  | _ => Some (fgets_chunk (size - 1) inp)
  end.

(** [strtol(s, NULL, 10)] on a machine whose [long] has 64 bits: white
    space, an optional sign, then decimal digits; a value out of range is
    clamped; no digit at all gives 0. *)
Definition LONG_MAX : Z := 2 ^ 63 - 1.
Definition LONG_MIN : Z := - 2 ^ 63.
Definition INT_MIN : Z := - 2 ^ 31.

Definition digit_val (c : ascii) : Z := Z.of_nat (nat_of_ascii c) - 48.

Fixpoint digits (s : string) (acc : Z) : Z :=
  match s with
  | EmptyString => acc
  | String c r => if isdigit c then digits r (10 * acc + digit_val c) else acc
  end.

Definition signed_digits (s : string) : Z :=
  match s with
  | EmptyString => 0
  | String c r =>
      if Ascii.eqb c "-" then - digits r 0
      else if Ascii.eqb c "+" then digits r 0
      else digits s 0
  end.

Definition clamp_long (v : Z) : Z := Z.max LONG_MIN (Z.min LONG_MAX v).

Definition strtol (s : string) : Z :=
  clamp_long (signed_digits (skip_spaces (c_str s))).

(** Conversion of a [long] to a 32-bit [int] (two's complement wrap). *)
Definition to_int (v : Z) : Z := (v + 2 ^ 31) mod 2 ^ 32 - 2 ^ 31.

(** [atoi(s)] is [(int) strtol(s, NULL, 10)]. *)
Definition atoi (s : string) : Z := to_int (strtol s).

(** ** [get_me_a_line] *)

(** generic file- or pathname buffer length *)
Definition BLEN : nat := 200.

(** [i = strlen(tmp); --i; while (isspace(tmp[i])) { tmp[i] = '\0'; --i; }]
    run on the bytes of [tmp] taken from the last one backwards. The loop
    has no lower bound on [i]: when every byte is white space (or [tmp] is
    empty) it reads [tmp[-1]], outside the array, and the result is
    [None]. *)
Fixpoint strip_backwards (rev_tmp : list ascii) : option (list ascii) :=
  match rev_tmp with
  | [] => None
  | c :: r => if isspace c then strip_backwards r else Some rev_tmp
  end.

Definition strip_trailing (tmp : string) : option string :=
  match strip_backwards (rev (list_ascii_of_string tmp)) with
  | None => None
  | Some r => Some (string_of_list_ascii (rev r))
  end.

Inductive line_result :=
| LineRead (buf : string) (rest : string)   (* returns 0, [buf] filled *)
| LineError                                   (* returns -1 *)
| LineUndefined.                              (* read outside [tmp] *)

Definition get_me_a_line (fp : string) : line_result :=
  match fgets BLEN fp with
  | Some (chunk, rest) =>
      let tmp := cut_at hash (c_str chunk) in
      match strip_trailing tmp with
      | Some tmp =>
          let ptr := skip_spaces tmp in
          let i := String.length ptr in
          (* strcpy(buf,tmp) *)
          LineRead tmp rest
      | None => LineUndefined
      end
  | None => LineError
  end.


(** ** [FPTYPE]

    The source is compiled with [FPTYPE] set to [float] or to [double].
    The driver only moves such values around and combines them with the
    operations below. *)
Class FPTYPE (F : Type) := {
  lit : Q -> F;            (* a floating constant written in the source *)
  of_int : Z -> F;         (* an [int] operand converted to [FPTYPE] *)
  fadd : F -> F -> F;
  fsub : F -> F -> F;
  fmul : F -> F -> F;
  fdiv : F -> F -> F;
  pow : F -> F -> F;       (* math.h *)
  atof : string -> F       (* stdlib.h *)
}.

Declare Scope fp_scope.
Delimit Scope fp_scope with fp.
Notation "x + y" := (fadd x y) : fp_scope.
Notation "x - y" := (fsub x y) : fp_scope.
Notation "x * y" := (fmul x y) : fp_scope.
Notation "x / y" := (fdiv x y) : fp_scope.

Definition CL_SUCCESS : Z := 0.

(** The five kernels of [opencl_kernels_as_string.h] and the eleven
    device buffers the driver creates. *)
Inductive kernel :=
| opencl_force | opencl_ekin | opencl_verlet_first | opencl_verlet_second
| opencl_azzero.

Inductive buffer :=
| rx | ry | rz | vx | vy | vz | fx | fy | fz | epot_buffer | ekin_buffer.

(** Host arrays: [buffers[0..2]] (to which [sys.rx], [sys.ry], [sys.rz]
    point), [tmp_epot] and [tmp_ekin]. *)
Inductive slot := buffers_0 | buffers_1 | buffers_2 | tmp_epot | tmp_ekin.

Definition buffer_eqb (a b : buffer) : bool :=
  match a, b with
  | rx, rx | ry, ry | rz, rz | vx, vx | vy, vy | vz, vz
  | fx, fx | fy, fy | fz, fz
  | epot_buffer, epot_buffer | ekin_buffer, ekin_buffer => true
  | _, _ => false
  end.

Definition slot_eqb (a b : slot) : bool :=
  match a, b with
  | buffers_0, buffers_0 | buffers_1, buffers_1 | buffers_2, buffers_2
  | tmp_epot, tmp_epot | tmp_ekin, tmp_ekin => true
  | _, _ => false
  end.

Definition kernel_eqb (a b : kernel) : bool :=
  match a, b with
  | opencl_force, opencl_force | opencl_ekin, opencl_ekin
  | opencl_verlet_first, opencl_verlet_first
  | opencl_verlet_second, opencl_verlet_second
  | opencl_azzero, opencl_azzero => true
  | _, _ => false
  end.

(** The calls into the device facility whose result reaches [status]. *)
Inductive call :=
| clCreateBuffer (b : buffer)
| clEnqueueWriteBuffer (b : buffer)
| clCreateProgramWithSource
| clBuildProgram
| clCreateKernel (k : kernel)
| clSetMultKernelArgs (k : kernel)
| clEnqueueNDRangeKernel (k : kernel) (globalWorkSize : Z)
| clEnqueueReadBuffer (b : buffer).

(** How the run ends: [exit]/[return] with a code, a failed
    [CheckSuccess], or an operation C leaves undefined. *)
Inductive halt :=
| Exit (code : Z)
| CheckFailed (label : Z) (st : Z)
| Undefined.

Section Driver.

Context {F : Type} {fp : FPTYPE F}.

Definition ZERO : F := lit 0.
Definition HALF : F := lit (1 # 2).
Definition TWO : F := lit 2.
Definition THREE : F := lit 3.

(** a few physical constants *)
Definition kboltz : F := lit (19872067 # 10000000000).
Definition mvsq2e : F := lit (239005736153349 # 100000000000).

Definition device := buffer -> list F.
Definition memory := slot -> list F.

Definition dev_store (b : buffer) (v : list F) (d : device) : device :=
  fun b' => if buffer_eqb b b' then v else d b'.

Definition mem_store (s : slot) (v : list F) (m : memory) : memory :=
  fun s' => if slot_eqb s s' then v else m s'.

(** The values handed to the kernels through [KArg]. *)
Record kargs := {
  a_natoms : Z;
  a_c12 : F; a_c6 : F; a_rcsq : F; a_boxby2 : F; a_box : F;
  a_dt : F; a_dtmf : F
}.

(** What the program meets outside itself. *)
Record world := {
  (* OpenCL_utils.h: the status returned for the device named argv[1] *)
  InitOpenCLEnvironment : string -> Z;
  (* the input script *)
  stdin : string;
  (* fopen(name, "r"): NULL, or the numbers fscanf finds in the file *)
  fopen_r : string -> option (list F);
  (* fopen(name, "w"): a stream (true) or NULL (false) *)
  fopen_w : string -> bool;
  (* status returned by a call issued while [sys.nfi] has a given value *)
  cl_status : call -> Z -> Z;
  (* effect of a kernel, run with given arguments and global work size *)
  cl_kernel : kernel -> kargs -> Z -> device -> device;
  (* what a cell nobody has written holds *)
  indeterminate : F
}.

(** One frame of output: what [output] prints on the console, in the
    energy file and in the trajectory file. *)
Record frame := {
  o_nfi : Z;
  o_temp : F; o_ekin : F; o_epot : F; o_etot : F;
  o_atoms : list (F * F * F)
}.

Inductive event :=
| Stderr (msg : string)
| DeviceCall (c : call) (at_nfi : Z) (st : Z)
| Download (b : buffer) (at_nfi : Z) (data : list F)
| Check (label : Z) (st : Z)
| Output (o : frame).

(** The variables of [main]. *)
Record host := {
  status : Z;
  nfi : Z;
  ekin : F; epot : F; temp : F;
  mem : memory;
  dev : device;
  input : string;
  log : list event
}.

Definition set_status v h :=
  {| status := v; nfi := nfi h; ekin := ekin h; epot := epot h;
     temp := temp h; mem := mem h; dev := dev h; input := input h;
     log := log h |}.
Definition set_nfi v h :=
  {| status := status h; nfi := v; ekin := ekin h; epot := epot h;
     temp := temp h; mem := mem h; dev := dev h; input := input h;
     log := log h |}.
Definition set_ekin v h :=
  {| status := status h; nfi := nfi h; ekin := v; epot := epot h;
     temp := temp h; mem := mem h; dev := dev h; input := input h;
     log := log h |}.
Definition set_epot v h :=
  {| status := status h; nfi := nfi h; ekin := ekin h; epot := v;
     temp := temp h; mem := mem h; dev := dev h; input := input h;
     log := log h |}.
Definition set_temp v h :=
  {| status := status h; nfi := nfi h; ekin := ekin h; epot := epot h;
     temp := v; mem := mem h; dev := dev h; input := input h;
     log := log h |}.
Definition set_mem v h :=
  {| status := status h; nfi := nfi h; ekin := ekin h; epot := epot h;
     temp := temp h; mem := v; dev := dev h; input := input h;
     log := log h |}.
Definition set_dev v h :=
  {| status := status h; nfi := nfi h; ekin := ekin h; epot := epot h;
     temp := temp h; mem := mem h; dev := v; input := input h;
     log := log h |}.
Definition set_input v h :=
  {| status := status h; nfi := nfi h; ekin := ekin h; epot := epot h;
     temp := temp h; mem := mem h; dev := dev h; input := v;
     log := log h |}.
Definition add_event (e : event) h :=
  {| status := status h; nfi := nfi h; ekin := ekin h; epot := epot h;
     temp := temp h; mem := mem h; dev := dev h; input := input h;
     log := e :: log h |}.

(** *** Sequencing: a state monad that can stop *)

Inductive result (A : Type) :=
| Done (a : A) (h : host)
| Halted (e : halt) (h : host).
Arguments Done {A} a h.
Arguments Halted {A} e h.

Definition M (A : Type) := host -> result A.

Definition ret {A} (a : A) : M A := fun h => Done a h.

Definition bind {A B} (m : M A) (k : A -> M B) : M B :=
  fun h => match m h with
           | Done a h' => k a h'
           | Halted e h' => Halted e h'
           end.

Definition final {A} (r : result A) : host :=
  match r with Done _ h => h | Halted _ h => h end.

Definition modify (f : host -> host) : M unit := fun h => Done tt (f h).
Definition stop {A} (e : halt) : M A := fun h => Halted e h.
Definition emit (e : event) : M unit := modify (add_event e).

End Driver.

Arguments Done {F A} a h.
Arguments Halted {F A} e h.
Arguments world F : clear implicits.
Arguments host F : clear implicits.
Arguments event F : clear implicits.
Arguments frame F : clear implicits.
Arguments kargs F : clear implicits.
Arguments device F : clear implicits.
Arguments memory F : clear implicits.
Arguments M F A : clear implicits.
Arguments result F A : clear implicits.

Declare Scope md_scope.
Delimit Scope md_scope with md.
Notation "x <- m ;; k" := (bind m (fun x => k))
  (at level 61, m at next level, right associativity) : md_scope.
Notation "m ;; k" := (bind m (fun _ => k))
  (at level 61, right associativity) : md_scope.

(** ** The program *)

Section Program.

Context {F : Type} {fp : FPTYPE F}.
Variable w : world F.

Local Open Scope list_scope.
Local Open Scope Z_scope.
Local Open Scope md_scope.

(** What [fscanf] and [atoi]/[atof] leave in [sys] and in the locals of
    [main] once the command line and the input script are read. *)
Record config := {
  nthreads : Z;
  natoms : Z;
  mass : F; epsilon : F; sigma : F; rcut : F; box : F;
  restfile : string; trajfile : string; ergfile : string;
  nsteps : Z;
  dt : F;
  nprint : Z
}.

(** [a[i]]; a cell nobody wrote holds [indeterminate w]. *)
Definition at_index (a : list F) (i : nat) : F := nth i a (indeterminate w).

(** The [n] cells of [a] from index [off] on. *)
Definition cells (off n : nat) (a : list F) : list F :=
  map (fun i => at_index a (off + i)) (seq 0 n).

(** [dst] with its first cells overwritten by [data]. *)
Definition blit (data dst : list F) : list F :=
  data ++ skipn (List.length data) dst.

(** [malloc(n * sizeof(FPTYPE))] *)
Definition malloc (s : slot) (n : nat) : M F unit :=
  modify (fun h => set_mem (mem_store s (repeat (indeterminate w) n) (mem h)) h).

(** [status = f(...)] and [status |= f(...)] *)
Definition assign (m : M F Z) : M F unit :=
  st <- m ;; modify (set_status st).

Definition or_assign (m : M F Z) : M F unit :=
  st <- m ;; modify (fun h => set_status (Z.lor (status h) st) h).

(** A call into the device facility: it returns the status the world
    gives it, and has its effect when that status is [CL_SUCCESS]. *)
Definition device_call (c : call) (effect : host F -> host F) : M F Z :=
  fun h =>
    let st := cl_status w c (nfi h) in
    let h' := add_event (DeviceCall c (nfi h) st) h in
    Done st (if st =? CL_SUCCESS then effect h' else h').

Definition create_buffer (b : buffer) (n : nat) : M F Z :=
  device_call (clCreateBuffer b)
    (fun h => set_dev (dev_store b (repeat (indeterminate w) n) (dev h)) h).

(** [clEnqueueWriteBuffer(cmdQueue, b, CL_TRUE, 0, n * sizeof(FPTYPE),
    src + off, ...)] *)
Definition write_buffer (b : buffer) (n : nat) (src : slot) (off : nat)
  : M F Z :=
  device_call (clEnqueueWriteBuffer b)
    (fun h => set_dev (dev_store b (blit (cells off n (mem h src)) (dev h b))
                         (dev h)) h).

(** [clEnqueueReadBuffer(cmdQueue, b, CL_TRUE, 0, n * sizeof(FPTYPE),
    dst, ...)] *)
Definition read_buffer (b : buffer) (n : nat) (dst : slot) : M F Z :=
  device_call (clEnqueueReadBuffer b)
    (fun h =>
       let data := cells 0 n (dev h b) in
       add_event (Download b (nfi h) data)
         (set_mem (mem_store dst (blit data (mem h dst)) (mem h)) h)).

Definition create_kernel (k : kernel) : M F Z :=
  device_call (clCreateKernel k) (fun h => h).

Definition set_args (k : kernel) : M F Z :=
  device_call (clSetMultKernelArgs k) (fun h => h).

(** precompute some constants *)
Definition kernel_args (cfg : config) : kargs F :=
  {| a_natoms := natoms cfg;
     a_c12 := (lit 4 * epsilon cfg * pow (sigma cfg) (lit 12))%fp;
     a_c6 := (lit 4 * epsilon cfg * pow (sigma cfg) (lit 6))%fp;
     a_rcsq := (rcut cfg * rcut cfg)%fp;
     a_boxby2 := (HALF * box cfg)%fp;
     a_box := box cfg;
     a_dt := dt cfg;
     a_dtmf := (HALF * dt cfg / mvsq2e / mass cfg)%fp |}.

(** [clEnqueueNDRangeKernel(cmdQueue, k, 1, NULL, globalWorkSize, ...)]
    with [globalWorkSize[0] = nthreads]. *)
Definition enqueue (cfg : config) (k : kernel) : M F Z :=
  device_call (clEnqueueNDRangeKernel k (nthreads cfg))
    (fun h => set_dev (cl_kernel w k (kernel_args cfg) (nthreads cfg) (dev h)) h).

(** Modelled from the spec: the macro [CheckSuccess(status, step)] of
    [OpenCL_utils.h], which is not part of the sources at hand. The
    accumulated status is looked at only at these checkpoints, and a
    failed device operation aborts the run. *)
Definition CheckSuccess (label : Z) : M F unit :=
  fun h =>
    let h' := add_event (Check label (status h)) h in
    if status h =? CL_SUCCESS then Done tt h'
    else Halted (CheckFailed label (status h)) h'.

(** [sys.nfi % nprint]; dividing by zero is undefined. *)
Definition nfi_mod (n : Z) : M F Z :=
  fun h => if n =? 0 then Halted Undefined h else Done (Z.rem (nfi h) n) h.

(** [for (i = 0; i < n; i++) body] *)
Definition for_each (n : Z) (body : nat -> host F -> host F) : M F unit :=
  modify (fun h => fold_left (fun h i => body i h) (seq 0 (Z.to_nat n)) h).

(** append data to output: one [printf], then [fprintf] on [erg] and on
    [traj]. [erg] and [traj] tell whether the streams handed to [output]
    are open. [fprintf] on a NULL stream is undefined; nothing of a call
    that runs into it is guaranteed, the line of its [printf] included,
    and the model stops there without a frame. *)
Definition output (cfg : config) (erg traj : bool) : M F unit :=
  fun h =>
    if (erg && traj)%bool then
      emit (Output
        {| o_nfi := nfi h; o_temp := temp h; o_ekin := ekin h;
           o_epot := epot h; o_etot := (ekin h + epot h)%fp;
           o_atoms :=
             map (fun i => (at_index (mem h buffers_0) i,
                            at_index (mem h buffers_1) i,
                            at_index (mem h buffers_2) i))
                 (seq 0 (Z.to_nat (natoms cfg))) |}) h
    else Halted Undefined h.

(** *** Command line *)

Definition usage : string :=
  "Error. Run the program as follow: ./ljmd-cl.x device [thread-number] < input device = cpu | gpu".

Definition PrintUsageAndExit {A} : M F A :=
  emit (Stderr usage) ;; stop (Exit 1).

(** [switch (argc) ...]; [argv] includes the program name. *)
Definition command_line (argv : list string) : M F Z :=
  match argv with
  | [_; device] =>
      (* only the cpu/gpu argument was passed, setting default nthreads *)
      ret (if String.eqb device "cpu" then 16 else 1024)
  | [_; _; count] =>
      (* both the device type (cpu/gpu) and the number of threads were passed *)
      let nthreads := to_int (strtol count) in
      if nthreads <? 0 then
        emit (Stderr ". The number of threads must be more than 1.") ;;
        PrintUsageAndExit
      else ret nthreads
  | _ => PrintUsageAndExit
  end.

(** Initialize the OpenCL environment *)
Definition init_opencl (device : string) : M F unit :=
  if InitOpenCLEnvironment w device =? CL_SUCCESS then ret tt
  else
    emit (Stderr "Program Error! OpenCL Environment was not initialized correctly.") ;;
    stop (Exit 4).

(** *** Input script *)

(** [if (get_me_a_line(stdin, line)) return 1;] *)
Definition read_line : M F string :=
  fun h =>
    match get_me_a_line (input h) with
    | LineRead buf rest => Done buf (set_input rest h)
    | LineError =>
        Halted (Exit 1) (add_event (Stderr "problem reading input") h)
    | LineUndefined => Halted Undefined h
    end.

(** read input file *)
Definition read_input (nthreads : Z) : M F config :=
  line <- read_line ;; let natoms := atoi line in
  line <- read_line ;; let mass := atof line in
  line <- read_line ;; let epsilon := atof line in
  line <- read_line ;; let sigma := atof line in
  line <- read_line ;; let rcut := atof line in
  line <- read_line ;; let box := atof line in
  restfile <- read_line ;;
  trajfile <- read_line ;;
  ergfile <- read_line ;;
  line <- read_line ;; let nsteps := atoi line in
  line <- read_line ;; let dt := atof line in
  line <- read_line ;; let nprint := atoi line in
  ret {| nthreads := nthreads; natoms := natoms; mass := mass;
         epsilon := epsilon; sigma := sigma; rcut := rcut; box := box;
         restfile := restfile; trajfile := trajfile; ergfile := ergfile;
         nsteps := nsteps; dt := dt; nprint := nprint |}.

(** *** Set-up of the buffers *)

Section WithConfig.

Variable cfg : config.

Let N : nat := Z.to_nat (natoms cfg).
Let T : nat := Z.to_nat (nthreads cfg).

(** allocate memory *)
Definition allocate : M F unit :=
  assign (create_buffer rx N) ;;
  assign (create_buffer ry N) ;;
  assign (create_buffer rz N) ;;
  assign (create_buffer vx N) ;;
  assign (create_buffer vy N) ;;
  assign (create_buffer vz N) ;;
  assign (create_buffer fx N) ;;
  assign (create_buffer fy N) ;;
  assign (create_buffer fz N) ;;
  malloc buffers_0 (2 * N) ;;
  malloc buffers_1 (2 * N) ;;
  malloc buffers_2 (2 * N).

(** The loop of [fscanf(fp, "%lf%lf%lf", buffers[0] + i, buffers[1] + i,
    buffers[2] + i)] for [i] below [2 * natoms]: the [i]-th triple of the
    file goes to cell [i] of the three arrays. *)
Definition column (nums : list F) (c : nat) : list F :=
  map (fun i => at_index nums (3 * i + c)) (seq 0 (2 * N)).

(** read restart *)
Definition read_restart : M F unit :=
  fun h =>
    match fopen_r w (restfile cfg) with
    | Some nums =>
        (modify (fun h =>
           set_mem (mem_store buffers_0 (column nums 0)
                   (mem_store buffers_1 (column nums 1)
                   (mem_store buffers_2 (column nums 2) (mem h)))) h) ;;
         assign (write_buffer rx N buffers_0 0) ;;
         or_assign (write_buffer ry N buffers_1 0) ;;
         or_assign (write_buffer rz N buffers_2 0) ;;
         or_assign (write_buffer vx N buffers_0 N) ;;
         or_assign (write_buffer vy N buffers_1 N) ;;
         or_assign (write_buffer vz N buffers_2 N)) h
    | None =>
        Halted (Exit 3) (add_event (Stderr "cannot read restart file") h)
    end.

(** *** Initial forces and energies *)

(** [sys.ekin *= HALF * mvsq2e * sys.mass;]
    [sys.temp = TWO * sys.ekin / (THREE * sys.natoms - THREE) / kboltz;] *)
Definition scale_ekin : M F unit :=
  modify (fun h => set_ekin (ekin h * (HALF * mvsq2e * mass cfg))%fp h).

Definition set_temperature : M F unit :=
  modify (fun h =>
    set_temp (TWO * ekin h / (THREE * of_int (natoms cfg) - THREE) / kboltz)%fp h).

(** Lines 238-302: the program and its kernels, the zero-fill of the
    force buffers, the first force evaluation and the sum of its
    potential-energy partials. *)
Definition initial_forces : M F unit :=
  modify (set_nfi 0) ;;
  assign (device_call clCreateProgramWithSource (fun h => h)) ;;
  or_assign (device_call clBuildProgram (fun h => h)) ;;
  assign (create_kernel opencl_force) ;;
  assign (create_kernel opencl_ekin) ;;
  assign (create_kernel opencl_verlet_first) ;;
  assign (create_kernel opencl_verlet_second) ;;
  assign (create_kernel opencl_azzero) ;;
  malloc tmp_epot T ;;
  assign (create_buffer epot_buffer T) ;;
  modify (set_epot ZERO) ;;
  modify (set_ekin ZERO) ;;
  (* Azzero force buffer *)
  assign (set_args opencl_azzero) ;;
  assign (enqueue cfg opencl_azzero) ;;
  or_assign (set_args opencl_force) ;;
  assign (enqueue cfg opencl_force) ;;
  or_assign (read_buffer epot_buffer T tmp_epot) ;;
  for_each (nthreads cfg)
    (fun i h => set_epot (epot h + at_index (mem h tmp_epot) i)%fp h).

(** Lines 304-318: the first kinetic energy and temperature. *)
Definition initial_ekin : M F unit :=
  malloc tmp_ekin T ;;
  assign (create_buffer ekin_buffer T) ;;
  or_assign (set_args opencl_ekin) ;;
  assign (enqueue cfg opencl_ekin) ;;
  or_assign (read_buffer ekin_buffer T tmp_ekin) ;;
  for_each (nthreads cfg)
    (fun i h => set_ekin (ekin h + at_index (mem h tmp_ekin) i)%fp h) ;;
  scale_ekin ;;
  set_temperature.

(** [erg=fopen(ergfile,"w"); traj=fopen(trajfile,"w");] (lines 320-321).
    The two results are never tested and never assigned again: they are
    the streams of every call of [output]. *)
Definition erg : bool := fopen_w w (ergfile cfg).
Definition traj : bool := fopen_w w (trajfile cfg).

(** Lines 326-335: download data on host, and the frame of step 0. *)
Definition first_frame : M F unit :=
  assign (read_buffer rx N buffers_0) ;;
  or_assign (read_buffer ry N buffers_1) ;;
  or_assign (read_buffer rz N buffers_2) ;;
  output cfg erg traj.

(** *** One iteration of the main MD loop (lines 350-455) *)

(** 6) download position@device to position@host *)
Definition download_positions : M F unit :=
  assign (read_buffer rx N buffers_0) ;;
  or_assign (read_buffer ry N buffers_1) ;;
  or_assign (read_buffer rz N buffers_2) ;;
  CheckSuccess 6.

(** 7) download E_pot[i]@device *)
Definition download_epot : M F unit :=
  or_assign (read_buffer epot_buffer T tmp_epot) ;;
  CheckSuccess 7.

(** 5) ekin and 8) download E_kin[i]@device *)
Definition ekin_and_download : M F unit :=
  or_assign (set_args opencl_ekin) ;;
  CheckSuccess 5 ;;
  assign (enqueue cfg opencl_ekin) ;;
  or_assign (read_buffer ekin_buffer T tmp_ekin) ;;
  CheckSuccess 8.

(** 1) write output every nprint steps: the body of the conditional. *)
Definition write_output : M F unit :=
  modify (set_epot ZERO) ;;
  modify (set_ekin ZERO) ;;
  for_each (nthreads cfg)
    (fun i h =>
       set_ekin (ekin h + at_index (mem h tmp_ekin) i)%fp
         (set_epot (epot h + at_index (mem h tmp_epot) i)%fp h)) ;;
  scale_ekin ;;
  set_temperature ;;
  output cfg erg traj.

(** 2) verlet_first *)
Definition verlet_first : M F unit :=
  or_assign (set_args opencl_verlet_first) ;;
  CheckSuccess 2 ;;
  assign (enqueue cfg opencl_verlet_first).

(** [if ((sys.nfi % nprint) == nprint-1) { ... }] *)
Definition before_boundary (body : M F unit) : M F unit :=
  r <- nfi_mod (nprint cfg) ;;
  if r =? nprint cfg - 1 then body else ret tt.

(** 3) force *)
Definition force : M F unit :=
  or_assign (set_args opencl_force) ;;
  CheckSuccess 3 ;;
  assign (enqueue cfg opencl_force).

(** 4) verlet_second *)
Definition verlet_second : M F unit :=
  or_assign (set_args opencl_verlet_second) ;;
  CheckSuccess 4 ;;
  assign (enqueue cfg opencl_verlet_second).

(** propagate system and recompute energies *)
Definition propagate : M F unit :=
  verlet_first ;;
  before_boundary download_positions ;;
  force ;;
  before_boundary download_epot ;;
  verlet_second ;;
  before_boundary ekin_and_download.

(** [if ((sys.nfi % nprint) == 0) { ... }] *)
Definition at_boundary (body : M F unit) : M F unit :=
  r <- nfi_mod (nprint cfg) ;;
  if r =? 0 then body else ret tt.

Definition md_step : M F unit :=
  propagate ;;
  at_boundary write_output.

(** [for (sys.nfi = 1; sys.nfi <= sys.nsteps; ++sys.nfi)]: the body runs
    once for each of the [n] values 1, ..., [nsteps]. The counter is
    not wrapped: a run with [nsteps = INT_MAX], whose last [++sys.nfi]
    overflows, is outside this model. *)
Fixpoint md_loop (n : nat) : M F unit :=
  match n with
  | O => ret tt
  | S n' =>
      md_step ;;
      modify (fun h => set_nfi (nfi h + 1) h) ;;
      md_loop n'
  end.

(** Lines 195-335: everything between the input script and the loop. *)
Definition setup : M F unit :=
  allocate ;;
  read_restart ;;
  initial_forces ;;
  initial_ekin ;;
  first_frame.

(** Everything [main] does once the input script is read. *)
Definition simulate : M F unit :=
  setup ;;
  modify (set_nfi 1) ;;
  md_loop (Z.to_nat (nsteps cfg)).

End WithConfig.

(** *** [main] *)

Definition main_body (argv : list string) : M F unit :=
  nthreads <- command_line argv ;;
  init_opencl (nth 1 argv EmptyString) ;;
  cfg <- read_input nthreads ;;
  simulate cfg.

(** The variables of [main] before anything is assigned to them. *)
Definition host0 : host F :=
  {| status := 0; nfi := 0;
     ekin := indeterminate w; epot := indeterminate w;
     temp := indeterminate w;
     mem := fun _ => []; dev := fun _ => [];
     input := stdin w; log := [] |}.

(** The exit status and the events of a run, the most recent first;
    reaching the end of [main] is [return 0]. *)
Definition main (argv : list string) : halt * list (event F) :=
  match main_body argv host0 with
  | Done _ h => (Exit 0, log h)
  | Halted e h => (e, log h)
  end.

End Program.

Arguments config F : clear implicits.

(** ** What the claims speak about *)

Section Observations.

Context {F : Type} {fp : FPTYPE F}.
Variable w : world F.

Local Open Scope list_scope.
Local Open Scope Z_scope.

(** The kernel a log entry dispatches, if it is a dispatch. *)
Definition dispatched (e : event F) : option kernel :=
  match e with
  | DeviceCall (clEnqueueNDRangeKernel k _) _ _ => Some k
  | _ => None
  end.

Fixpoint kernels_of (l : list (event F)) : list kernel :=
  match l with
  | [] => []
  | e :: r => match dispatched e with
              | Some k => k :: kernels_of r
              | None => kernels_of r
              end
  end.

(** The kernels a log dispatches, in the order of the dispatches. *)
Definition dispatches (l : list (event F)) : list kernel := rev (kernels_of l).

(** The global work size of a dispatch. *)
Definition work_size (e : event F) : option Z :=
  match e with
  | DeviceCall (clEnqueueNDRangeKernel _ g) _ _ => Some g
  | _ => None
  end.

Definition is_output (e : event F) : bool :=
  match e with Output _ => true | _ => false end.

Definition is_download (e : event F) : bool :=
  match e with Download _ _ _ => true | _ => false end.


(** Over a list of dispatches in order: is every force evaluation
    preceded by a zero-fill that came after the force evaluation before
    it?  [zeroed] tells whether a zero-fill is pending. *)
Fixpoint zero_fill_before_each_force (zeroed : bool) (ks : list kernel) : bool :=
  match ks with
  | [] => true
  | opencl_azzero :: r => zero_fill_before_each_force true r
  | opencl_force :: r => zeroed && zero_fill_before_each_force false r
  | _ :: r => zero_fill_before_each_force zeroed r
  end.

(** In a log (most recent event first): the step and the data of the
    latest download of buffer [b]. *)
Fixpoint last_download (b : buffer) (l : list (event F)) : option (Z * list F) :=
  match l with
  | [] => None
  | Download b' s data :: r =>
      if buffer_eqb b b' then Some (s, data) else last_download b r
  | _ :: r => last_download b r
  end.

(** The host-side sum [for (i = 0; i < n; i++) acc += a[i]]. *)
Definition host_sum (acc : F) (n : Z) (a : list F) : F :=
  fold_left fadd (cells w 0 (Z.to_nat n) a) acc.

(** The frame [output] prints at step [s] when the host arrays hold the
    downloaded positions [x], [y], [z], potential-energy partials [pe]
    and kinetic-energy partials [ke]. *)
Definition frame_from (cfg : config F) (s : Z) (x y z pe ke : list F) : frame F :=
  let ek := (host_sum ZERO (nthreads cfg) ke * (HALF * mvsq2e * mass cfg))%fp in
  let ep := host_sum ZERO (nthreads cfg) pe in
  {| o_nfi := s;
     o_temp := (TWO * ek / (THREE * of_int (natoms cfg) - THREE) / kboltz)%fp;
     o_ekin := ek;
     o_epot := ep;
     o_etot := (ek + ep)%fp;
     o_atoms := map (fun i => (at_index w x i, at_index w y i, at_index w z i))
                    (seq 0 (Z.to_nat (natoms cfg))) |}.

(** Frame [o], printed when the log was [earlier], shows what the latest
    downloads delivered, and all of them were made during step [s]. *)
Definition staged_during (cfg : config F) (s : Z) (earlier : list (event F))
  (o : frame F) : Prop :=
  exists x y z pe ke,
    last_download rx earlier = Some (s, x) /\
    last_download ry earlier = Some (s, y) /\
    last_download rz earlier = Some (s, z) /\
    last_download epot_buffer earlier = Some (s, pe) /\
    last_download ekin_buffer earlier = Some (s, ke) /\
    o = frame_from cfg (o_nfi o) x y z pe ke.

(** Every frame of the loop shows the downloads of the step before. *)
Definition one_step_stale (cfg : config F) (l : list (event F)) : Prop :=
  forall later o earlier,
    l = later ++ Output o :: earlier -> 1 <= o_nfi o ->
    staged_during cfg (o_nfi o - 1) earlier o.

(** Every frame of the loop shows the downloads of its own step. *)
Definition same_step (cfg : config F) (l : list (event F)) : Prop :=
  forall later o earlier,
    l = later ++ Output o :: earlier -> 1 <= o_nfi o ->
    staged_during cfg (o_nfi o) earlier o.

(** Every call of the device facility returns [CL_SUCCESS]. *)
Definition device_sound : Prop := forall c s, cl_status w c s = CL_SUCCESS.

(** The statuses the checkpoints of a log looked at. *)
Fixpoint checked (l : list (event F)) : list Z :=
  match l with
  | [] => []
  | Check _ st :: r => st :: checked r
  | _ :: r => checked r
  end.

(** The temperature as the specification writes it,
    [2 * Ekin / ((3 * N - 3) * kboltz)], every operation taken in
    [FPTYPE]. The source divides twice instead: see [set_temperature]. *)
Definition stated_temp (cfg : config F) (ek : F) : F :=
  (TWO * ek / ((THREE * of_int (natoms cfg) - THREE) * kboltz))%fp.

End Observations.

(** ** Two instances of [FPTYPE] *)

(** [atof] read as a rational: white space, a sign, then either a
    decimal numeral (digits with at most one point among them, and an
    exponent part: [e] or [E], a sign, digits) or a hexadecimal one
    ([0x] or [0X], hexadecimal digits with at most one point among them,
    and a binary exponent part: [p] or [P], a sign, digits). A string
    that starts with no numeral gives 0, as in C. Infinities and NaN,
    which C also accepts, are no rationals: they have no counterpart
    here and read as 0. The value is exact, where C rounds it to the
    nearest [double]. *)
Fixpoint fraction (s : string) (num : Z) (den : positive)
  : Z * positive * string :=
  match s with
  | EmptyString => (num, den, EmptyString)
  | String c r =>
      if isdigit c then fraction r (10 * num + digit_val c) (10 * den)
      else (num, den, s)
  end.

Fixpoint numeral (s : string) (acc : Z) : Z * positive * string :=
  match s with
  | EmptyString => (acc, 1%positive, EmptyString)
  | String c r =>
      if isdigit c then numeral r (10 * acc + digit_val c)
      else if Ascii.eqb c "."%char then fraction r acc 1
      else (acc, 1%positive, s)
  end.

(** The exponent part at the head of [s], 0 when there is none. *)
Definition exponent (s : string) : Z :=
  match s with
  | String c r =>
      if (Ascii.eqb c "e" || Ascii.eqb c "E")%bool then
        match r with
        | String "-" r' => - digits r' 0
        | String "+" r' => digits r' 0
        | _ => digits r 0
        end
      else 0
  | EmptyString => 0
  end.

Definition scaled (n : Z) (d : positive) (e : Z) : Q :=
  if Z.leb 0 e then Qred ((n * 10 ^ e) # d)
  else Qred (n # (d * Z.to_pos (10 ^ (- e)))).

(** The value of a hexadecimal digit. *)
Definition xdigit_val (c : ascii) : option Z :=
  let n := nat_of_ascii c in
  if isdigit c then Some (digit_val c)
  else if (Nat.leb 97 n && Nat.leb n 102)%bool then Some (Z.of_nat n - 87)
  else if (Nat.leb 65 n && Nat.leb n 70)%bool then Some (Z.of_nat n - 55)
  else None.

Fixpoint hex_fraction (s : string) (num : Z) (den : positive)
  : Z * positive * string :=
  match s with
  | EmptyString => (num, den, EmptyString)
  | String c r =>
      match xdigit_val c with
      | Some v => hex_fraction r (16 * num + v) (16 * den)
      | None => (num, den, s)
      end
  end.

Fixpoint hex_numeral (s : string) (acc : Z) : Z * positive * string :=
  match s with
  | EmptyString => (acc, 1%positive, EmptyString)
  | String c r =>
      match xdigit_val c with
      | Some v => hex_numeral r (16 * acc + v)
      | None =>
          if Ascii.eqb c "."%char then hex_fraction r acc 1
          else (acc, 1%positive, s)
      end
  end.

(** The binary exponent part at the head of [s], 0 when there is none. *)
Definition binary_exponent (s : string) : Z :=
  match s with
  | String c r =>
      if (Ascii.eqb c "p" || Ascii.eqb c "P")%bool then
        match r with
        | String "-" r' => - digits r' 0
        | String "+" r' => digits r' 0
        | _ => digits r 0
        end
      else 0
  | EmptyString => 0
  end.

Definition scaled2 (n : Z) (d : positive) (e : Z) : Q :=
  if Z.leb 0 e then Qred ((n * 2 ^ e) # d)
  else Qred (n # (d * Z.to_pos (2 ^ (- e)))).

Definition unsigned_decimal (s : string) : Q :=
  match s with
  | String "0" (String x r) =>
      if (Ascii.eqb x "x" || Ascii.eqb x "X")%bool then
        match hex_numeral r 0 with
        | (n, d, rest) => scaled2 n d (binary_exponent rest)
        end
      else
        match numeral s 0 with
        | (n, d, rest) => scaled n d (exponent rest)
        end
  | _ =>
      match numeral s 0 with
      | (n, d, rest) => scaled n d (exponent rest)
      end
  end.

Definition decimal (s : string) : Q :=
  let s := skip_spaces (c_str s) in
  match s with
  | String "-" r => Qred (- unsigned_decimal r)
  | String "+" r => unsigned_decimal r
  | _ => unsigned_decimal s
  end.

(** Exact rational arithmetic: it computes, so the driver can be run on
    the stand-in device below. No rounding occurs: it is not the
    arithmetic of a [double], and no statement about the values of a run
    of the real program is drawn from it. *)
#[global] Instance rational : FPTYPE Q := {|
  lit := fun q => q;
  of_int := inject_Z;
  fadd := fun x y => Qred (x + y);
  fsub := fun x y => Qred (x - y);
  fmul := fun x y => Qred (x * y);
  fdiv := fun x y => Qred (x / y);
  pow := fun x y => Qred (Qpower x (Qnum y / Zpos (Qden y)));
  atof := decimal
|}.

(** [FPTYPE] as the source has it without [_USE_FLOAT]: IEEE 754
    binary64 with rounding to nearest, every operation rounded once. *)
Module Binary64.

(** An integer as a [double]; exact below [2 ^ 53]. *)
Definition of_Z (z : Z) : PrimFloat.float :=
  match z with
  | Z0 => PrimFloat.of_uint63 (Uint63.of_Z 0)
  | Zpos _ => PrimFloat.of_uint63 (Uint63.of_Z z)
  | Zneg p => PrimFloat.opp (PrimFloat.of_uint63 (Uint63.of_Z (Zpos p)))
  end.

(** A floating constant of the source, given as a fraction: the
    [double] nearest to it, numerator and denominator being below
    [2 ^ 53] as they are for every constant of the source. *)
Definition literal (q : Q) : PrimFloat.float :=
  PrimFloat.div (of_Z (Qnum q)) (of_Z (Zpos (Qden q))).

(** [pow] of [math.h] and [atof] of [stdlib.h] are parameters. *)
Definition fptype (pow : PrimFloat.float -> PrimFloat.float -> PrimFloat.float)
  (atof : string -> PrimFloat.float) : FPTYPE PrimFloat.float := {|
  lit := literal;
  of_int := of_Z;
  fadd := PrimFloat.add;
  fsub := PrimFloat.sub;
  fmul := PrimFloat.mul;
  fdiv := PrimFloat.div;
  pow := pow;
  atof := atof
|}.

End Binary64.

(** ** A stand-in device, to run the driver on concrete inputs

    The kernels of [opencl_kernels_as_string.h] are not among the
    sources at hand; the theorems below hold whatever they compute. To
    run the driver on a concrete input some device is needed: this one
    works on rationals, gives worker [t] of [g] the particles [t],
    [t + g], ..., integrates as velocity Verlet does and pulls every
    particle towards the origin. *)
Module Standin.

Local Open Scope list_scope.

Definition owned (g n t : nat) : list nat :=
  filter (fun i => Nat.eqb (i mod g) t) (seq 0 n).

Definition partials (g n : nat) (term : nat -> Q) : list Q :=
  map (fun t => fold_left (fun acc i => fadd acc (term i)) (owned g n t) 0%Q)
      (seq 0 g).

Definition run_kernel (k : kernel) (a : kargs Q) (gws : Z) (d : device Q)
  : device Q :=
  let n := Z.to_nat (a_natoms a) in
  let g := Z.to_nat gws in
  let cell b i := nth i (d b) 0%Q in
  let each (f : nat -> Q) := map f (seq 0 n) in
  let kick v f := each (fun i => fadd (cell v i) (fmul (a_dtmf a) (cell f i))) in
  let move r v := each (fun i => fadd (cell r i) (fmul (a_dt a) (nth i v 0%Q))) in
  let square b i := fmul (cell b i) (cell b i) in
  if Nat.eqb g 0 then d
  else
    match k with
    | opencl_azzero =>
        dev_store fx (each (fun _ => 0%Q))
          (dev_store fy (each (fun _ => 0%Q))
             (dev_store fz (each (fun _ => 0%Q)) d))
    | opencl_verlet_first =>
        let nvx := kick vx fx in
        let nvy := kick vy fy in
        let nvz := kick vz fz in
        dev_store vx nvx (dev_store vy nvy (dev_store vz nvz
          (dev_store rx (move rx nvx) (dev_store ry (move ry nvy)
             (dev_store rz (move rz nvz) d)))))
    | opencl_verlet_second =>
        dev_store vx (kick vx fx) (dev_store vy (kick vy fy)
          (dev_store vz (kick vz fz) d))
    | opencl_force =>
        dev_store fx (each (fun i => Qopp (cell rx i)))
          (dev_store fy (each (fun i => Qopp (cell ry i)))
             (dev_store fz (each (fun i => Qopp (cell rz i)))
                (dev_store epot_buffer
                   (partials g n (fun i =>
                      fmul (1 # 2)
                        (fadd (square rx i) (fadd (square ry i) (square rz i)))))
                   d)))
    | opencl_ekin =>
        dev_store ekin_buffer
          (partials g n (fun i =>
             fadd (square vx i) (fadd (square vy i) (square vz i))))
          d
    end.

Definition nl : string := String newline EmptyString.

(** An input script for two particles; [steps] and [every] are the lines
    of the step count and of the print interval. *)
Definition script (steps every : string) : string :=
  ("2               # natoms" ++ nl ++
   "39.948          # mass in AMU" ++ nl ++
   "0.2379          # epsilon in kcal/mol" ++ nl ++
   "3.405           # sigma in angstrom" ++ nl ++
   "8.5             # rcut in angstrom" ++ nl ++
   "17.1580         # box length (in angstrom)" ++ nl ++
   "argon_2.rest    # restart" ++ nl ++
   "argon_2.xyz     # trajectory" ++ nl ++
   "argon_2.dat     # energies" ++ nl ++
   steps ++ "    # nr MD steps" ++ nl ++
   "5.0             # MD time step (in fs)" ++ nl ++
   every ++ "    # output print frequency" ++ nl)%string.

(** The restart file: two positions, then two velocities. *)
Definition restart : list Q :=
  [0; 0; 0;  4; 0; 0;  (1 # 100); 0; 0;  -(1 # 100); 0; 0]%Q.

Definition world_of (steps every : string) (st : call -> Z -> Z) : world Q :=
  {| InitOpenCLEnvironment :=
       fun d => if (String.eqb d "cpu" || String.eqb d "gpu")%bool
                then CL_SUCCESS else (-1)%Z;
     stdin := script steps every;
     fopen_r := fun name => if String.eqb name "argon_2.rest"
                            then Some restart else None;
     fopen_w := fun name => (String.eqb name "argon_2.xyz"
                             || String.eqb name "argon_2.dat")%bool;
     cl_status := st;
     cl_kernel := run_kernel;
     indeterminate := 0%Q |}.

(** A device on which every call succeeds. *)
Definition sound : call -> Z -> Z := fun _ _ => CL_SUCCESS.

(** A device on which one call fails, once. *)
Definition call_eqb (a b : call) : bool :=
  match a, b with
  | clCreateBuffer x, clCreateBuffer y
  | clEnqueueWriteBuffer x, clEnqueueWriteBuffer y
  | clEnqueueReadBuffer x, clEnqueueReadBuffer y => buffer_eqb x y
  | clCreateProgramWithSource, clCreateProgramWithSource
  | clBuildProgram, clBuildProgram => true
  | clCreateKernel x, clCreateKernel y
  | clSetMultKernelArgs x, clSetMultKernelArgs y => kernel_eqb x y
  | clEnqueueNDRangeKernel x g, clEnqueueNDRangeKernel y g' =>
      (kernel_eqb x y && Z.eqb g g')%bool
  | _, _ => false
  end.

Definition CL_OUT_OF_RESOURCES : Z := (-5)%Z.

Definition failing (c : call) (s : Z) : call -> Z -> Z :=
  fun c' s' => if (call_eqb c c' && Z.eqb s s')%bool
               then CL_OUT_OF_RESOURCES else CL_SUCCESS.

End Standin.


(** ** Further notions used in the statements *)

Section Statements.

Context {F : Type} {fp : FPTYPE F}.
Variable w : world F.

Local Open Scope list_scope.
Local Open Scope Z_scope.

(** The part of [main] that comes before the configuration is known. *)
Definition preamble (argv : list string) : M F (config F) :=
  bind (command_line argv)
    (fun n => bind (init_opencl w (nth 1 argv EmptyString))
                (fun _ => read_input n)).

(** The configuration a run works with: what the command line and the
    input script give, when the set-up gets that far. *)
Definition configuration (argv : list string) : option (config F) :=
  match preamble argv (host0 w) with
  | Done cfg _ => Some cfg
  | Halted _ _ => None
  end.

(** What is left of the input after [k] calls of [get_me_a_line] that
    all returned 0. *)
Fixpoint lines_read (k : nat) (inp : string) : option string :=
  match k with
  | O => Some inp
  | S k' => match get_me_a_line inp with
            | LineRead _ rest => lines_read k' rest
            | _ => None
            end
  end.

(** A device call that did not return [CL_SUCCESS]. *)
Definition failed_call (e : event F) : bool :=
  match e with
  | DeviceCall _ _ st => negb (st =? CL_SUCCESS)
  | _ => false
  end.

(** A check that decides [one_step_stale] and [same_step] as far as the
    step of the position download goes: every frame of a step [s >= 1]
    comes after a download of [rx] made at step [s - d]. *)
Fixpoint frames_lag (d : Z) (l : list (event F)) : bool :=
  match l with
  | [] => true
  | Output o :: earlier =>
      (if 1 <=? o_nfi o then
         match last_download rx earlier with
         | Some (s, _) => s =? o_nfi o - d
         | None => false
         end
       else true) && frames_lag d earlier
  | _ :: earlier => frames_lag d earlier
  end.

(** Is download [e] one of buffer [b]? *)
Definition downloads (b : buffer) (e : event F) : bool :=
  match e with
  | Download b' _ _ => buffer_eqb b b'
  | _ => false
  end.

End Statements.

(** The text [strtol] looks for digits in: after white space and an
    optional sign. *)
Definition subject (s : string) : string :=
  match skip_spaces (c_str s) with
  | EmptyString => EmptyString
  | String c r =>
      if (Ascii.eqb c "-" || Ascii.eqb c "+")%bool then r else String c r
  end.

(** No digit where the number should start. *)
Definition no_leading_digit (s : string) : Prop :=
  match subject s with
  | EmptyString => True
  | String c _ => isdigit c = false
  end.

(** [ks] is a beginning of [l]. *)
Definition begins {A} (ks l : list A) : Prop := exists rest, (ks ++ rest)%list = l.

(** ** Relations between a state of the host and a later one *)

Section Relations.

Context {F : Type} {fp : FPTYPE F}.
Variable w : world F.

Local Open Scope list_scope.
Local Open Scope Z_scope.

(** Whatever state [m] starts in, the state it ends in (by finishing or
    by halting) is [R]-related to it. *)
Definition steps {A} (R : host F -> host F -> Prop) (m : M F A) : Prop :=
  forall h, R h (final (m h)).

(** A relation that is a preorder and that assignments to [status], to
    the energies, to the device memory and to the input position respect. *)
Class Stable (R : host F -> host F -> Prop) : Prop := {
  stable_refl : forall h, R h h;
  stable_trans : forall a b c, R a b -> R b c -> R a c;
  stable_status : forall v h, R h (set_status v h);
  stable_ekin : forall v h, R h (set_ekin v h);
  stable_epot : forall v h, R h (set_epot v h);
  stable_temp : forall v h, R h (set_temp v h);
  stable_dev : forall v h, R h (set_dev v h);
  stable_input : forall v h, R h (set_input v h)
}.

(** The later log is the earlier one with events satisfying [P] added. *)
Definition extends (P : event F -> Prop) (h h' : host F) : Prop :=
  exists evs, log h' = evs ++ log h /\ Forall P evs.

(** The same, for a piece of program that starts in step [k] and stays
    in it. *)
Definition during (k : Z) (P : event F -> Prop) (h h' : host F) : Prop :=
  nfi h = k -> nfi h' = k /\ extends P h h'.

(** Two arrays with the same first [n] cells. *)
Definition agree (n : nat) (a b : list F) : Prop :=
  cells w 0 n a = cells w 0 n b.

(** Where the driver downloads each buffer to, and how many cells. *)
Definition staging (cfg : config F) : list (buffer * slot * nat) :=
  [ (rx, buffers_0, Z.to_nat (natoms cfg));
    (ry, buffers_1, Z.to_nat (natoms cfg));
    (rz, buffers_2, Z.to_nat (natoms cfg));
    (epot_buffer, tmp_epot, Z.to_nat (nthreads cfg));
    (ekin_buffer, tmp_ekin, Z.to_nat (nthreads cfg)) ].

(** The host arrays hold what the latest downloads of the loop put there. *)
Definition synced (cfg : config F) (h : host F) : Prop :=
  forall b sl n s d,
    In (b, sl, n) (staging cfg) ->
    last_download b (log h) = Some (s, d) -> 1 <= s ->
    agree n (mem h sl) d.

Definition keeps_synced (cfg : config F) (h h' : host F) : Prop :=
  synced cfg h -> synced cfg h'.

(** The latest download of each of the five buffers was made in step [s]. *)
Definition downloaded_in (s : Z) (l : list (event F)) (b : buffer) : Prop :=
  exists d, last_download b l = Some (s, d).

(** Predicates on events. *)
Definition any_event (e : event F) : Prop := True.
Definition not_output (e : event F) : Prop := is_output e = false.
Definition no_transfer (e : event F) : Prop :=
  is_output e = false /\ is_download e = false.
Definition stamped (k : Z) (e : event F) : Prop :=
  is_output e = false /\
  match e with Download _ s _ => s = k | _ => True end.
Definition sized (g : Z) (e : event F) : Prop :=
  forall g', work_size e = Some g' -> g' = g.
Definition not_zero_fill (e : event F) : Prop :=
  dispatched e <> Some opencl_azzero.

End Relations.

Section Admission.

Context {F : Type} {fp : FPTYPE F}.
Variable w : world F.
Variable cfg : config F.

(** A relation that the calls and the checkpoints of an iteration of the
    main loop respect. *)
Class Admits (R : host F -> host F -> Prop) : Prop := {
  admits_args : forall k h st,
    R h (add_event (DeviceCall (clSetMultKernelArgs k) (nfi h) st) h);
  admits_enqueue : forall k, k <> opencl_azzero -> forall h st,
    R h (add_event
           (DeviceCall (clEnqueueNDRangeKernel k (nthreads cfg)) (nfi h) st) h);
  admits_read_call : forall b h st,
    R h (add_event (DeviceCall (clEnqueueReadBuffer b) (nfi h) st) h);
  admits_check : forall l h, R h (add_event (Check l (status h)) h)
}.

(** A relation that a successful download into its host array respects. *)
Definition admits_download (R : host F -> host F -> Prop) : Prop :=
  forall b dst n, In (b, dst, n) (staging cfg) -> forall h,
    R h (add_event (Download b (nfi h) (cells w 0 n (dev h b)))
           (set_mem (mem_store dst (blit (cells w 0 n (dev h b)) (mem h dst))
                       (mem h)) h)).

(** A relation that printing a frame of the current step respects. *)
Definition admits_output (R : host F -> host F -> Prop) : Prop :=
  forall h o, o_nfi o = nfi h -> R h (add_event (Output o) h).

(** A relation that the steps of the set-up respect. *)
Class AdmitsSetup (R : host F -> host F -> Prop) : Prop := {
  setup_call : forall c,
    (forall k g, c = clEnqueueNDRangeKernel k g -> g = nthreads cfg) ->
    forall h st, R h (add_event (DeviceCall c (nfi h) st) h);
  setup_mem : forall v h, R h (set_mem v h);
  setup_stderr : forall msg h, R h (add_event (Stderr msg) h);
  setup_nfi : forall h, R h (set_nfi 0 h)
}.

End Admission.

(** An event of the set-up: its frame and its downloads are of step 0. *)
Definition initial {F : Type} (e : event F) : Prop :=
  match e with
  | Output o => o_nfi o = 0
  | Download _ s _ => s = 0
  | _ => True
  end.

(** ** The schedule of a run: dispatches, downloads and frames *)

Inductive item :=
| Dispatch (k : kernel)
| Transfer (b : buffer)
| Frame (step : Z).

Section Schedule.

Context {F : Type} {fp : FPTYPE F}.
Variable w : world F.
Variable cfg : config F.

Local Open Scope list_scope.
Local Open Scope Z_scope.

Definition item_of (e : event F) : option item :=
  match e with
  | DeviceCall (clEnqueueNDRangeKernel k _) _ _ => Some (Dispatch k)
  | Download b _ _ => Some (Transfer b)
  | Output o => Some (Frame (o_nfi o))
  | _ => None
  end.

(** The items of a log, most recent first as the log is. *)
Fixpoint schedule (l : list (event F)) : list item :=
  match l with
  | [] => []
  | e :: r => match item_of e with
              | Some i => i :: schedule r
              | None => schedule r
              end
  end.

(** The same in the order of time. *)
Definition timeline (l : list (event F)) : list item := rev (schedule l).

Fixpoint kernels_in (l : list item) : list kernel :=
  match l with
  | [] => []
  | Dispatch k :: r => k :: kernels_in r
  | _ :: r => kernels_in r
  end.

(** What an iteration of step [s] that runs to its end does, in order. *)
Definition iteration (s : Z) : list item :=
  [Dispatch opencl_verlet_first] ++
  (if Z.rem s (nprint cfg) =? nprint cfg - 1
   then [Transfer rx; Transfer ry; Transfer rz] else []) ++
  [Dispatch opencl_force] ++
  (if Z.rem s (nprint cfg) =? nprint cfg - 1
   then [Transfer epot_buffer] else []) ++
  [Dispatch opencl_verlet_second] ++
  (if Z.rem s (nprint cfg) =? nprint cfg - 1
   then [Dispatch opencl_ekin; Transfer ekin_buffer] else []) ++
  (if Z.rem s (nprint cfg) =? 0 then [Frame s] else []).

(** The state between two iterations of the loop, [k] being the step
    about to start. *)
Definition between (k : Z) (h : host F) : Prop :=
  nfi h = k /\
  one_step_stale w cfg (log h) /\
  synced w cfg h /\
  (2 <= k -> Z.rem (k - 1) (nprint cfg) = nprint cfg - 1 ->
   forall b sl n, In (b, sl, n) (staging cfg) ->
                  downloaded_in (k - 1) (log h) b).

(** What a call leaves behind: the status and the step are those of
    before, and the schedule grows by [added st]. *)
Definition leaves (m : M F Z) (added : Z -> list item) : Prop :=
  forall h, exists st h1,
    m h = Done st h1 /\ nfi h1 = nfi h /\ status h1 = status h /\
    schedule (log h1) = added st ++ schedule (log h).

(** The beginnings of the four dispatches of an iteration, as they
    stand in a log (most recent first). *)
Definition partial_kicks (ks : list kernel) : Prop :=
  ks = [] \/ ks = [opencl_verlet_first] \/
  ks = [opencl_force; opencl_verlet_first] \/
  ks = [opencl_verlet_second; opencl_force; opencl_verlet_first] \/
  ks = [opencl_ekin; opencl_verlet_second; opencl_force; opencl_verlet_first].

(** [m] always finishes, in a state [P]-related to the one it starts in. *)
Definition always {A} (P : host F -> host F -> Prop) (m : M F A) : Prop :=
  forall h, exists a h1, m h = Done a h1 /\ P h h1.

(** The later log dispatches [ks] (most recent first) on top of the
    earlier one, and the kinetic energy of the host is left alone. *)
Definition quietly (ks : list kernel) (h h1 : host F) : Prop :=
  kernels_of (log h1) = ks ++ kernels_of (log h) /\ ekin h1 = ekin h.

(** The same, the kinetic energy of the host ending as [ZERO]. *)
Definition zeroing (ks : list kernel) (h h1 : host F) : Prop :=
  kernels_of (log h1) = ks ++ kernels_of (log h) /\ ekin h1 = ZERO.

(** The kernel a call dispatches, as a list. *)
Definition kernel_of_call (c : call) : list kernel :=
  match c with
  | clEnqueueNDRangeKernel k _ => [k]
  | _ => []
  end.

(** An event that is no dispatch. *)
Definition no_dispatch (e : event F) : Prop := dispatched e = None.

End Schedule.

(** ** Notions for the line reader and the input script *)

(** The byte [c] does not occur in [s]. *)
Definition free_of (c : ascii) (s : string) : Prop :=
  ~ In c (list_ascii_of_string s).

(** [s] is made of white space only. *)
Definition blank (s : string) : Prop :=
  Forall (fun c => isspace c = true) (list_ascii_of_string s).

(** [s] is not empty and its last byte is no white space. *)
Definition ends_in_text (s : string) : Prop :=
  exists front c, s = (front ++ String c EmptyString)%string /\ isspace c = false.

(** What the call number [k] (from 0) of [get_me_a_line] delivers, when
    the calls before it all returned 0. *)
Fixpoint nth_line (k : nat) (inp : string) : option string :=
  match k, get_me_a_line inp with
  | O, LineRead buf _ => Some buf
  | S k', LineRead _ rest => nth_line k' rest
  | _, _ => None
  end.

(** ** Notions for whole runs *)

Section Frames.

Context {F : Type}.

(** The steps of the frames of a log, in the order of time. *)
Fixpoint frames_of (l : list (event F)) : list Z :=
  match l with
  | [] => []
  | Output o :: r => o_nfi o :: frames_of r
  | _ :: r => frames_of r
  end.

Definition frame_steps (l : list (event F)) : list Z := rev (frames_of l).

(** In a log (most recent event first): the frame of step [s], and the
    log it was printed on top of. *)
Fixpoint frame_at (s : Z) (l : list (event F))
  : option (frame F * list (event F)) :=
  match l with
  | [] => None
  | Output o :: r => if Z.eqb (o_nfi o) s then Some (o, r) else frame_at s r
  | _ :: r => frame_at s r
  end.



(** What an iteration of the main loop may log: arguments of a kernel,
    a dispatch, a read-back with its download, a checkpoint, a frame. *)
Definition loop_event (e : event F) : Prop :=
  match e with
  | DeviceCall (clSetMultKernelArgs _) _ _
  | DeviceCall (clEnqueueNDRangeKernel _ _) _ _
  | DeviceCall (clEnqueueReadBuffer _) _ _ => True
  | DeviceCall _ _ _ => False
  | Stderr _ => False
  | Download _ _ _ | Check _ _ | Output _ => True
  end.

(** The host arrays are left alone unless a download is logged. *)
Definition memory_follows_downloads (h h' : host F) : Prop :=
  exists evs, log h' = (evs ++ log h)%list /\
    (Forall (fun e => is_download e = false) evs -> mem h' = mem h).

End Frames.

(** The steps from [k] on, [n] of them, at which the main loop prints. *)
Fixpoint boundaries (nprint : Z) (k : Z) (n : nat) : list Z :=
  match n with
  | O => []
  | S n' =>
      ((if Z.eqb (Z.rem k nprint) 0 then [k] else [])
       ++ boundaries nprint (k + 1)%Z n')%list
  end.

(** ** Concrete runs on the stand-in device *)

Module Example.

(** The command line of the examples: the CPU device, [n] workers. *)
Definition argv_of (n : string) : list string := ["ljmd-cl.x"; "cpu"; n].

(** The configuration the driver reads from [script steps every] when
    given [n] workers; the record after [None] is never reached for the
    scripts used below. *)
Definition parsed (n steps every : string) : config Q :=
  match configuration (Standin.world_of steps every Standin.sound) (argv_of n) with
  | Some c => c
  | None =>
      {| nthreads := 0; natoms := 0; mass := 0%Q; epsilon := 0%Q;
         sigma := 0%Q; rcut := 0%Q; box := 0%Q;
         restfile := EmptyString; trajfile := EmptyString;
         ergfile := EmptyString; nsteps := 0; dt := 0%Q; nprint := 0 |}
  end.

(** A world and a configuration over binary64: two particles of mass
    40, two workers, and a device whose kinetic-energy kernel leaves the
    partials 1 and 2 in [ekin_buffer] and whose other kernels leave the
    buffers alone. *)
Definition float_world : world PrimFloat.float :=
  {| InitOpenCLEnvironment := fun _ => CL_SUCCESS;
     stdin := EmptyString;
     fopen_r := fun _ => Some [];
     fopen_w := fun _ => true;
     cl_status := fun _ _ => CL_SUCCESS;
     cl_kernel := fun k _ _ d =>
       match k with
       | opencl_ekin =>
           dev_store ekin_buffer [Binary64.of_Z 1; Binary64.of_Z 2] d
       | _ => d
       end;
     indeterminate := Binary64.of_Z 0 |}.

Definition float_config : config PrimFloat.float :=
  {| nthreads := 2; natoms := 2; mass := Binary64.of_Z 40;
     epsilon := Binary64.of_Z 1; sigma := Binary64.of_Z 1;
     rcut := Binary64.of_Z 1; box := Binary64.of_Z 10;
     restfile := "argon_2.rest"; trajfile := "argon_2.xyz";
     ergfile := "argon_2.dat"; nsteps := 1; dt := Binary64.of_Z 1;
     nprint := 1 |}.

(** The set-up (lines 195-335) on that world, in binary64, with the
    [pow] and the [atof] of the caller's: the state it ends in. *)
Definition float_setup
  (pow : PrimFloat.float -> PrimFloat.float -> PrimFloat.float)
  (atof : string -> PrimFloat.float) : host PrimFloat.float :=
  final (setup (fp := Binary64.fptype pow atof) float_world float_config
           (host0 float_world)).

(** The state of the driver once the buffers are allocated and the
    restart file is read (lines 195-235). *)
Definition restarted (w : world Q) (cfg : config Q) : host Q :=
  final (bind (allocate w cfg) (fun _ => read_restart w cfg) (host0 w)).

(** The CPU device and two workers, with a device name of the caller's. *)
Definition argv_on (device : string) : list string :=
  ["ljmd-cl.x"; device; "2"].

(** The stand-in world with another input script. *)
Definition with_stdin (s : string) (w : world Q) : world Q :=
  {| InitOpenCLEnvironment := InitOpenCLEnvironment w;
     stdin := s;
     fopen_r := fopen_r w;
     fopen_w := fopen_w w;
     cl_status := cl_status w;
     cl_kernel := cl_kernel w;
     indeterminate := indeterminate w |}.

(** The stand-in world with no file that can be opened. *)
Definition without_files (w : world Q) : world Q :=
  {| InitOpenCLEnvironment := InitOpenCLEnvironment w;
     stdin := stdin w;
     fopen_r := fun _ => None;
     fopen_w := fun _ => false;
     cl_status := cl_status w;
     cl_kernel := cl_kernel w;
     indeterminate := indeterminate w |}.

(** An input script that stops after its fourth line. *)
Definition four_lines : string :=
  ("2               # natoms" ++ Standin.nl ++
   "39.948          # mass in AMU" ++ Standin.nl ++
   "0.2379          # epsilon in kcal/mol" ++ Standin.nl ++
   "3.405           # sigma in angstrom" ++ Standin.nl)%string.

End Example.


(** * Verification *)

Local Open Scope string_scope.
Local Open Scope list_scope.
Local Open Scope Z_scope.

(** ** The line reader *)

Lemma strip_backwards_shape r out :
  strip_backwards r = Some out ->
  exists c rest, out = c :: rest /\ isspace c = false.
Proof.
  induction r as [|c r IH]; simpl; [discriminate|].
  destruct (isspace c) eqn:E; [exact IH|].
  intros H; injection H as <-. eauto.
Qed.

(** C4. A line of the input script that starts with blanks is handed to
    [main] with those blanks still in front: the comment and the blanks
    behind the value are cut, the ones before it are not ([get_me_a_line]
    skips them with [ptr] and then copies [tmp]). *)
Theorem leading_blanks_are_kept :
  get_me_a_line ("   argon_108.rest   # restart" ++ String newline "108")
  = LineRead "   argon_108.rest" "108".
Proof. reflexivity. Qed.

(** ** Reasoning about pieces of the driver *)

Section Logic.

Context {F : Type} {fp : FPTYPE F}.
Variable w : world F.

Local Abbreviation host := (host F).
Local Abbreviation event := (event F).

(** *** Sequencing *)

Lemma bind_done {A B} (m : M F A) (k : A -> M F B) h b h' :
  bind m k h = Done b h' ->
  exists a h1, m h = Done a h1 /\ k a h1 = Done b h'.
Proof.
  unfold bind. destruct (m h) as [a h1|e h1]; [eauto | discriminate].
Qed.

Lemma bind_final {A B} (m : M F A) (k : A -> M F B) h :
  final (bind m k h) =
  match m h with
  | Done a h1 => final (k a h1)
  | Halted _ h1 => h1
  end.
Proof. unfold bind. destruct (m h); reflexivity. Qed.

Section Generic.

Variable R : host -> host -> Prop.
Context {SR : Stable R}.

Lemma steps_ret {A} (a : A) : steps R (ret a).
Proof. intro h. apply stable_refl. Qed.

Lemma steps_stop {A} e : steps R (@stop F A e).
Proof. intro h. apply stable_refl. Qed.

Lemma steps_bind {A B} (m : M F A) (k : A -> M F B) :
  steps R m -> (forall a, steps R (k a)) -> steps R (bind m k).
Proof.
  intros Hm Hk h. rewrite bind_final. specialize (Hm h).
  destruct (m h) as [a h1|e h1]; simpl in Hm; [|exact Hm].
  eapply stable_trans; [exact Hm | apply Hk].
Qed.

Lemma steps_modify (f : host -> host) :
  (forall h, R h (f h)) -> steps R (modify f).
Proof. intros H h. apply H. Qed.

Lemma steps_emit e : (forall h, R h (add_event e h)) -> steps R (emit e).
Proof. intros H h. apply H. Qed.

Lemma steps_if {A} (c : bool) (m1 m2 : M F A) :
  steps R m1 -> steps R m2 -> steps R (if c then m1 else m2).
Proof. destruct c; auto. Qed.

Lemma steps_assign (m : M F Z) : steps R m -> steps R (assign m).
Proof.
  intros H. apply steps_bind; [exact H|].
  intro st. apply steps_modify. apply stable_status.
Qed.

Lemma steps_or_assign (m : M F Z) : steps R m -> steps R (or_assign m).
Proof.
  intros H. apply steps_bind; [exact H|].
  intro st. apply steps_modify. intro h. apply stable_status.
Qed.

Lemma steps_device_call c (effect : host -> host) :
  (forall h st, R h (add_event (DeviceCall c (nfi h) st) h)) ->
  (forall h st, R (add_event (DeviceCall c (nfi h) st) h)
                  (effect (add_event (DeviceCall c (nfi h) st) h))) ->
  steps R (device_call w c effect).
Proof.
  intros He Hf h. unfold device_call. simpl.
  destruct (cl_status w c (nfi h) =? CL_SUCCESS).
  - eapply stable_trans; [apply He | apply Hf].
  - apply He.
Qed.

Lemma steps_set_args k :
  (forall h st, R h (add_event (DeviceCall (clSetMultKernelArgs k) (nfi h) st) h)) ->
  steps R (set_args w k).
Proof. intros H. apply steps_device_call; [exact H|]. intros; apply stable_refl. Qed.

Lemma steps_create_kernel k :
  (forall h st, R h (add_event (DeviceCall (clCreateKernel k) (nfi h) st) h)) ->
  steps R (create_kernel w k).
Proof. intros H. apply steps_device_call; [exact H|]. intros; apply stable_refl. Qed.

Lemma steps_plain_call c :
  (forall h st, R h (add_event (DeviceCall c (nfi h) st) h)) ->
  steps R (device_call w c (fun h => h)).
Proof. intros H. apply steps_device_call; [exact H|]. intros; apply stable_refl. Qed.

Lemma steps_enqueue cfg k :
  (forall h st, R h (add_event
     (DeviceCall (clEnqueueNDRangeKernel k (nthreads cfg)) (nfi h) st) h)) ->
  steps R (enqueue w cfg k).
Proof. intros H. apply steps_device_call; [exact H|]. intros; apply stable_dev. Qed.

Lemma steps_create_buffer b n :
  (forall h st, R h (add_event (DeviceCall (clCreateBuffer b) (nfi h) st) h)) ->
  steps R (create_buffer w b n).
Proof. intros H. apply steps_device_call; [exact H|]. intros; apply stable_dev. Qed.

Lemma steps_write_buffer b n src off :
  (forall h st, R h (add_event (DeviceCall (clEnqueueWriteBuffer b) (nfi h) st) h)) ->
  steps R (write_buffer w b n src off).
Proof. intros H. apply steps_device_call; [exact H|]. intros; apply stable_dev. Qed.

Lemma steps_read_buffer b n dst :
  (forall h st, R h (add_event (DeviceCall (clEnqueueReadBuffer b) (nfi h) st) h)) ->
  (forall h, R h (add_event (Download b (nfi h) (cells w 0 n (dev h b)))
                    (set_mem (mem_store dst
                       (blit (cells w 0 n (dev h b)) (mem h dst)) (mem h)) h))) ->
  steps R (read_buffer w b n dst).
Proof.
  intros He Hr. apply steps_device_call; [exact He|].
  intros h st. apply (Hr (add_event _ h)).
Qed.

Lemma steps_check l :
  (forall h, R h (add_event (Check l (status h)) h)) ->
  steps R (CheckSuccess l).
Proof.
  intros H h. unfold CheckSuccess.
  destruct (status h =? CL_SUCCESS); apply H.
Qed.

Lemma steps_nfi_mod n : steps R (nfi_mod n).
Proof. intro h. unfold nfi_mod. destruct (n =? 0); apply stable_refl. Qed.

Lemma steps_for_each n (body : nat -> host -> host) :
  (forall i h, R h (body i h)) -> steps R (for_each n body).
Proof.
  intros H h. unfold for_each, modify. simpl.
  generalize (seq 0 (Z.to_nat n)) as l. intro l. revert h.
  induction l as [|i l IH]; intro h; simpl.
  - apply stable_refl.
  - eapply stable_trans; [apply (H i) | apply IH].
Qed.

Lemma steps_output cfg e t :
  (forall h o, o_nfi o = nfi h -> R h (add_event (Output o) h)) ->
  steps R (output w cfg e t).
Proof.
  intros H h. unfold output.
  destruct (e && t)%bool; [apply H; reflexivity | apply stable_refl].
Qed.

Lemma steps_scale_ekin cfg : steps R (scale_ekin cfg).
Proof. apply steps_modify. intro h. apply stable_ekin. Qed.

Lemma steps_set_temperature cfg : steps R (set_temperature cfg).
Proof. apply steps_modify. intro h. apply stable_temp. Qed.

Lemma steps_malloc s n :
  (forall v h, R h (set_mem v h)) -> steps R (malloc w s n).
Proof. intros H. apply steps_modify. intro h. apply H. Qed.

Lemma steps_read_line :
  (forall h msg, R h (add_event (Stderr msg) h)) -> steps R read_line.
Proof.
  intros H h. unfold read_line.
  destruct (get_me_a_line (input h)); simpl.
  - apply stable_input.
  - apply H.
  - apply stable_refl.
Qed.

End Generic.
End Logic.

Section Blocks.

Context {F : Type} {fp : FPTYPE F}.
Variable w : world F.
Variable cfg : config F.
Variable R : host F -> host F -> Prop.
Context {SR : Stable R} {AR : Admits cfg R}.

Ltac walk :=
  repeat lazymatch goal with
    | |- forall _, steps _ _ => intro
    | |- steps _ (ret _) => apply steps_ret; try exact _
    | |- steps _ (assign _) => apply steps_assign; try exact _
    | |- steps _ (or_assign _) => apply steps_or_assign; try exact _
    | |- steps _ (set_args _ _) =>
        apply steps_set_args; first [exact _ | apply (@admits_args _ cfg R _)]
    | |- steps _ (enqueue _ _ _) =>
        apply steps_enqueue;
          first [exact _ | apply (@admits_enqueue _ cfg R _); discriminate]
    | |- steps _ (CheckSuccess _) =>
        apply steps_check; first [exact _ | apply (@admits_check _ cfg R _)]
    | |- steps _ (nfi_mod _) => apply steps_nfi_mod; try exact _
    | |- steps _ (scale_ekin _) => apply steps_scale_ekin; try exact _
    | |- steps _ (set_temperature _) =>
        apply steps_set_temperature; try exact _
    | |- steps _ (if _ then _ else _) => apply steps_if; try exact _
    | |- steps _ (bind _ _) => apply steps_bind; try exact _
    end.

Lemma steps_verlet_first : steps R (verlet_first w cfg).
Proof. unfold verlet_first. walk. Qed.

Lemma steps_force : steps R (force w cfg).
Proof. unfold force. walk. Qed.

Lemma steps_verlet_second : steps R (verlet_second w cfg).
Proof. unfold verlet_second. walk. Qed.

Lemma steps_before_boundary body :
  steps R body -> steps R (before_boundary cfg body).
Proof. intros H. unfold before_boundary. walk. exact H. Qed.

Lemma steps_at_boundary body :
  steps R body -> steps R (at_boundary cfg body).
Proof. intros H. unfold at_boundary. walk. exact H. Qed.

Lemma steps_read b n dst :
  In (b, dst, n) (staging cfg) ->
  admits_download w cfg R -> steps R (read_buffer w b n dst).
Proof.
  intros Hin H.
  apply steps_read_buffer;
    first [exact _ | apply (@admits_read_call _ cfg R _) | apply H, Hin].
Qed.

Ltac home := simpl; tauto.

Lemma steps_download_positions :
  admits_download w cfg R -> steps R (download_positions w cfg).
Proof. intros H. unfold download_positions. walk; (apply steps_read; [home | exact H]). Qed.

Lemma steps_download_epot :
  admits_download w cfg R -> steps R (download_epot w cfg).
Proof. intros H. unfold download_epot. walk; (apply steps_read; [home | exact H]). Qed.

Lemma steps_ekin_and_download :
  admits_download w cfg R -> steps R (ekin_and_download w cfg).
Proof. intros H. unfold ekin_and_download. walk; (apply steps_read; [home | exact H]). Qed.

Lemma steps_propagate :
  admits_download w cfg R -> steps R (propagate w cfg).
Proof.
  intros H. unfold propagate.
  apply steps_bind; try exact _; [apply steps_verlet_first | intro].
  apply steps_bind; try exact _;
    [apply steps_before_boundary, steps_download_positions, H | intro].
  apply steps_bind; try exact _; [apply steps_force | intro].
  apply steps_bind; try exact _;
    [apply steps_before_boundary, steps_download_epot, H | intro].
  apply steps_bind; try exact _; [apply steps_verlet_second | intro].
  apply steps_before_boundary, steps_ekin_and_download, H.
Qed.

Lemma steps_write_output :
  admits_output R -> steps R (write_output w cfg).
Proof.
  intros H. unfold write_output. walk.
  - apply steps_modify. intro; apply stable_epot.
  - apply steps_modify. intro; apply stable_ekin.
  - apply steps_for_each; try exact _. intros i h.
    eapply stable_trans; [apply stable_epot | apply stable_ekin].
  - apply steps_output; first [exact _ | exact H].
Qed.

Lemma steps_md_step :
  admits_download w cfg R -> admits_output R -> steps R (md_step w cfg).
Proof.
  intros Hd Ho. unfold md_step. apply steps_bind; try exact _.
  - apply steps_propagate, Hd.
  - intro. apply steps_at_boundary, steps_write_output, Ho.
Qed.

End Blocks.

(** ** The relations used below are stable *)

Section Instances.

Context {F : Type} {fp : FPTYPE F}.
Variable w : world F.
Variable cfg : config F.

Lemma extends_refl P (h : host F) : extends P h h.
Proof. exists []. split; [reflexivity | constructor]. Qed.

Lemma extends_trans P (a b c : host F) :
  extends P a b -> extends P b c -> extends P a c.
Proof.
  intros (e1 & H1 & F1) (e2 & H2 & F2). exists (e2 ++ e1). split.
  - rewrite H2, H1. apply app_assoc.
  - apply Forall_app. split; assumption.
Qed.

Lemma extends_same P (h h' : host F) : log h' = log h -> extends P h h'.
Proof. intros H. exists []. split; [exact H | constructor]. Qed.

Lemma extends_event (P : event F -> Prop) e (h : host F) :
  P e -> extends P h (add_event e h).
Proof. intros H. exists [e]. split; [reflexivity | auto]. Qed.

Lemma extends_weaken (P Q : event F -> Prop) (h h' : host F) :
  (forall e, P e -> Q e) -> extends P h h' -> extends Q h h'.
Proof.
  intros HPQ (evs & H & HF). exists evs. split; [exact H|].
  eapply Forall_impl; eauto.
Qed.

#[global] Instance extends_stable P : Stable (extends (F:=F) P).
Proof.
  constructor; intros;
    first [ apply extends_refl
          | eapply extends_trans; eassumption
          | apply extends_same; reflexivity ].
Qed.

Lemma extends_admits (P : event F -> Prop) :
  (forall c s st,
     (forall k g, c = clEnqueueNDRangeKernel k g ->
                  k <> opencl_azzero /\ g = nthreads cfg) ->
     P (DeviceCall c s st)) ->
  (forall l st, P (Check l st)) ->
  Admits cfg (extends P).
Proof.
  intros Hc Hk. constructor; intros; apply extends_event; auto;
    apply Hc; intros k' g' E; inversion E; subst; auto.
Qed.

Lemma during_refl k P (h : host F) : during k P h h.
Proof. intros H. split; [exact H | apply extends_refl]. Qed.

Lemma during_trans k P (a b c : host F) :
  during k P a b -> during k P b c -> during k P a c.
Proof.
  intros H1 H2 Ha. destruct (H1 Ha) as [Hb E1].
  destruct (H2 Hb) as [Hc E2]. split; [exact Hc|].
  eapply extends_trans; eassumption.
Qed.

Lemma during_same k P (h h' : host F) :
  nfi h' = nfi h -> log h' = log h -> during k P h h'.
Proof.
  intros Hn Hl Hk. split; [congruence | apply extends_same, Hl].
Qed.

Lemma during_event k (P : event F -> Prop) e (h : host F) :
  (nfi h = k -> P e) -> during k P h (add_event e h).
Proof. intros H Hk. split; [exact Hk | apply extends_event; auto]. Qed.

#[global] Instance during_stable k P : Stable (during (F:=F) k P).
Proof.
  constructor; intros;
    first [ apply during_refl
          | eapply during_trans; eassumption
          | apply during_same; reflexivity ].
Qed.

Lemma during_admits k (P : event F -> Prop) :
  (forall c st, P (DeviceCall c k st)) ->
  (forall l st, P (Check l st)) ->
  Admits cfg (during k P).
Proof.
  intros Hc Hk. constructor; intros; apply during_event; intros <-; auto.
Qed.

Lemma during_admits_download k (P : event F -> Prop) :
  (forall b d, P (Download b k d)) -> admits_download w cfg (during k P).
Proof.
  intros H b dst n _ h Hk. split; [exact Hk|].
  exists [Download b (nfi h) (cells w 0 n (dev h b))].
  split; [reflexivity|]. constructor; [|constructor]. rewrite Hk. apply H.
Qed.

Lemma during_admits_output k (P : event F -> Prop) :
  (forall o, P (Output o)) -> admits_output (during k P).
Proof. intros H h o _. apply during_event. auto. Qed.

Lemma during_weaken k (P Q : event F -> Prop) (h h' : host F) :
  (forall e, P e -> Q e) -> during k P h h' -> during k Q h h'.
Proof.
  intros HPQ H Hk. destruct (H Hk) as [Hn E]. split; [exact Hn|].
  eapply extends_weaken; eauto.
Qed.

(** *** Cells and downloads *)

Lemma cells_length off n (a : list F) : List.length (cells w off n a) = n.
Proof. unfold cells. rewrite length_map, length_seq. reflexivity. Qed.

Lemma cells_ext off n (a b : list F) :
  (forall i, (i < n)%nat -> at_index w a (off + i) = at_index w b (off + i)) ->
  cells w off n a = cells w off n b.
Proof.
  intros H. unfold cells. apply map_ext_in. intros i Hi.
  apply in_seq in Hi. apply H. lia.
Qed.

Lemma cells_blit n (data old : list F) :
  List.length data = n ->
  cells w 0 n (blit data old) = cells w 0 n data.
Proof.
  intros Hl. apply cells_ext. intros i Hi. unfold at_index, blit. simpl.
  apply app_nth1. lia.
Qed.

Lemma last_download_app b (evs l : list (event F)) :
  Forall (fun e => downloads b e = false) evs ->
  last_download b (evs ++ l) = last_download b l.
Proof.
  induction 1 as [|e evs He _ IH]; [reflexivity|]. simpl.
  destruct e; try exact IH. simpl in He. rewrite He. exact IH.
Qed.

Lemma buffer_eqb_refl b : buffer_eqb b b = true.
Proof. destruct b; reflexivity. Qed.

Lemma buffer_eqb_eq a b : buffer_eqb a b = true -> a = b.
Proof. destruct a, b; simpl; congruence. Qed.

Lemma staging_home b sl n sl' n' :
  In (b, sl, n) (staging cfg) -> In (b, sl', n') (staging cfg) ->
  sl' = sl /\ n' = n.
Proof.
  unfold staging. simpl. intros H H'.
  repeat (destruct H as [H|H]; [inversion H; subst|]); try contradiction;
    repeat (destruct H' as [H'|H']; [inversion H'; subst|]);
    try contradiction; auto.
Qed.

Lemma staging_apart b sl n b' sl' n' :
  In (b, sl, n) (staging cfg) -> In (b', sl', n') (staging cfg) ->
  buffer_eqb b b' = false -> slot_eqb sl sl' = false.
Proof.
  unfold staging. simpl. intros H H'.
  repeat (destruct H as [H|H]; [inversion H; subst|]); try contradiction;
    repeat (destruct H' as [H'|H']; [inversion H'; subst|]);
    try contradiction; simpl; congruence.
Qed.

Lemma synced_same (h h' : host F) :
  mem h' = mem h -> log h' = log h -> keeps_synced w cfg h h'.
Proof.
  intros Hm Hl Hs b sl n s d Hin Hd Hpos. rewrite Hm.
  rewrite Hl in Hd. eapply Hs; eauto.
Qed.

Lemma synced_event e (h : host F) :
  is_download e = false -> keeps_synced w cfg h (add_event e h).
Proof.
  intros He Hs b sl n s d Hin Hd Hpos.
  destruct e; simpl in He, Hd; try discriminate; eapply Hs; eauto.
Qed.

#[global] Instance synced_stable : Stable (keeps_synced w cfg).
Proof.
  constructor; intros;
    first [ apply synced_same; reflexivity
          | unfold keeps_synced in *; tauto ].
Qed.

#[global] Instance synced_admits : Admits cfg (keeps_synced w cfg).
Proof. constructor; intros; apply synced_event; reflexivity. Qed.

Lemma synced_admits_output : admits_output (keeps_synced w cfg).
Proof. intros h o _. apply synced_event. reflexivity. Qed.

Lemma synced_admits_download : admits_download w cfg (keeps_synced w cfg).
Proof.
  intros b dst n Hin h Hs b' sl' n' s d Hin' Hd Hpos. simpl in Hd |- *.
  destruct (buffer_eqb b' b) eqn:E.
  - apply buffer_eqb_eq in E. subst b'.
    destruct (staging_home _ _ _ _ _ Hin Hin') as [-> ->].
    injection Hd as <- <-. unfold agree, mem_store.
    replace (slot_eqb dst dst) with true by (destruct dst; reflexivity).
    rewrite cells_blit by apply cells_length.
    reflexivity.
  - assert (E' : buffer_eqb b b' = false)
      by (destruct b, b'; simpl in *; congruence).
    unfold mem_store. rewrite (staging_apart _ _ _ _ _ _ Hin Hin' E').
    eapply Hs; eauto.
Qed.

End Instances.

(** ** The blocks of an iteration *)

Section Iteration.

Context {F : Type} {fp : FPTYPE F}.
Variable w : world F.
Variable cfg : config F.

Lemma cells_at off n (a : list F) i :
  (i < n)%nat ->
  nth i (cells w off n a) (indeterminate w) = at_index w a (off + i).
Proof.
  intros Hi. unfold cells.
  rewrite (nth_indep _ (indeterminate w)
             (at_index w a (off + 0))) by (rewrite length_map, length_seq; lia).
  rewrite (map_nth (fun i => at_index w a (off + i))).
  rewrite seq_nth by lia. reflexivity.
Qed.

Lemma agree_at n (a b : list F) i :
  agree w n a b -> (i < n)%nat -> at_index w a i = at_index w b i.
Proof.
  intros H Hi. unfold agree in H.
  pose proof (cells_at 0 n a i Hi) as Ha.
  pose proof (cells_at 0 n b i Hi) as Hb.
  simpl in Ha, Hb. rewrite <- Ha, <- Hb, H. reflexivity.
Qed.

Lemma frame_from_agree s x y z pe ke x' y' z' pe' ke' :
  agree w (Z.to_nat (natoms cfg)) x x' ->
  agree w (Z.to_nat (natoms cfg)) y y' ->
  agree w (Z.to_nat (natoms cfg)) z z' ->
  agree w (Z.to_nat (nthreads cfg)) pe pe' ->
  agree w (Z.to_nat (nthreads cfg)) ke ke' ->
  frame_from w cfg s x y z pe ke = frame_from w cfg s x' y' z' pe' ke'.
Proof.
  intros Hx Hy Hz Hpe Hke. unfold frame_from, host_sum.
  unfold agree in Hpe, Hke. rewrite Hpe, Hke. f_equal.
  apply map_ext_in. intros i Hi. apply in_seq in Hi.
  rewrite (agree_at _ _ _ i Hx), (agree_at _ _ _ i Hy), (agree_at _ _ _ i Hz)
    by lia.
  reflexivity.
Qed.

(** The loop that sums both kinds of partials. *)
Lemma sum_both (l : list nat) (h : host F) :
  fold_left
    (fun h i =>
       set_ekin (ekin h + at_index w (mem h tmp_ekin) i)%fp
         (set_epot (epot h + at_index w (mem h tmp_epot) i)%fp h)) l h
  = set_ekin (fold_left fadd (map (at_index w (mem h tmp_ekin)) l) (ekin h))
      (set_epot (fold_left fadd (map (at_index w (mem h tmp_epot)) l) (epot h)) h).
Proof.
  revert h. induction l as [|i l IH]; intro h; simpl.
  - destruct h; reflexivity.
  - rewrite IH. reflexivity.
Qed.

(** What [write_output] does when both output streams are open: it
    finishes, and prints the frame made from the host arrays as they
    are. *)
Lemma write_output_frame (h : host F) :
  (erg w cfg && traj w cfg)%bool = true ->
  exists h',
    write_output w cfg h = Done tt h' /\
    log h' = Output (frame_from w cfg (nfi h)
                       (mem h buffers_0) (mem h buffers_1) (mem h buffers_2)
                       (mem h tmp_epot) (mem h tmp_ekin)) :: log h /\
    nfi h' = nfi h /\ mem h' = mem h /\ dev h' = dev h /\
    status h' = status h.
Proof.
  intros Hf.
  unfold write_output, for_each, scale_ekin, set_temperature, output, emit,
    bind, modify.
  rewrite sum_both, Hf. eexists. split; [reflexivity|]. simpl.
  repeat split; reflexivity.
Qed.

(** With a stream that is NULL it stops in [output], and nothing is
    printed. *)
Lemma write_output_stuck (h : host F) :
  (erg w cfg && traj w cfg)%bool = false ->
  exists h',
    write_output w cfg h = Halted Undefined h' /\
    log h' = log h /\ nfi h' = nfi h /\ mem h' = mem h /\ dev h' = dev h /\
    status h' = status h.
Proof.
  intros Hf.
  unfold write_output, for_each, scale_ekin, set_temperature, output, emit,
    bind, modify.
  rewrite sum_both, Hf. eexists. split; [reflexivity|]. simpl.
  repeat split; reflexivity.
Qed.

(** *** Checked downloads *)

Lemma lor_zero a b : Z.lor a b = 0 -> a = 0 /\ b = 0.
Proof. apply Z.lor_eq_0_iff. Qed.

Lemma steps_done {A} (R : host F -> host F -> Prop) (m : M F A) h a h1 :
  steps R m -> m h = Done a h1 -> R h h1.
Proof. intros H E. specialize (H h). rewrite E in H. exact H. Qed.

Lemma check_done l (h h1 : host F) :
  CheckSuccess l h = Done tt h1 ->
  status h = 0 /\ h1 = add_event (Check l (status h)) h.
Proof.
  unfold CheckSuccess. destruct (status h =? CL_SUCCESS) eqn:E; [|discriminate].
  intros H. injection H as <-. apply Z.eqb_eq in E. auto.
Qed.

Lemma read_effect b n dst (h : host F) :
  let st := cl_status w (clEnqueueReadBuffer b) (nfi h) in
  exists h1,
    read_buffer w b n dst h = Done st h1 /\
    nfi h1 = nfi h /\ status h1 = status h /\
    (st = 0 -> downloaded_in (nfi h) (log h1) b).
Proof.
  intros st. unfold read_buffer, device_call. fold st.
  eexists. split; [reflexivity|].
  destruct (st =? CL_SUCCESS) eqn:E; simpl.
  - repeat split; try reflexivity. intros _.
    eexists. simpl. rewrite buffer_eqb_refl. reflexivity.
  - repeat split; try reflexivity. intros ->. discriminate.
Qed.

Lemma assign_read_done b n dst (h h1 : host F) :
  assign (read_buffer w b n dst) h = Done tt h1 ->
  nfi h1 = nfi h /\
  (status h1 = 0 -> downloaded_in (nfi h) (log h1) b).
Proof.
  unfold assign, bind, modify.
  destruct (read_effect b n dst h) as (h2 & -> & Hn & Hs & Hd).
  intros H. injection H as <-. simpl. split; [exact Hn|].
  intros E. apply Hd, E.
Qed.

Lemma or_assign_read_done b n dst (h h1 : host F) :
  or_assign (read_buffer w b n dst) h = Done tt h1 ->
  nfi h1 = nfi h /\
  (status h1 = 0 -> status h = 0 /\ downloaded_in (nfi h) (log h1) b).
Proof.
  unfold or_assign, bind, modify.
  destruct (read_effect b n dst h) as (h2 & -> & Hn & Hs & Hd).
  intros H. injection H as <-. simpl. split; [exact Hn|].
  rewrite Hs. intros E. apply lor_zero in E as [E1 E2]. auto.
Qed.

Lemma or_assign_status (m : M F Z) (h h1 : host F) :
  (forall h0, exists st h2, m h0 = Done st h2 /\ status h2 = status h0) ->
  or_assign m h = Done tt h1 -> status h1 = 0 -> status h = 0.
Proof.
  intros Hm. unfold or_assign, bind, modify.
  destruct (Hm h) as (st & h2 & -> & Hs).
  intros H. injection H as <-. simpl. rewrite Hs.
  intros E. apply lor_zero in E. tauto.
Qed.

(** The latest download of [b] stays one of step [k] while only events
    stamped [k] are added. *)
Lemma label_persists k b (h h' : host F) :
  nfi h = k -> during k (stamped k) h h' ->
  downloaded_in k (log h) b -> downloaded_in k (log h') b.
Proof.
  intros Hk Hd (d & Hl). destruct (Hd Hk) as (_ & evs & -> & Hf).
  unfold downloaded_in.
  induction Hf as [|e evs He _ IH]; simpl; [exists d; exact Hl|].
  destruct e; try exact IH. destruct He as [_ ->].
  destruct (buffer_eqb b b0); [eexists; reflexivity | exact IH].
Qed.

Lemma stamped_admits k : Admits cfg (during k (stamped (F:=F) k)).
Proof. apply during_admits; intros; split; auto; reflexivity. Qed.

Lemma stamped_download k : admits_download w cfg (during k (stamped (F:=F) k)).
Proof. apply during_admits_download. intros; split; reflexivity. Qed.

Lemma stamped_or_read k b dst n :
  In (b, dst, n) (staging cfg) ->
  steps (during k (stamped k)) (or_assign (read_buffer w b n dst)).
Proof.
  intros Hin. pose proof (stamped_admits k) as AD.
  apply steps_or_assign; [exact _|].
  apply (steps_read w cfg); [exact _ | exact _ | exact Hin |].
  apply stamped_download.
Qed.

Lemma download_positions_done (h h' : host F) :
  download_positions w cfg h = Done tt h' ->
  downloaded_in (nfi h) (log h') rx /\
  downloaded_in (nfi h) (log h') ry /\
  downloaded_in (nfi h) (log h') rz.
Proof.
  unfold download_positions. intros H.
  apply bind_done in H as ([] & h1 & H1 & H).
  apply bind_done in H as ([] & h2 & H2 & H).
  apply bind_done in H as ([] & h3 & H3 & H).
  apply check_done in H as [Hs ->].
  pose proof (steps_done _ _ _ _ _
    (stamped_or_read (nfi h) ry buffers_1 _ ltac:(simpl; tauto)) H2) as P2.
  pose proof (steps_done _ _ _ _ _
    (stamped_or_read (nfi h) rz buffers_2 _ ltac:(simpl; tauto)) H3) as P3.
  apply assign_read_done in H1 as [N1 L1].
  apply or_assign_read_done in H2 as [N2 L2].
  apply or_assign_read_done in H3 as [N3 L3].
  destruct (L3 Hs) as [S2 D3]. destruct (L2 S2) as [S1 D2].
  specialize (L1 S1).
  assert (E1 : nfi h1 = nfi h) by congruence.
  assert (E2 : nfi h2 = nfi h) by congruence.
  rewrite E2 in D3. rewrite E1 in D2.
  change (log (add_event (Check 6 (status h3)) h3))
    with (Check (F:=F) 6 (status h3) :: log h3).
  unfold downloaded_in at 1 2 3. simpl. fold (downloaded_in (nfi h) (log h3)).
  repeat split.
  - eapply label_persists; [| exact P3 |]; [congruence|].
    eapply label_persists; [| exact P2 |]; [congruence|]. exact L1.
  - eapply label_persists; [| exact P3 |]; [congruence|]. exact D2.
  - exact D3.
Qed.

Lemma download_epot_done (h h' : host F) :
  download_epot w cfg h = Done tt h' ->
  downloaded_in (nfi h) (log h') epot_buffer.
Proof.
  unfold download_epot. intros H.
  apply bind_done in H as ([] & h1 & H1 & H).
  apply check_done in H as [Hs ->].
  apply or_assign_read_done in H1 as [N1 L1].
  destruct (L1 Hs) as [_ D]. exact D.
Qed.

Lemma ekin_and_download_done (h h' : host F) :
  ekin_and_download w cfg h = Done tt h' ->
  downloaded_in (nfi h) (log h') ekin_buffer.
Proof.
  unfold ekin_and_download. intros H.
  pose proof (stamped_admits (nfi h)) as AD.
  apply bind_done in H as ([] & h1 & H1 & H).
  apply bind_done in H as ([] & h2 & H2 & H).
  apply bind_done in H as ([] & h3 & H3 & H).
  apply bind_done in H as ([] & h4 & H4 & H).
  apply check_done in H as [Hs ->].
  assert (P1 : during (nfi h) (stamped (nfi h)) h h1).
  { eapply steps_done; [|exact H1]. apply steps_or_assign; try exact _.
    apply steps_set_args; try exact _. apply (@admits_args _ cfg _ AD). }
  assert (P2 : during (nfi h) (stamped (nfi h)) h1 h2).
  { eapply steps_done; [|exact H2]. apply steps_check; try exact _.
    apply (@admits_check _ cfg _ AD). }
  assert (P3 : during (nfi h) (stamped (nfi h)) h2 h3).
  { eapply steps_done; [|exact H3]. apply steps_assign; try exact _.
    apply steps_enqueue; try exact _.
    apply (@admits_enqueue _ cfg _ AD). discriminate. }
  destruct (P1 eq_refl) as [N1 _]. destruct (P2 N1) as [N2 _].
  destruct (P3 N2) as [N3 _].
  apply or_assign_read_done in H4 as [N4 L4].
  destruct (L4 Hs) as [_ D]. rewrite N3 in D. exact D.
Qed.

(** *** The conditionals *)

Lemma before_boundary_taken body (h : host F) :
  nprint cfg <> 0 -> Z.rem (nfi h) (nprint cfg) = nprint cfg - 1 ->
  before_boundary cfg body h = body h.
Proof.
  intros Hn Hr. unfold before_boundary, bind, nfi_mod.
  apply Z.eqb_neq in Hn. rewrite Hn, Hr, Z.eqb_refl. reflexivity.
Qed.

Lemma before_boundary_skipped body (h : host F) :
  Z.rem (nfi h) (nprint cfg) <> nprint cfg - 1 ->
  final (before_boundary cfg body h) = h.
Proof.
  intros Hr. unfold before_boundary, bind, nfi_mod.
  destruct (nprint cfg =? 0); [reflexivity|].
  apply Z.eqb_neq in Hr. rewrite Hr. reflexivity.
Qed.

Lemma at_boundary_taken body (h : host F) :
  nprint cfg <> 0 -> Z.rem (nfi h) (nprint cfg) = 0 ->
  at_boundary cfg body h = body h.
Proof.
  intros Hn Hr. unfold at_boundary, bind, nfi_mod.
  apply Z.eqb_neq in Hn. rewrite Hn, Hr. reflexivity.
Qed.

Lemma at_boundary_skipped body (h : host F) :
  Z.rem (nfi h) (nprint cfg) <> 0 ->
  final (at_boundary cfg body h) = h.
Proof.
  intros Hr. unfold at_boundary, bind, nfi_mod.
  destruct (nprint cfg =? 0); [reflexivity|].
  apply Z.eqb_neq in Hr. rewrite Hr. reflexivity.
Qed.

(** *** [propagate] *)

Lemma propagate_stamped k : steps (during k (stamped k)) (propagate w cfg).
Proof.
  pose proof (stamped_admits k) as AD.
  apply steps_propagate; [exact _ | exact _ | apply stamped_download].
Qed.

(** In a step that is not the one before a boundary, [propagate]
    downloads nothing. *)
Lemma propagate_quiet k :
  Z.rem k (nprint cfg) <> nprint cfg - 1 ->
  steps (during k no_transfer) (propagate w cfg).
Proof.
  intros Hr.
  assert (AD : Admits cfg (during k (no_transfer (F:=F))))
    by (apply during_admits; intros; split; reflexivity).
  assert (Skip : forall body, steps (during k no_transfer)
                                (before_boundary cfg body)).
  { intros body h Hk. rewrite before_boundary_skipped by (rewrite Hk; exact Hr).
    split; [exact Hk | apply extends_refl]. }
  unfold propagate.
  apply steps_bind; try exact _; [apply steps_verlet_first; exact _ | intro].
  apply steps_bind; try exact _; [apply Skip | intro].
  apply steps_bind; try exact _; [apply steps_force; exact _ | intro].
  apply steps_bind; try exact _; [apply Skip | intro].
  apply steps_bind; try exact _; [apply steps_verlet_second; exact _ | intro].
  apply Skip.
Qed.

(** In the step before a boundary, a [propagate] that finishes has
    downloaded all five buffers. *)
Lemma propagate_downloads (h h' : host F) :
  nprint cfg <> 0 -> Z.rem (nfi h) (nprint cfg) = nprint cfg - 1 ->
  propagate w cfg h = Done tt h' ->
  forall b sl n, In (b, sl, n) (staging cfg) ->
                 downloaded_in (nfi h) (log h') b.
Proof.
  intros Hn Hr H. set (k := nfi h) in *.
  pose proof (stamped_admits k) as AD.
  pose proof (stamped_download k) as DD.
  unfold propagate in H.
  apply bind_done in H as ([] & h1 & H1 & H).
  apply bind_done in H as ([] & h2 & H2 & H).
  apply bind_done in H as ([] & h3 & H3 & H).
  apply bind_done in H as ([] & h4 & H4 & H).
  apply bind_done in H as ([] & h5 & H5 & H).
  assert (P1 : during k (stamped k) h h1)
    by (eapply steps_done; [apply steps_verlet_first; exact _ | exact H1]).
  destruct (P1 eq_refl) as [N1 _].
  assert (P2 : during k (stamped k) h1 h2).
  { eapply steps_done; [|exact H2]. apply steps_before_boundary; try exact _.
    apply steps_download_positions; try exact _. exact DD. }
  destruct (P2 N1) as [N2 _].
  assert (P3 : during k (stamped k) h2 h3)
    by (eapply steps_done; [apply steps_force; exact _ | exact H3]).
  destruct (P3 N2) as [N3 _].
  assert (P4 : during k (stamped k) h3 h4).
  { eapply steps_done; [|exact H4]. apply steps_before_boundary; try exact _.
    apply steps_download_epot; try exact _. exact DD. }
  destruct (P4 N3) as [N4 _].
  assert (P5 : during k (stamped k) h4 h5)
    by (eapply steps_done; [apply steps_verlet_second; exact _ | exact H5]).
  destruct (P5 N4) as [N5 _].
  assert (P6 : during k (stamped k) h5 h').
  { eapply steps_done; [|exact H]. apply steps_before_boundary; try exact _.
    apply steps_ekin_and_download; try exact _. exact DD. }
  rewrite before_boundary_taken in H2 by (rewrite ?N1; assumption).
  rewrite before_boundary_taken in H4 by (rewrite ?N3; assumption).
  rewrite before_boundary_taken in H by (rewrite ?N5; assumption).
  apply download_positions_done in H2. rewrite N1 in H2.
  destruct H2 as (Dx & Dy & Dz).
  apply download_epot_done in H4. rewrite N3 in H4.
  apply ekin_and_download_done in H. rewrite N5 in H.
  assert (From2 : forall b, downloaded_in k (log h2) b ->
                            downloaded_in k (log h') b).
  { intros b D2.
    eapply label_persists; [exact N5 | exact P6 |].
    eapply label_persists; [exact N4 | exact P5 |].
    eapply label_persists; [exact N3 | exact P4 |].
    eapply label_persists; [exact N2 | exact P3 |]. exact D2. }
  assert (D4 : downloaded_in k (log h') epot_buffer).
  { eapply label_persists; [exact N5 | exact P6 |].
    eapply label_persists; [exact N4 | exact P5 |]. exact H4. }
  intros b sl n Hin. simpl in Hin.
  repeat (destruct Hin as [Hin|Hin]; [inversion Hin; subst; clear Hin|]);
    try contradiction; auto.
Qed.

End Iteration.

(** ** Which downloads a frame shows *)

Section Cadence.

Context {F : Type} {fp : FPTYPE F}.
Variable w : world F.
Variable cfg : config F.

Lemma stamped_not_output k (e : event F) : stamped k e -> not_output e.
Proof. intros [H _]. exact H. Qed.

Lemma no_transfer_quiet b (e : event F) :
  no_transfer e -> downloads b e = false.
Proof. intros [_ H]. destruct e; simpl in *; congruence. Qed.

(** Adding events that are not frames keeps the frames as they were. *)
Lemma stale_extended (evs l : list (event F)) :
  Forall not_output evs ->
  one_step_stale w cfg l -> one_step_stale w cfg (evs ++ l).
Proof.
  intros Hf Hl. induction Hf as [|e evs He _ IH]; [exact Hl|].
  intros later o earlier E Ho. destruct later as [|e' later]; simpl in E.
  - injection E as -> _. discriminate He.
  - injection E as _ E. eapply IH; eauto.
Qed.

Lemma stale_frame o (l : list (event F)) :
  one_step_stale w cfg l ->
  (1 <= o_nfi o -> staged_during w cfg (o_nfi o - 1) l o) ->
  one_step_stale w cfg (Output o :: l).
Proof.
  intros Hl Ho later o' earlier E Hpos.
  destruct later as [|e' later]; simpl in E.
  - injection E as <- <-. auto.
  - injection E as _ E. eapply Hl; eauto.
Qed.

Lemma same_extended (evs l : list (event F)) :
  Forall not_output evs ->
  same_step w cfg l -> same_step w cfg (evs ++ l).
Proof.
  intros Hf Hl. induction Hf as [|e evs He _ IH]; [exact Hl|].
  intros later o earlier E Ho. destruct later as [|e' later]; simpl in E.
  - injection E as -> _. discriminate He.
  - injection E as _ E. eapply IH; eauto.
Qed.

Lemma same_frame o (l : list (event F)) :
  same_step w cfg l ->
  (1 <= o_nfi o -> staged_during w cfg (o_nfi o) l o) ->
  same_step w cfg (Output o :: l).
Proof.
  intros Hl Ho later o' earlier E Hpos.
  destruct later as [|e' later]; simpl in E.
  - injection E as <- <-. auto.
  - injection E as _ E. eapply Hl; eauto.
Qed.

(** When all five latest downloads are of step [s] and the host arrays
    are in step with the log, the frame [write_output] prints shows
    those downloads. *)
Lemma frame_is_staged s (h : host F) :
  1 <= s ->
  synced w cfg h ->
  (forall b sl n, In (b, sl, n) (staging cfg) -> downloaded_in s (log h) b) ->
  staged_during w cfg s (log h)
    (frame_from w cfg (nfi h)
       (mem h buffers_0) (mem h buffers_1) (mem h buffers_2)
       (mem h tmp_epot) (mem h tmp_ekin)).
Proof.
  intros Hs Hsync Hd.
  destruct (Hd rx buffers_0 _ ltac:(simpl; tauto)) as (x & Hx).
  destruct (Hd ry buffers_1 _ ltac:(simpl; tauto)) as (y & Hy).
  destruct (Hd rz buffers_2 _ ltac:(simpl; tauto)) as (z & Hz).
  destruct (Hd epot_buffer tmp_epot _ ltac:(simpl; tauto)) as (pe & Hpe).
  destruct (Hd ekin_buffer tmp_ekin _ ltac:(simpl; tauto)) as (ke & Hke).
  exists x, y, z, pe, ke. repeat (split; [assumption|]).
  simpl. apply frame_from_agree.
  - eapply Hsync; [| exact Hx | exact Hs]. simpl; tauto.
  - eapply Hsync; [| exact Hy | exact Hs]. simpl; tauto.
  - eapply Hsync; [| exact Hz | exact Hs]. simpl; tauto.
  - eapply Hsync; [| exact Hpe | exact Hs]. simpl; tauto.
  - eapply Hsync; [| exact Hke | exact Hs]. simpl; tauto.
Qed.

Lemma rem_before_boundary k n :
  1 <= k -> 2 <= n -> Z.rem k n = 0 ->
  2 <= k /\ Z.rem (k - 1) n = n - 1.
Proof.
  intros Hk Hn Hr.
  rewrite Z.rem_mod_nonneg in Hr by lia.
  assert (Hq : k = n * (k / n)) by (pose proof (Z.div_mod k n); lia).
  assert (1 <= k / n) by nia.
  split; [nia|].
  rewrite Z.rem_mod_nonneg by lia.
  symmetry. apply (Z.mod_unique_pos _ _ (k / n - 1)); nia.
Qed.

Lemma synced_keeps (m : M F unit) (h : host F) :
  steps (keeps_synced w cfg) m -> synced w cfg h -> synced w cfg (final (m h)).
Proof. intros H. apply H. Qed.

Lemma propagate_synced : steps (keeps_synced w cfg) (propagate w cfg).
Proof.
  apply steps_propagate; try exact _. apply synced_admits_download.
Qed.

Hypothesis interval : 2 <= nprint cfg.

Lemma md_step_between k (h : host F) :
  1 <= k -> between w cfg k h ->
  match md_step w cfg h with
  | Done _ h' => between w cfg (k + 1) (set_nfi (nfi h' + 1) h')
  | Halted _ h' => one_step_stale w cfg (log h')
  end.
Proof.
  intros Hk (Hn & Hstale & Hsync & Hlast).
  unfold md_step, bind.
  pose proof (propagate_stamped w cfg k h) as Hp.
  pose proof (synced_keeps _ h propagate_synced Hsync) as Hsp.
  destruct (propagate w cfg h) as [[] hp|e hp] eqn:Ep; simpl in Hp, Hsp.
  2:{ destruct (Hp Hn) as (_ & evs & -> & Hf).
      apply stale_extended; [|exact Hstale].
      eapply Forall_impl; [|exact Hf]. apply stamped_not_output. }
  destruct (Hp Hn) as (Hnp & evs & Hlog & Hf).
  assert (Hstp : one_step_stale w cfg (log hp)).
  { rewrite Hlog. apply stale_extended; [|exact Hstale].
    eapply Forall_impl; [|exact Hf]. apply stamped_not_output. }
  destruct (Z.eq_dec (Z.rem k (nprint cfg)) 0) as [Hr|Hr].
  - (* a boundary: the frame is printed *)
    rewrite at_boundary_taken by (rewrite ?Hnp; first [lia | assumption]).
    destruct (erg w cfg && traj w cfg)%bool eqn:Ef.
    2:{ destruct (write_output_stuck w cfg hp Ef) as (h' & -> & Hl' & _).
        simpl. rewrite Hl'. exact Hstp. }
    destruct (write_output_frame w cfg hp Ef)
      as (h' & -> & Hl' & Hn' & Hm' & _).
    destruct (rem_before_boundary k _ Hk interval Hr) as [Hk2 Hrb].
    assert (Hq : during k no_transfer h hp).
    { eapply steps_done; [|exact Ep]. apply propagate_quiet. lia. }
    destruct (Hq Hn) as (_ & evs' & Hlog' & Hf').
    assert (Hd : forall b sl n, In (b, sl, n) (staging cfg) ->
                                downloaded_in (k - 1) (log hp) b).
    { intros b sl n Hin. destruct (Hlast Hk2 Hrb b sl n Hin) as (d & Hd).
      exists d. rewrite Hlog', last_download_app; [exact Hd|].
      eapply Forall_impl; [|exact Hf']. apply no_transfer_quiet. }
    repeat split.
    + simpl. lia.
    + simpl. rewrite Hl'. apply stale_frame; [exact Hstp|].
      simpl. intros _. rewrite Hnp.
      replace (frame_from w cfg k) with (frame_from w cfg (nfi hp))
        by (rewrite Hnp; reflexivity).
      pose proof (frame_is_staged (k - 1) hp ltac:(lia) Hsp Hd) as Hst.
      exact Hst.
    + intros b sl n s d Hin Hd' Hpos. simpl in Hd' |- *.
      rewrite Hl' in Hd'. simpl in Hd'. rewrite Hm'.
      eapply Hsp; eauto.
    + simpl. intros _ Hrk. replace (k + 1 - 1) with k in Hrk by lia. lia.
  - (* no boundary: nothing is printed *)
    pose proof (at_boundary_skipped cfg (write_output w cfg) hp) as Hskip.
    rewrite Hnp in Hskip. specialize (Hskip Hr).
    destruct (at_boundary cfg (write_output w cfg) hp) as [[] h'|e h'];
      simpl in Hskip; subst h'; [|exact Hstp].
    repeat split.
    + simpl. lia.
    + exact Hstp.
    + exact Hsp.
    + simpl. intros _ Hrk b sl n Hin.
      replace (k + 1 - 1) with k in * by lia.
      rewrite <- Hn.
      apply (propagate_downloads w cfg h hp) with (sl := sl) (n := n);
        [lia | rewrite Hn; exact Hrk | exact Ep | exact Hin].
Qed.

End Cadence.

(** ** The set-up *)

Section Setup.

Context {F : Type} {fp : FPTYPE F}.
Variable w : world F.
Variable cfg : config F.
Variable R : host F -> host F -> Prop.
Context {SR : Stable R} {AS : AdmitsSetup cfg R}.
Hypothesis HD : admits_download w cfg R.
Hypothesis HO : admits_output R.

Ltac call_ok :=
  apply (@setup_call _ cfg R AS); intros ? ? E; inversion E; reflexivity.

Ltac walk :=
  repeat lazymatch goal with
    | |- forall _, steps _ _ => intro
    | |- steps _ (ret _) => apply steps_ret; try exact _
    | |- steps _ (assign _) => apply steps_assign; try exact _
    | |- steps _ (or_assign _) => apply steps_or_assign; try exact _
    | |- steps _ (set_args _ _) =>
        apply steps_set_args; first [exact _ | call_ok]
    | |- steps _ (create_kernel _ _) =>
        apply steps_create_kernel; first [exact _ | call_ok]
    | |- steps _ (create_buffer _ _ _) =>
        apply steps_create_buffer; first [exact _ | call_ok]
    | |- steps _ (write_buffer _ _ _ _ _) =>
        apply steps_write_buffer; first [exact _ | call_ok]
    | |- steps _ (enqueue _ _ _) =>
        apply steps_enqueue; first [exact _ | call_ok]
    | |- steps _ (read_buffer _ _ _ _) =>
        apply steps_read_buffer;
          first [ exact _ | call_ok | intro; apply HD; simpl; tauto ]
    | |- steps _ (device_call _ _ _) =>
        apply steps_plain_call; first [exact _ | call_ok]
    | |- steps _ (malloc _ _ _) =>
        apply steps_malloc; first [exact _ | apply (@setup_mem _ cfg R AS)]
    | |- steps _ (output _ _ _ _) =>
        apply steps_output; first [exact _ | exact HO]
    | |- steps _ (scale_ekin _) => apply steps_scale_ekin; try exact _
    | |- steps _ (set_temperature _) =>
        apply steps_set_temperature; try exact _
    | |- steps _ read_line =>
        apply steps_read_line;
          first [exact _ | intros; apply (@setup_stderr _ cfg R AS)]
    | |- steps _ (bind _ _) => apply steps_bind; try exact _
    end.

Lemma steps_allocate : steps R (allocate w cfg).
Proof. unfold allocate. walk. Qed.

Lemma steps_read_restart : steps R (read_restart w cfg).
Proof.
  intro h. unfold read_restart.
  destruct (fopen_r w (restfile cfg)) as [nums|].
  - revert h. change (steps R
      (bind (modify (fun h =>
           set_mem (mem_store buffers_0 (column w cfg nums 0)
                   (mem_store buffers_1 (column w cfg nums 1)
                   (mem_store buffers_2 (column w cfg nums 2) (mem h)))) h))
         (fun _ =>
          bind (assign (write_buffer w rx (Z.to_nat (natoms cfg)) buffers_0 0))
         (fun _ =>
          bind (or_assign (write_buffer w ry (Z.to_nat (natoms cfg)) buffers_1 0))
         (fun _ =>
          bind (or_assign (write_buffer w rz (Z.to_nat (natoms cfg)) buffers_2 0))
         (fun _ =>
          bind (or_assign (write_buffer w vx (Z.to_nat (natoms cfg)) buffers_0
                             (Z.to_nat (natoms cfg))))
         (fun _ =>
          bind (or_assign (write_buffer w vy (Z.to_nat (natoms cfg)) buffers_1
                             (Z.to_nat (natoms cfg))))
         (fun _ =>
          or_assign (write_buffer w vz (Z.to_nat (natoms cfg)) buffers_2
                       (Z.to_nat (natoms cfg))))))))))).
    apply steps_bind; try exact _.
    + apply steps_modify. intro. apply (@setup_mem _ cfg R AS).
    + walk.
  - simpl. apply (@setup_stderr _ cfg R AS).
Qed.

Lemma steps_initial_forces : steps R (initial_forces w cfg).
Proof.
  unfold initial_forces.
  apply steps_bind; try exact _;
    [apply steps_modify; apply (@setup_nfi _ cfg R AS) | intro].
  do 9 (apply steps_bind; try exact _; [walk | intro]).
  apply steps_bind; try exact _;
    [apply steps_modify; intro; apply stable_epot | intro].
  apply steps_bind; try exact _;
    [apply steps_modify; intro; apply stable_ekin | intro].
  do 5 (apply steps_bind; try exact _; [walk | intro]).
  apply steps_for_each; try exact _. intros; apply stable_epot.
Qed.

Lemma steps_initial_ekin : steps R (initial_ekin w cfg).
Proof.
  unfold initial_ekin.
  do 5 (apply steps_bind; try exact _; [walk | intro]).
  apply steps_bind; try exact _;
    [apply steps_for_each; try exact _; intros; apply stable_ekin | intro].
  walk.
Qed.

Lemma steps_first_frame : steps R (first_frame w cfg).
Proof. unfold first_frame. walk. Qed.

Lemma steps_setup : steps R (setup w cfg).
Proof.
  unfold setup.
  apply steps_bind; try exact _; [apply steps_allocate | intro].
  apply steps_bind; try exact _; [apply steps_read_restart | intro].
  apply steps_bind; try exact _; [apply steps_initial_forces | intro].
  apply steps_bind; try exact _; [apply steps_initial_ekin | intro].
  apply steps_first_frame.
Qed.

End Setup.

Section Preamble.

Context {F : Type} {fp : FPTYPE F}.
Variable w : world F.
Variable R : host F -> host F -> Prop.
Context {SR : Stable R}.
Hypothesis HE : forall msg h, R h (add_event (Stderr msg) h).

Lemma steps_command_line argv : steps R (command_line argv).
Proof.
  assert (U : forall A, steps R (@PrintUsageAndExit F A)).
  { intro A. unfold PrintUsageAndExit. apply steps_bind; try exact _.
    - apply steps_emit. apply HE.
    - intro. apply steps_stop; exact _. }
  unfold command_line.
  destruct argv as [|a0 [|a1 [|a2 [|a3 rest]]]]; try apply U.
  - apply steps_ret; exact _.
  - destruct (to_int (strtol a2) <? 0); [|apply steps_ret; exact _].
    apply steps_bind; try exact _; [|intro; apply U].
    apply steps_emit. apply HE.
Qed.

Lemma steps_init_opencl device : steps R (init_opencl w device).
Proof.
  unfold init_opencl.
  destruct (InitOpenCLEnvironment w device =? CL_SUCCESS).
  - apply steps_ret; exact _.
  - apply steps_bind; try exact _.
    + apply steps_emit. apply HE.
    + intro. apply steps_stop; exact _.
Qed.

Lemma steps_read_input n : steps R (read_input n).
Proof.
  assert (L : steps R read_line)
    by (apply (steps_read_line R); intros; apply HE).
  unfold read_input.
  repeat (apply (steps_bind R); [exact L | intro]).
  apply (steps_ret R).
Qed.

Lemma steps_preamble argv : steps R (preamble w argv).
Proof.
  unfold preamble.
  apply (steps_bind R); [apply steps_command_line | intro n].
  apply (steps_bind R); [apply steps_init_opencl | intro].
  apply steps_read_input.
Qed.

End Preamble.

Section Runs.

Context {F : Type} {fp : FPTYPE F}.
Variable w : world F.
Variable cfg : config F.

#[local] Instance initial_setup : AdmitsSetup cfg (during 0 (initial (F:=F))).
Proof.
  constructor; intros.
  - apply during_event. intros _. exact I.
  - apply during_same; reflexivity.
  - apply during_event. intros _. exact I.
  - intros _. split; [reflexivity | apply extends_same; reflexivity].
Qed.

Lemma initial_download : admits_download w cfg (during 0 (initial (F:=F))).
Proof. apply during_admits_download. intros. reflexivity. Qed.

Lemma initial_output : admits_output (during 0 (initial (F:=F))).
Proof.
  intros h o Ho. apply during_event. intros Hk. simpl. congruence.
Qed.

Lemma initial_stale (l : list (event F)) :
  Forall initial l -> one_step_stale w cfg l.
Proof.
  intros Hf later o earlier E Ho. subst l.
  apply Forall_app in Hf as [_ Hf]. inversion Hf as [|? ? Hi _]; subst.
  simpl in Hi. lia.
Qed.

Lemma initial_same (l : list (event F)) :
  Forall initial l -> same_step w cfg l.
Proof.
  intros Hf later o earlier E Ho. subst l.
  apply Forall_app in Hf as [_ Hf]. inversion Hf as [|? ? Hi _]; subst.
  simpl in Hi. lia.
Qed.

Lemma initial_last_download b (l : list (event F)) s d :
  Forall initial l -> last_download b l = Some (s, d) -> s = 0.
Proof.
  induction 1 as [|e l He _ IH]; simpl; [discriminate|].
  destruct e; auto. destruct (buffer_eqb b b0); auto.
  intros E. injection E as <- _. exact He.
Qed.

Lemma initial_synced (h : host F) : Forall initial (log h) -> synced w cfg h.
Proof.
  intros Hf b sl n s d _ Hd Hpos.
  apply (initial_last_download _ _ _ _ Hf) in Hd. lia.
Qed.

Lemma main_body_preamble argv h :
  main_body w argv h = bind (preamble w argv) (simulate w) h.
Proof.
  unfold main_body, preamble, bind.
  destruct (command_line argv h) as [n h1|]; [|reflexivity].
  destruct (init_opencl w (nth 1 argv EmptyString) h1) as [[] h2|];
    [|reflexivity].
  destruct (read_input n h2); reflexivity.
Qed.

Lemma configuration_preamble argv c :
  configuration w argv = Some c ->
  exists h, preamble w argv (host0 w) = Done c h.
Proof.
  unfold configuration.
  destruct (preamble w argv (host0 w)) as [c' h|]; [|discriminate].
  intros E. injection E as ->. eauto.
Qed.

Lemma main_log argv :
  snd (main w argv) = log (final (main_body w argv (host0 w))).
Proof.
  unfold main. destruct (main_body w argv (host0 w)); reflexivity.
Qed.

Lemma main_exit argv :
  fst (main w argv) =
  match main_body w argv (host0 w) with
  | Done _ _ => Exit 0
  | Halted e _ => e
  end.
Proof.
  unfold main. destruct (main_body w argv (host0 w)); reflexivity.
Qed.

(** Where a run stands when the loop is about to start: in step 0, with
    a log of set-up events only. *)
Lemma before_the_loop argv h2 :
  preamble w argv (host0 w) = Done cfg h2 ->
  let hs := final (setup w cfg h2) in
  nfi hs = 0 /\ Forall initial (log hs).
Proof.
  intros E hs.
  pose proof (steps_done _ _ _ _ _
                (steps_preamble w (during 0 initial)
                   (@setup_stderr _ cfg _ initial_setup) argv) E) as H1.
  destruct (H1 eq_refl) as (N2 & evs & L2 & F2).
  pose proof (steps_setup w cfg (during 0 initial) initial_download
                initial_output h2) as H2.
  destruct (H2 N2) as (Ns & evs' & Ls & Fs).
  split; [exact Ns|]. fold hs in Ls. rewrite Ls, L2. simpl.
  rewrite app_nil_r. apply Forall_app. split; assumption.
Qed.

Lemma simulate_final h :
  final (simulate w cfg h) =
  match setup w cfg h with
  | Done _ hs => final (md_loop w cfg (Z.to_nat (nsteps cfg)) (set_nfi 1 hs))
  | Halted _ hs => hs
  end.
Proof.
  unfold simulate. rewrite bind_final.
  destruct (setup w cfg h); reflexivity.
Qed.

End Runs.

Section Stale.

Context {F : Type} {fp : FPTYPE F}.
Variable w : world F.
Variable cfg : config F.
Hypothesis interval : 2 <= nprint cfg.

Lemma md_loop_stale n : forall k (h : host F),
  1 <= k -> between w cfg k h ->
  one_step_stale w cfg (log (final (md_loop w cfg n h))).
Proof.
  induction n as [|n IH]; intros k h Hk Hb.
  - simpl. apply Hb.
  - simpl. rewrite bind_final.
    pose proof (md_step_between w cfg interval k h Hk Hb) as Hs.
    destruct (md_step w cfg h) as [[] h'|e h']; [|exact Hs].
    rewrite bind_final. simpl. apply (IH (k + 1)); [lia | exact Hs].
Qed.

Lemma run_stale argv :
  configuration w argv = Some cfg ->
  one_step_stale w cfg (snd (main w argv)).
Proof.
  intros Hc. apply configuration_preamble in Hc as (h2 & E).
  rewrite main_log, main_body_preamble, bind_final, E, simulate_final.
  destruct (before_the_loop w cfg argv h2 E) as [Ns Fs].
  destruct (setup w cfg h2) as [[] hs|e hs]; simpl in Ns, Fs.
  - apply (md_loop_stale _ 1); [lia|]. repeat split.
    + simpl. apply initial_stale, Fs.
    + apply initial_synced. exact Fs.
    + lia.
  - apply initial_stale, Fs.
Qed.

End Stale.

(** ** The schedule of an iteration *)

Section Timeline.

Context {F : Type} {fp : FPTYPE F}.
Variable w : world F.
Variable cfg : config F.

Lemma schedule_app (a b : list (event F)) :
  schedule (a ++ b) = schedule a ++ schedule b.
Proof.
  induction a as [|e a IH]; simpl; [reflexivity|].
  destruct (item_of e); simpl; rewrite IH; reflexivity.
Qed.

Lemma kernels_in_app a b : kernels_in (a ++ b) = kernels_in a ++ kernels_in b.
Proof.
  induction a as [|i a IH]; simpl; [reflexivity|].
  destruct i; simpl; rewrite IH; reflexivity.
Qed.

Lemma kernels_of_schedule (l : list (event F)) :
  kernels_of l = kernels_in (schedule l).
Proof.
  induction l as [|e l IH]; simpl; [reflexivity|].
  destruct e as [| c ? ? | | |]; simpl; try exact IH.
  destruct c; simpl; try exact IH. rewrite IH. reflexivity.
Qed.

Lemma set_args_leaves k : leaves (set_args w k) (fun _ => []).
Proof.
  intro h. unfold set_args, device_call. do 2 eexists.
  split; [reflexivity|].
  destruct (cl_status w _ (nfi h) =? CL_SUCCESS); simpl; auto.
Qed.

Lemma enqueue_leaves k : leaves (enqueue w cfg k) (fun _ => [Dispatch k]).
Proof.
  intro h. unfold enqueue, device_call. do 2 eexists.
  split; [reflexivity|].
  destruct (cl_status w _ (nfi h) =? CL_SUCCESS); simpl; auto.
Qed.

Lemma read_leaves b n dst :
  leaves (read_buffer w b n dst)
    (fun st => if st =? CL_SUCCESS then [Transfer b] else []).
Proof.
  intro h. unfold read_buffer, device_call. do 2 eexists.
  split; [reflexivity|].
  destruct (cl_status w _ (nfi h) =? CL_SUCCESS); simpl; auto.
Qed.

Lemma assign_leaves m added (h : host F) :
  leaves m added ->
  exists st h1,
    assign m h = Done tt h1 /\ nfi h1 = nfi h /\ status h1 = st /\
    schedule (log h1) = added st ++ schedule (log h).
Proof.
  intros Hm. destruct (Hm h) as (st & h1 & E & Hn & Hs & Hl).
  exists st, (set_status st h1). unfold assign, bind, modify. rewrite E.
  repeat split; assumption.
Qed.

Lemma or_assign_leaves m added (h : host F) :
  leaves m added ->
  exists st h1,
    or_assign m h = Done tt h1 /\ nfi h1 = nfi h /\
    status h1 = Z.lor (status h) st /\
    schedule (log h1) = added st ++ schedule (log h).
Proof.
  intros Hm. destruct (Hm h) as (st & h1 & E & Hn & Hs & Hl).
  exists st, (set_status (Z.lor (status h1) st) h1).
  unfold or_assign, bind, modify. rewrite E.
  repeat split; try assumption. simpl. rewrite Hs. reflexivity.
Qed.

Lemma check_run l (h : host F) :
  CheckSuccess l h =
  if status h =? CL_SUCCESS then Done tt (add_event (Check l (status h)) h)
  else Halted (CheckFailed l (status h)) (add_event (Check l (status h)) h).
Proof. reflexivity. Qed.

Lemma lor_eqb a b :
  (Z.lor a b =? 0) = ((a =? 0) && (b =? 0))%bool.
Proof.
  destruct (Z.lor a b =? 0) eqn:E.
  - apply Z.eqb_eq, Z.lor_eq_0_iff in E as [-> ->]. reflexivity.
  - symmetry. apply andb_false_iff.
    destruct (a =? 0) eqn:Ea; [|auto]. destruct (b =? 0) eqn:Eb; [|auto].
    apply Z.eqb_eq in Ea, Eb. subst. discriminate.
Qed.

(** The three kicks have one shape: arguments, checkpoint, dispatch. *)
Lemma kick_schedule k l (h : host F) :
  match bind (or_assign (set_args w k))
          (fun _ => bind (CheckSuccess l)
                      (fun _ => assign (enqueue w cfg k))) h with
  | Done _ h' =>
      nfi h' = nfi h /\ schedule (log h') = Dispatch k :: schedule (log h)
  | Halted _ h' =>
      nfi h' = nfi h /\ schedule (log h') = schedule (log h)
  end.
Proof.
  unfold bind at 1.
  destruct (or_assign_leaves _ _ h (set_args_leaves k))
    as (st & h1 & -> & N1 & S1 & L1).
  unfold bind at 1. rewrite check_run.
  destruct (status h1 =? CL_SUCCESS).
  - destruct (assign_leaves _ _ (add_event (Check l (status h1)) h1)
                (enqueue_leaves k)) as (st2 & h2 & -> & N2 & S2 & L2).
    simpl in N2, L2. split; [congruence|]. rewrite L2, L1. reflexivity.
  - simpl. split; [exact N1 | exact L1].
Qed.

Lemma download_positions_schedule (h : host F) :
  match download_positions w cfg h with
  | Done _ h' =>
      nfi h' = nfi h /\
      schedule (log h') =
        [Transfer rz; Transfer ry; Transfer rx] ++ schedule (log h)
  | Halted _ h' =>
      nfi h' = nfi h /\
      kernels_in (schedule (log h')) = kernels_in (schedule (log h))
  end.
Proof.
  unfold download_positions. unfold bind at 1.
  destruct (assign_leaves _ _ h (read_leaves rx (Z.to_nat (natoms cfg)) buffers_0))
    as (s1 & h1 & -> & N1 & S1 & L1).
  unfold bind at 1.
  destruct (or_assign_leaves _ _ h1 (read_leaves ry (Z.to_nat (natoms cfg)) buffers_1))
    as (s2 & h2 & -> & N2 & S2 & L2).
  unfold bind at 1.
  destruct (or_assign_leaves _ _ h2 (read_leaves rz (Z.to_nat (natoms cfg)) buffers_2))
    as (s3 & h3 & -> & N3 & S3 & L3).
  rewrite check_run. rewrite S3, S2, S1. unfold CL_SUCCESS in *.
  rewrite !lor_eqb.
  destruct (s1 =? 0), (s2 =? 0), (s3 =? 0); simpl;
    (split; [congruence|]); rewrite L3, L2, L1; reflexivity.
Qed.

Lemma download_epot_schedule (h : host F) :
  match download_epot w cfg h with
  | Done _ h' =>
      nfi h' = nfi h /\
      schedule (log h') = [Transfer epot_buffer] ++ schedule (log h)
  | Halted _ h' =>
      nfi h' = nfi h /\
      kernels_in (schedule (log h')) = kernels_in (schedule (log h))
  end.
Proof.
  unfold download_epot. unfold bind at 1.
  destruct (or_assign_leaves _ _ h
              (read_leaves epot_buffer (Z.to_nat (nthreads cfg)) tmp_epot))
    as (s1 & h1 & -> & N1 & S1 & L1).
  rewrite check_run. rewrite S1. unfold CL_SUCCESS in *. rewrite lor_eqb.
  destruct (status h =? 0), (s1 =? 0); simpl;
    (split; [congruence|]); rewrite L1; reflexivity.
Qed.

Lemma ekin_and_download_schedule (h : host F) :
  match ekin_and_download w cfg h with
  | Done _ h' =>
      nfi h' = nfi h /\
      schedule (log h') =
        [Transfer ekin_buffer; Dispatch opencl_ekin] ++ schedule (log h)
  | Halted _ h' =>
      nfi h' = nfi h /\
      (kernels_in (schedule (log h')) = kernels_in (schedule (log h)) \/
       kernels_in (schedule (log h')) =
         opencl_ekin :: kernels_in (schedule (log h)))
  end.
Proof.
  unfold ekin_and_download. unfold bind at 1.
  destruct (or_assign_leaves _ _ h (set_args_leaves opencl_ekin))
    as (s1 & h1 & -> & N1 & S1 & L1).
  unfold bind at 1. rewrite check_run.
  destruct (status h1 =? CL_SUCCESS).
  2:{ simpl. split; [exact N1|]. left. rewrite L1. reflexivity. }
  unfold bind at 1.
  destruct (assign_leaves _ _ (add_event (Check 5 (status h1)) h1)
              (enqueue_leaves opencl_ekin)) as (s2 & h2 & -> & N2 & S2 & L2).
  simpl in N2, L2. unfold bind at 1.
  destruct (or_assign_leaves _ _ h2
              (read_leaves ekin_buffer (Z.to_nat (nthreads cfg)) tmp_ekin))
    as (s3 & h3 & -> & N3 & S3 & L3).
  rewrite check_run. rewrite S3. unfold CL_SUCCESS in *. rewrite lor_eqb.
  destruct (status h2 =? 0), (s3 =? 0); simpl;
    (split; [congruence|]); rewrite L3, L2, L1; simpl; auto.
Qed.

Lemma before_boundary_run body (h : host F) :
  before_boundary cfg body h =
  if nprint cfg =? 0 then Halted Undefined h
  else if Z.rem (nfi h) (nprint cfg) =? nprint cfg - 1 then body h
       else Done tt h.
Proof.
  unfold before_boundary, bind, nfi_mod.
  destruct (nprint cfg =? 0); [reflexivity|].
  destruct (Z.rem (nfi h) (nprint cfg) =? nprint cfg - 1); reflexivity.
Qed.

Lemma at_boundary_run body (h : host F) :
  at_boundary cfg body h =
  if nprint cfg =? 0 then Halted Undefined h
  else if Z.rem (nfi h) (nprint cfg) =? 0 then body h else Done tt h.
Proof.
  unfold at_boundary, bind, nfi_mod.
  destruct (nprint cfg =? 0); [reflexivity|].
  destruct (Z.rem (nfi h) (nprint cfg) =? 0); reflexivity.
Qed.

Lemma propagate_schedule (h : host F) :
  let rb := Z.rem (nfi h) (nprint cfg) =? nprint cfg - 1 in
  match propagate w cfg h with
  | Done _ h' =>
      nfi h' = nfi h /\
      schedule (log h') =
        (if rb then [Transfer ekin_buffer; Dispatch opencl_ekin] else []) ++
        [Dispatch opencl_verlet_second] ++
        (if rb then [Transfer epot_buffer] else []) ++
        [Dispatch opencl_force] ++
        (if rb then [Transfer rz; Transfer ry; Transfer rx] else []) ++
        [Dispatch opencl_verlet_first] ++ schedule (log h)
  | Halted _ h' =>
      exists ks, partial_kicks ks /\
        kernels_in (schedule (log h')) = ks ++ kernels_in (schedule (log h))
  end.
Proof.
  intros rb. unfold propagate. unfold partial_kicks.
  unfold bind at 1. pose proof (kick_schedule opencl_verlet_first 2 h) as K1.
  fold (verlet_first w cfg) in K1.
  destruct (verlet_first w cfg h) as [[] h1|e h1]; destruct K1 as [N1 L1].
  2:{ exists []. rewrite L1. auto. }
  unfold bind at 1. rewrite before_boundary_run.
  destruct (nprint cfg =? 0) eqn:En.
  { exists [opencl_verlet_first]. rewrite L1. simpl. auto. }
  rewrite N1. fold rb.
  assert (P2 : (exists h2,
    (if rb then download_positions w cfg h1 else Done tt h1) = Done tt h2 /\
    nfi h2 = nfi h /\
    schedule (log h2) =
      (if rb then [Transfer rz; Transfer ry; Transfer rx] else []) ++
      [Dispatch opencl_verlet_first] ++ schedule (log h))
    \/ (exists e h2,
    (if rb then download_positions w cfg h1 else Done tt h1) = Halted e h2 /\
    kernels_in (schedule (log h2)) =
      [opencl_verlet_first] ++ kernels_in (schedule (log h)))).
  { destruct rb.
    - pose proof (download_positions_schedule h1) as D.
      destruct (download_positions w cfg h1) as [[] h2|e h2];
        destruct D as [N2 L2].
      + left. exists h2. repeat split; [congruence|]. rewrite L2, L1.
        reflexivity.
      + right. exists e, h2. split; [reflexivity|]. rewrite L2, L1.
        reflexivity.
    - left. exists h1. repeat split; [exact N1 | rewrite L1; reflexivity]. }
  destruct P2 as [(h2 & -> & N2 & L2)|(e & h2 & -> & L2)].
  2:{ exists [opencl_verlet_first]. rewrite L2. auto. }
  unfold bind at 1. pose proof (kick_schedule opencl_force 3 h2) as K3.
  fold (force w cfg) in K3.
  destruct (force w cfg h2) as [[] h3|e h3]; destruct K3 as [N3 L3].
  2:{ exists [opencl_verlet_first]. rewrite L3, L2, !kernels_in_app.
      destruct rb; simpl; auto. }
  unfold bind at 1. rewrite before_boundary_run, En, N3, N2. fold rb.
  assert (P4 : (exists h4,
    (if rb then download_epot w cfg h3 else Done tt h3) = Done tt h4 /\
    nfi h4 = nfi h /\
    schedule (log h4) =
      (if rb then [Transfer epot_buffer] else []) ++ schedule (log h3))
    \/ (exists e h4,
    (if rb then download_epot w cfg h3 else Done tt h3) = Halted e h4 /\
    kernels_in (schedule (log h4)) = kernels_in (schedule (log h3)))).
  { destruct rb.
    - pose proof (download_epot_schedule h3) as D.
      destruct (download_epot w cfg h3) as [[] h4|e h4];
        destruct D as [N4 L4].
      + left. exists h4. repeat split; [congruence | exact L4].
      + right. exists e, h4. split; [reflexivity | exact L4].
    - left. exists h3. repeat split; congruence. }
  destruct P4 as [(h4 & -> & N4 & L4)|(e & h4 & -> & L4)].
  2:{ exists [opencl_force; opencl_verlet_first].
      rewrite L4, L3, L2. simpl. rewrite !kernels_in_app.
      destruct rb; simpl; auto 6. }
  unfold bind at 1. pose proof (kick_schedule opencl_verlet_second 4 h4) as K5.
  fold (verlet_second w cfg) in K5.
  destruct (verlet_second w cfg h4) as [[] h5|e h5]; destruct K5 as [N5 L5].
  2:{ exists [opencl_force; opencl_verlet_first].
      rewrite L5, L4, L3, L2. rewrite !kernels_in_app. simpl.
      rewrite !kernels_in_app. destruct rb; simpl; auto 6. }
  rewrite before_boundary_run, En, N5, N4. fold rb.
  destruct rb.
  - pose proof (ekin_and_download_schedule h5) as D.
    destruct (ekin_and_download w cfg h5) as [[] h6|e h6];
      destruct D as [N6 L6].
    + split; [congruence|]. rewrite L6, L5, L4, L3, L2. reflexivity.
    + destruct L6 as [L6|L6]; rewrite L6, L5, L4, L3, L2; simpl.
      * exists [opencl_verlet_second; opencl_force; opencl_verlet_first].
        auto 6.
      * exists [opencl_ekin; opencl_verlet_second; opencl_force;
                opencl_verlet_first]. auto 6.
  - split; [congruence|]. rewrite L5, L4, L3, L2. reflexivity.
Qed.

Lemma partial_kicks_begin ks :
  partial_kicks ks ->
  begins (rev ks)
    [opencl_verlet_first; opencl_force; opencl_verlet_second; opencl_ekin].
Proof.
  unfold partial_kicks, begins.
  intros [->|[->|[->|[->| ->]]]]; simpl; eexists; reflexivity.
Qed.

(** What an iteration adds to the schedule: all of [iteration] when it
    runs to its end, and a beginning of the four dispatches when it
    halts. *)
Lemma md_step_schedule (h : host F) :
  match md_step w cfg h with
  | Done _ h' =>
      nfi h' = nfi h /\
      timeline (log h') = timeline (log h) ++ iteration cfg (nfi h)
  | Halted _ h' =>
      exists ks, partial_kicks ks /\
        kernels_in (schedule (log h')) = ks ++ kernels_in (schedule (log h))
  end.
Proof.
  unfold md_step. unfold bind at 1.
  pose proof (propagate_schedule h) as P. cbv zeta in P.
  destruct (propagate w cfg h) as [[] hp|e hp]; [|exact P].
  destruct P as [Np Lp]. rewrite at_boundary_run.
  assert (Stuck : exists ks, partial_kicks ks /\
            kernels_in (schedule (log hp))
            = ks ++ kernels_in (schedule (log h))).
  { rewrite Lp. unfold partial_kicks.
    destruct (Z.rem (nfi h) (nprint cfg) =? nprint cfg - 1); simpl.
    - exists [opencl_ekin; opencl_verlet_second; opencl_force;
              opencl_verlet_first]. auto 6.
    - exists [opencl_verlet_second; opencl_force; opencl_verlet_first].
      auto 6. }
  destruct (nprint cfg =? 0) eqn:En; [exact Stuck|].
  rewrite Np. unfold timeline, iteration.
  destruct (Z.rem (nfi h) (nprint cfg) =? 0).
  - destruct (erg w cfg && traj w cfg)%bool eqn:Ef.
    2:{ destruct (write_output_stuck w cfg hp Ef) as (h' & -> & Hl & _).
        rewrite Hl. exact Stuck. }
    destruct (write_output_frame w cfg hp Ef)
      as (h' & -> & Hl & Hn & _). split; [congruence|].
    rewrite Hl. simpl. rewrite Lp, Np.
    destruct (Z.rem (nfi h) (nprint cfg) =? nprint cfg - 1); simpl;
      rewrite <- ?app_assoc; reflexivity.
  - split; [exact Np|]. rewrite Lp.
    destruct (Z.rem (nfi h) (nprint cfg) =? nprint cfg - 1); simpl;
      rewrite <- ?app_assoc; reflexivity.
Qed.

(** *** On a device whose calls all succeed *)

Lemma sound_assign c eff (h : host F) :
  device_sound w ->
  assign (device_call w c eff) h =
  Done tt (set_status 0 (eff (add_event (DeviceCall c (nfi h) 0) h))).
Proof.
  intros Hs. unfold assign, bind, device_call, modify. cbv zeta.
  rewrite !(Hs c (nfi h)). reflexivity.
Qed.

Lemma sound_or_assign c eff (h : host F) :
  device_sound w ->
  or_assign (device_call w c eff) h =
  Done tt (set_status
             (Z.lor (status (eff (add_event (DeviceCall c (nfi h) 0) h))) 0)
             (eff (add_event (DeviceCall c (nfi h) 0) h))).
Proof.
  intros Hs. unfold or_assign, bind, device_call, modify. cbv zeta.
  rewrite !(Hs c (nfi h)). reflexivity.
Qed.










End Timeline.

(** ** Pieces of the set-up that always finish *)

Section Always.

Context {F : Type} {fp : FPTYPE F}.
Variable w : world F.
Variable cfg : config F.

Lemma quiet_bind {A B} k1 k2 ks (m : M F A) (k : A -> M F B) :
  always (quietly k1) m -> (forall a, always (quietly k2) (k a)) ->
  ks = k2 ++ k1 -> always (quietly ks) (bind m k).
Proof.
  intros Hm Hk -> h. destruct (Hm h) as (a & h1 & E1 & K1 & Q1).
  destruct (Hk a h1) as (b & h2 & E2 & K2 & Q2).
  exists b, h2. unfold bind. rewrite E1. split; [exact E2|]. split.
  - rewrite K2, K1. apply app_assoc.
  - congruence.
Qed.

Lemma quiet_then_zero {A B} k1 k2 ks (m : M F A) (k : A -> M F B) :
  always (quietly k1) m -> (forall a, always (zeroing k2) (k a)) ->
  ks = k2 ++ k1 -> always (zeroing ks) (bind m k).
Proof.
  intros Hm Hk -> h. destruct (Hm h) as (a & h1 & E1 & K1 & Q1).
  destruct (Hk a h1) as (b & h2 & E2 & K2 & Q2).
  exists b, h2. unfold bind. rewrite E1. split; [exact E2|]. split.
  - rewrite K2, K1. apply app_assoc.
  - exact Q2.
Qed.

Lemma zero_then_quiet {A B} k1 k2 ks (m : M F A) (k : A -> M F B) :
  always (zeroing k1) m -> (forall a, always (quietly k2) (k a)) ->
  ks = k2 ++ k1 -> always (zeroing ks) (bind m k).
Proof.
  intros Hm Hk -> h. destruct (Hm h) as (a & h1 & E1 & K1 & Q1).
  destruct (Hk a h1) as (b & h2 & E2 & K2 & Q2).
  exists b, h2. unfold bind. rewrite E1. split; [exact E2|]. split.
  - rewrite K2, K1. apply app_assoc.
  - congruence.
Qed.

Lemma quiet_modify (f : host F -> host F) :
  (forall h, log (f h) = log h) -> (forall h, ekin (f h) = ekin h) ->
  always (quietly []) (modify f).
Proof.
  intros Hl He h. exists tt, (f h). split; [reflexivity|]. split.
  - rewrite Hl. reflexivity.
  - apply He.
Qed.

Lemma quiet_device_call c (eff : host F -> host F) :
  (forall h, kernels_of (log (eff h)) = kernels_of (log h)) ->
  (forall h, ekin (eff h) = ekin h) ->
  always (quietly (kernel_of_call c)) (device_call w c eff).
Proof.
  intros Hl He h. unfold device_call. do 2 eexists.
  split; [reflexivity|].
  destruct (cl_status w c (nfi h) =? CL_SUCCESS); split;
    rewrite ?Hl, ?He; try reflexivity; destruct c; reflexivity.
Qed.

Lemma quiet_assign ks (m : M F Z) :
  always (quietly ks) m -> always (quietly ks) (assign m).
Proof.
  intros Hm. eapply quiet_bind; [exact Hm | | symmetry; apply app_nil_l].
  intro st. apply quiet_modify; reflexivity.
Qed.

Lemma quiet_or_assign ks (m : M F Z) :
  always (quietly ks) m -> always (quietly ks) (or_assign m).
Proof.
  intros Hm. eapply quiet_bind; [exact Hm | | symmetry; apply app_nil_l].
  intro st. apply quiet_modify; reflexivity.
Qed.

Lemma quiet_set_args k : always (quietly []) (set_args w k).
Proof. apply (quiet_device_call (clSetMultKernelArgs k)); reflexivity. Qed.

Lemma quiet_create_kernel k : always (quietly []) (create_kernel w k).
Proof. apply (quiet_device_call (clCreateKernel k)); reflexivity. Qed.

Lemma quiet_create_buffer b n : always (quietly []) (create_buffer w b n).
Proof. apply (quiet_device_call (clCreateBuffer b)); reflexivity. Qed.

Lemma quiet_write_buffer b n src off :
  always (quietly []) (write_buffer w b n src off).
Proof. apply (quiet_device_call (clEnqueueWriteBuffer b)); reflexivity. Qed.

Lemma quiet_read_buffer b n dst :
  always (quietly []) (read_buffer w b n dst).
Proof. apply (quiet_device_call (clEnqueueReadBuffer b)); reflexivity. Qed.

Lemma quiet_enqueue k : always (quietly [k]) (enqueue w cfg k).
Proof.
  apply (quiet_device_call (clEnqueueNDRangeKernel k (nthreads cfg)));
    reflexivity.
Qed.

Lemma quiet_plain c :
  (forall k g, c <> clEnqueueNDRangeKernel k g) ->
  always (quietly []) (device_call w c (fun h => h)).
Proof.
  intros Hc.
  replace (@nil kernel) with (kernel_of_call c).
  - apply quiet_device_call; reflexivity.
  - destruct c; try reflexivity. exfalso. eapply Hc. reflexivity.
Qed.

Lemma quiet_malloc s n : always (quietly []) (malloc w s n).
Proof. apply quiet_modify; reflexivity. Qed.

Lemma quiet_output e t :
  (e && t)%bool = true -> always (quietly []) (output w cfg e t).
Proof.
  intros Hf h. unfold output. rewrite Hf.
  exists tt. eexists. split; [reflexivity|]. split; reflexivity.
Qed.

Lemma fold_keeps {A} (P : host F -> A) (body : nat -> host F -> host F) l :
  (forall i h, P (body i h) = P h) ->
  forall h, P (fold_left (fun h i => body i h) l h) = P h.
Proof.
  intros Hb. induction l as [|i l IH]; intro h; simpl; [reflexivity|].
  rewrite IH. apply Hb.
Qed.

Lemma quiet_for_each n (body : nat -> host F -> host F) :
  (forall i h, log (body i h) = log h) ->
  (forall i h, ekin (body i h) = ekin h) ->
  always (quietly []) (for_each n body).
Proof.
  intros Hl He. apply quiet_modify; intro h.
  - apply (fold_keeps (@log F)). exact Hl.
  - apply (fold_keeps (@ekin F)). exact He.
Qed.

Ltac quiet :=
  lazymatch goal with
  | |- forall _, always _ _ => intro; quiet
  | |- always (quietly _) (bind _ _) =>
      eapply quiet_bind; [quiet | quiet | try reflexivity]
  | |- always (quietly _) (assign _) => apply quiet_assign; quiet
  | |- always (quietly _) (or_assign _) => apply quiet_or_assign; quiet
  | |- always (quietly _) (set_args _ _) => apply quiet_set_args
  | |- always (quietly _) (create_kernel _ _) => apply quiet_create_kernel
  | |- always (quietly _) (create_buffer _ _ _) => apply quiet_create_buffer
  | |- always (quietly _) (write_buffer _ _ _ _ _) => apply quiet_write_buffer
  | |- always (quietly _) (read_buffer _ _ _ _) => apply quiet_read_buffer
  | |- always (quietly _) (enqueue _ _ _) => apply quiet_enqueue
  | |- always (quietly _) (device_call _ _ _) =>
      apply quiet_plain; discriminate
  | |- always (quietly _) (malloc _ _ _) => apply quiet_malloc
  | |- always (quietly _) (output _ _ _ _) =>
      apply quiet_output; assumption
  | |- always (quietly _) (for_each _ _) =>
      apply quiet_for_each; reflexivity
  | |- always (quietly _) (modify _) => apply quiet_modify; reflexivity
  end.

Ltac zero_walk n fin :=
  lazymatch n with
  | O => fin
  | S ?n' =>
      eapply quiet_then_zero; [quiet | intro; zero_walk n' fin | try reflexivity]
  end.

Lemma allocate_quiet : always (quietly []) (allocate w cfg).
Proof. unfold allocate. quiet. Qed.

Lemma first_frame_quiet :
  (erg w cfg && traj w cfg)%bool = true ->
  always (quietly []) (first_frame w cfg).
Proof. intros Hf. unfold first_frame. quiet. Qed.

(** With a stream that is NULL the first call of [output] is where the
    run stops. *)
Lemma first_frame_stuck (h : host F) :
  (erg w cfg && traj w cfg)%bool = false ->
  exists h', first_frame w cfg h = Halted Undefined h' /\
             kernels_of (log h') = kernels_of (log h).
Proof.
  intros Hf.
  assert (A : forall b s,
    always (quietly []) (assign (read_buffer w b (Z.to_nat (natoms cfg)) s)))
    by (intros; quiet).
  assert (B : forall b s,
    always (quietly []) (or_assign (read_buffer w b (Z.to_nat (natoms cfg)) s)))
    by (intros; quiet).
  unfold first_frame. unfold bind at 1.
  destruct (A rx buffers_0 h) as ([] & h1 & -> & K1 & _).
  unfold bind at 1.
  destruct (B ry buffers_1 h1) as ([] & h2 & -> & K2 & _).
  unfold bind at 1.
  destruct (B rz buffers_2 h2) as ([] & h3 & -> & K3 & _).
  unfold output. rewrite Hf. exists h3. split; [reflexivity|].
  rewrite K3, K2, K1. reflexivity.
Qed.

(** The first force evaluation: the zero-fill, then the force kernel;
    it leaves [sys.ekin] at [ZERO]. *)
Lemma initial_forces_zeroing :
  always (zeroing [opencl_force; opencl_azzero]) (initial_forces w cfg).
Proof.
  assert (Z0 : always (zeroing []) (modify (set_ekin (F:=F) ZERO))).
  { intro h. exists tt, (set_ekin ZERO h). split; [reflexivity|].
    split; reflexivity. }
  unfold initial_forces.
  zero_walk 11%nat
    ltac:(eapply zero_then_quiet; [exact Z0 | quiet | reflexivity]).
Qed.

Lemma sum_one (l : list nat) (h : host F) :
  fold_left
    (fun h i => set_ekin (ekin h + at_index w (mem h tmp_ekin) i)%fp h) l h
  = set_ekin (fold_left fadd (map (at_index w (mem h tmp_ekin)) l) (ekin h)) h.
Proof.
  revert h. induction l as [|i l IH]; intro h; simpl.
  - destruct h; reflexivity.
  - rewrite IH. reflexivity.
Qed.

Ltac peel lem :=
  lazymatch goal with
  | |- exists _, bind ?m ?k ?h = _ /\ _ =>
      let a := fresh "a" in
      let h1 := fresh "h" in
      let E := fresh "E" in
      let K := fresh "K" in
      let Q := fresh "Q" in
      destruct (lem h) as (a & h1 & E & K & Q);
      unfold bind at 1; rewrite E; clear E
  end.

(** The first kinetic energy: one dispatch of the kinetic-energy kernel,
    then the host-side sum of the partials on top of what [sys.ekin]
    held, the prefactors and the temperature. *)
Lemma initial_ekin_run (h : host F) :
  exists h',
    initial_ekin w cfg h = Done tt h' /\
    (kernels_of (log h') = opencl_ekin :: kernels_of (log h) /\
     ekin h' = (host_sum w (ekin h) (nthreads cfg) (mem h' tmp_ekin)
                * (HALF * mvsq2e * mass cfg))%fp /\
     temp h' = (TWO * ekin h' / (THREE * of_int (natoms cfg) - THREE)
                / kboltz)%fp).
Proof.
  unfold initial_ekin.
  peel (quiet_malloc tmp_ekin (Z.to_nat (nthreads cfg))).
  peel (quiet_assign _ _
          (quiet_create_buffer ekin_buffer (Z.to_nat (nthreads cfg)))).
  peel (quiet_or_assign _ _ (quiet_set_args opencl_ekin)).
  peel (quiet_assign _ _ (quiet_enqueue opencl_ekin)).
  peel (quiet_or_assign _ _
          (quiet_read_buffer ekin_buffer (Z.to_nat (nthreads cfg)) tmp_ekin)).
  unfold for_each, scale_ekin, set_temperature, bind, modify.
  rewrite sum_one. eexists. split; [reflexivity|]. simpl.
  repeat split.
  - rewrite K3, K2, K1, K0, K. reflexivity.
  - unfold host_sum, cells. simpl.
    replace (ekin h4) with (ekin h) by congruence. reflexivity.
Qed.

(** What the set-up dispatches, and how it can end: at its end, at the
    restart file, or in the first call of [output]. *)
Lemma setup_kernels (h : host F) :
  match setup w cfg h with
  | Done _ hs =>
      fopen_r w (restfile cfg) <> None /\
      (erg w cfg && traj w cfg)%bool = true /\
      kernels_of (log hs) =
        [opencl_ekin; opencl_force; opencl_azzero] ++ kernels_of (log h)
  | Halted e hs =>
      (e = Exit 3 /\ fopen_r w (restfile cfg) = None /\
       kernels_of (log hs) = kernels_of (log h)) \/
      (e = Undefined /\ fopen_r w (restfile cfg) <> None /\
       (erg w cfg && traj w cfg)%bool = false /\
       kernels_of (log hs) =
         [opencl_ekin; opencl_force; opencl_azzero] ++ kernels_of (log h))
  end.
Proof.
  unfold setup. unfold bind at 1.
  destruct (allocate_quiet h) as ([] & h1 & -> & K1 & _).
  unfold bind at 1. unfold read_restart at 1.
  destruct (fopen_r w (restfile cfg)) as [nums|] eqn:Ef.
  2:{ simpl. left. repeat split. rewrite K1. reflexivity. }
  assert (R2 : always (quietly [])
    (bind (modify (fun h =>
           set_mem (mem_store buffers_0 (column w cfg nums 0)
                   (mem_store buffers_1 (column w cfg nums 1)
                   (mem_store buffers_2 (column w cfg nums 2) (mem h)))) h))
         (fun _ =>
          bind (assign (write_buffer w rx (Z.to_nat (natoms cfg)) buffers_0 0))
         (fun _ =>
          bind (or_assign (write_buffer w ry (Z.to_nat (natoms cfg)) buffers_1 0))
         (fun _ =>
          bind (or_assign (write_buffer w rz (Z.to_nat (natoms cfg)) buffers_2 0))
         (fun _ =>
          bind (or_assign (write_buffer w vx (Z.to_nat (natoms cfg)) buffers_0
                             (Z.to_nat (natoms cfg))))
         (fun _ =>
          bind (or_assign (write_buffer w vy (Z.to_nat (natoms cfg)) buffers_1
                             (Z.to_nat (natoms cfg))))
         (fun _ =>
          or_assign (write_buffer w vz (Z.to_nat (natoms cfg)) buffers_2
                       (Z.to_nat (natoms cfg)))))))))))
    by quiet.
  destruct (R2 h1) as ([] & h2 & E2 & K2 & _).
  cbv beta iota. rewrite E2. clear E2.
  unfold bind at 1.
  destruct (initial_forces_zeroing h2) as ([] & h3 & -> & K3 & _).
  unfold bind at 1.
  destruct (initial_ekin_run h3) as (h4 & -> & K4 & _).
  destruct (erg w cfg && traj w cfg)%bool eqn:Eo.
  - destruct (first_frame_quiet Eo h4) as ([] & h5 & -> & K5 & _).
    split; [discriminate|]. split; [reflexivity|].
    rewrite K5, K4, K3, K2, K1. reflexivity.
  - destruct (first_frame_stuck h4 Eo) as (h5 & -> & K5).
    right. split; [reflexivity|]. split; [discriminate|].
    split; [reflexivity|].
    rewrite K5, K4, K3, K2, K1. reflexivity.
Qed.

End Always.

(** ** Whole runs *)

Section Whole.

Context {F : Type} {fp : FPTYPE F}.
Variable w : world F.
Variable cfg : config F.

Lemma kernels_of_app (a b : list (event F)) :
  kernels_of (a ++ b) = kernels_of a ++ kernels_of b.
Proof.
  rewrite !kernels_of_schedule, schedule_app, kernels_in_app. reflexivity.
Qed.

Lemma kernels_in_rev l : kernels_in (rev l) = rev (kernels_in l).
Proof.
  induction l as [|i l IH]; simpl; [reflexivity|].
  rewrite kernels_in_app, IH. destruct i; simpl;
    rewrite ?app_nil_r; reflexivity.
Qed.

Lemma dispatches_timeline (l : list (event F)) :
  dispatches l = kernels_in (timeline l).
Proof.
  unfold dispatches, timeline.
  rewrite kernels_in_rev, kernels_of_schedule. reflexivity.
Qed.

Lemma no_dispatch_kernels (evs : list (event F)) :
  Forall no_dispatch evs -> kernels_of evs = [].
Proof.
  induction 1 as [|e evs He _ IH]; simpl; [reflexivity|].
  unfold no_dispatch in He. rewrite He. exact IH.
Qed.

Lemma not_zero_fill_kernels (evs : list (event F)) :
  Forall not_zero_fill evs -> ~ In opencl_azzero (kernels_of evs).
Proof.
  induction 1 as [|e evs He _ IH]; simpl; [tauto|].
  unfold not_zero_fill in He.
  destruct (dispatched e) as [k|]; [|exact IH].
  simpl. intros [->|H]; [apply He; reflexivity | exact (IH H)].
Qed.

Lemma extends_admits_download (P : event F -> Prop) :
  (forall b s d, P (Download b s d)) -> admits_download w cfg (extends P).
Proof.
  intros H b dst n _ h.
  exists [Download b (nfi h) (cells w 0 n (dev h b))].
  split; [reflexivity | auto].
Qed.

Lemma extends_admits_output (P : event F -> Prop) :
  (forall o, P (Output o)) -> admits_output (extends P).
Proof. intros H h o _. apply extends_event, H. Qed.

Lemma extends_setup (P : event F -> Prop) :
  (forall c s st,
     (forall k g, c = clEnqueueNDRangeKernel k g -> g = nthreads cfg) ->
     P (DeviceCall c s st)) ->
  (forall msg, P (Stderr msg)) ->
  AdmitsSetup cfg (extends P).
Proof.
  intros Hc Hs. constructor; intros.
  - apply extends_event, Hc. assumption.
  - apply extends_same. reflexivity.
  - apply extends_event, Hs.
  - apply extends_same. reflexivity.
Qed.

Lemma steps_md_loop (R : host F -> host F -> Prop)
  {SR : Stable R} {AR : Admits cfg R} :
  admits_download w cfg R -> admits_output R ->
  (forall v h, R h (set_nfi v h)) ->
  forall n, steps R (md_loop w cfg n).
Proof.
  intros Hd Ho Hn. induction n as [|n IH]; simpl.
  - apply (steps_ret R).
  - apply (steps_bind R); [apply (steps_md_step w cfg R Hd Ho) | intro].
    apply (steps_bind R); [|intro; exact IH].
    apply (steps_modify R). intro h. apply Hn.
Qed.

Lemma steps_simulate (R : host F -> host F -> Prop)
  {SR : Stable R} {AR : Admits cfg R} {AS : AdmitsSetup cfg R} :
  admits_download w cfg R -> admits_output R ->
  (forall v h, R h (set_nfi v h)) ->
  steps R (simulate w cfg).
Proof.
  intros Hd Ho Hn. unfold simulate.
  apply (steps_bind R); [apply (steps_setup w cfg R Hd Ho) | intro].
  apply (steps_bind R); [|intro; apply (steps_md_loop R Hd Ho Hn)].
  apply (steps_modify R). intro h. apply Hn.
Qed.

(** The loop never dispatches the zero-fill kernel. *)
Lemma md_loop_no_zero_fill n :
  steps (extends not_zero_fill) (md_loop w cfg n).
Proof.
  assert (AR : Admits cfg (extends (not_zero_fill (F:=F)))).
  { apply extends_admits.
    - intros c s st Hc. unfold not_zero_fill.
      destruct c; simpl; try discriminate.
      intros E. injection E as ->.
      destruct (Hc _ _ eq_refl) as [Hk _]. apply Hk. reflexivity.
    - intros. unfold not_zero_fill. simpl. discriminate. }
  apply (steps_md_loop _).
  - apply extends_admits_download. intros. unfold not_zero_fill. simpl.
    discriminate.
  - apply extends_admits_output. intros. unfold not_zero_fill. simpl.
    discriminate.
  - intros. apply extends_same. reflexivity.
Qed.

(** Every dispatch of a simulation uses [nthreads] as global work size. *)
Lemma simulate_sized : steps (extends (sized (nthreads cfg))) (simulate w cfg).
Proof.
  assert (Hcall : forall c s st,
    (forall k g, c = clEnqueueNDRangeKernel k g -> g = nthreads cfg) ->
    sized (F:=F) (nthreads cfg) (DeviceCall c s st)).
  { intros c s st Hc g'. destruct c; simpl; try discriminate.
    intros E. injection E as <-. eapply Hc. reflexivity. }
  assert (AR : Admits cfg (extends (sized (F:=F) (nthreads cfg)))).
  { apply extends_admits.
    - intros c s st Hc. apply Hcall. intros k g E. apply (Hc k g E).
    - intros l st g'. simpl. discriminate. }
  assert (AS : AdmitsSetup cfg (extends (sized (F:=F) (nthreads cfg)))).
  { apply extends_setup; [exact Hcall|]. intros msg g'. simpl. discriminate. }
  apply (steps_simulate _).
  - apply extends_admits_download. intros b s d g'. simpl. discriminate.
  - apply extends_admits_output. intros o g'. simpl. discriminate.
  - intros. apply extends_same. reflexivity.
Qed.

Lemma preamble_no_dispatch argv :
  steps (extends no_dispatch) (preamble w argv).
Proof.
  apply steps_preamble; [exact _|].
  intros msg h. apply extends_event. reflexivity.
Qed.

Lemma preamble_sized g argv : steps (extends (sized g)) (preamble w argv).
Proof.
  apply steps_preamble; [exact _|].
  intros msg h. apply extends_event. intros g'. simpl. discriminate.
Qed.

End Whole.

(** ** A print interval of one *)

Section EveryStep.

Context {F : Type} {fp : FPTYPE F}.
Variable w : world F.
Variable cfg : config F.
Hypothesis every_step : nprint cfg = 1.

Lemma md_step_same k (h : host F) :
  1 <= k ->
  nfi h = k /\ same_step w cfg (log h) /\ synced w cfg h ->
  match md_step w cfg h with
  | Done _ h' =>
      nfi h' = k /\ same_step w cfg (log h') /\ synced w cfg h'
  | Halted _ h' => same_step w cfg (log h')
  end.
Proof.
  intros Hk (Hn & Hsame & Hsync).
  unfold md_step, bind.
  pose proof (propagate_stamped w cfg k h) as Hp.
  pose proof (synced_keeps w cfg _ h (propagate_synced w cfg) Hsync) as Hsp.
  destruct (propagate w cfg h) as [[] hp|e hp] eqn:Ep; simpl in Hp, Hsp.
  2:{ destruct (Hp Hn) as (_ & evs & -> & Hf).
      apply same_extended; [|exact Hsame].
      eapply Forall_impl; [|exact Hf]. apply stamped_not_output. }
  destruct (Hp Hn) as (Hnp & evs & Hlog & Hf).
  assert (Hsp' : same_step w cfg (log hp)).
  { rewrite Hlog. apply same_extended; [|exact Hsame].
    eapply Forall_impl; [|exact Hf]. apply stamped_not_output. }
  assert (Hr : Z.rem k (nprint cfg) = 0)
    by (rewrite every_step; apply Z.rem_1_r).
  rewrite at_boundary_taken by (rewrite ?Hnp; first [lia | assumption]).
  destruct (erg w cfg && traj w cfg)%bool eqn:Eo.
  2:{ destruct (write_output_stuck w cfg hp Eo) as (h' & -> & Hl' & _).
      rewrite Hl'. exact Hsp'. }
  destruct (write_output_frame w cfg hp Eo)
    as (h' & -> & Hl' & Hn' & Hm' & _).
  assert (Hd : forall b sl n, In (b, sl, n) (staging cfg) ->
                              downloaded_in k (log hp) b).
  { intros b sl n Hin. rewrite <- Hn.
    apply (propagate_downloads w cfg h hp) with (sl := sl) (n := n);
      [lia | rewrite Hn, Hr; lia | exact Ep | exact Hin]. }
  repeat split.
  - congruence.
  - rewrite Hl'. apply same_frame; [exact Hsp'|].
    simpl. intros _. rewrite Hnp.
    replace (frame_from w cfg k) with (frame_from w cfg (nfi hp))
      by (rewrite Hnp; reflexivity).
    exact (frame_is_staged w cfg k hp Hk Hsp Hd).
  - intros b sl n s d Hin Hd' Hpos. rewrite Hl' in Hd'. simpl in Hd'.
    rewrite Hm'. eapply Hsp; eauto.
Qed.

Lemma md_loop_same n : forall k (h : host F),
  1 <= k ->
  nfi h = k /\ same_step w cfg (log h) /\ synced w cfg h ->
  same_step w cfg (log (final (md_loop w cfg n h))).
Proof.
  induction n as [|n IH]; intros k h Hk Hb.
  - simpl. apply Hb.
  - simpl. rewrite bind_final.
    pose proof (md_step_same k h Hk Hb) as Hs.
    destruct (md_step w cfg h) as [[] h'|e h']; [|exact Hs].
    rewrite bind_final. simpl. apply (IH (k + 1)); [lia|].
    destruct Hs as (Hn & Hsame & Hsync). repeat split.
    + simpl. lia.
    + exact Hsame.
    + exact Hsync.
Qed.

Lemma run_same argv :
  configuration w argv = Some cfg ->
  same_step w cfg (snd (main w argv)).
Proof.
  intros Hc. apply configuration_preamble in Hc as (h2 & E).
  rewrite main_log, main_body_preamble, bind_final, E, simulate_final.
  destruct (before_the_loop w cfg argv h2 E) as [Ns Fs].
  destruct (setup w cfg h2) as [[] hs|e hs]; simpl in Ns, Fs.
  - apply (md_loop_same _ 1); [lia|]. repeat split.
    + simpl. apply initial_same, Fs.
    + apply initial_synced. exact Fs.
  - apply initial_same, Fs.
Qed.

End EveryStep.

Section Checks.

Context {F : Type} {fp : FPTYPE F}.
Variable w : world F.
Variable cfg : config F.

Lemma stale_tail e (l : list (event F)) :
  one_step_stale w cfg (e :: l) -> one_step_stale w cfg l.
Proof.
  intros H later o earlier E Ho. apply (H (e :: later)); [|exact Ho].
  rewrite E. reflexivity.
Qed.

(** What [one_step_stale] says, as far as the check [frames_lag] sees. *)
Lemma stale_frames_lag (l : list (event F)) :
  one_step_stale w cfg l -> frames_lag 1 l = true.
Proof.
  induction l as [|e l IH]; intro H; [reflexivity|].
  pose proof (IH (stale_tail _ _ H)) as Hl.
  destruct e; simpl; try exact Hl. rewrite Hl, andb_true_r.
  destruct (1 <=? o_nfi o) eqn:Ho; [|reflexivity].
  apply Z.leb_le in Ho.
  destruct (H [] o l eq_refl Ho) as (x & _ & _ & _ & _ & Hx & _).
  rewrite Hx. apply Z.eqb_refl.
Qed.

End Checks.

(** ** The energies the host works out *)

Section Energies.

Context {F : Type} {fp : FPTYPE F}.
Variable w : world F.
Variable cfg : config F.

(** [write_output] leaves in [sys.ekin] the sum of the partials times
    the prefactors and in [sys.temp] the temperature, whether or not
    [output] can print them; the frame it prints shows both. *)
Lemma write_output_energies (h : host F) :
  ekin (final (write_output w cfg h))
  = (host_sum w ZERO (nthreads cfg) (mem h tmp_ekin)
     * (HALF * mvsq2e * mass cfg))%fp /\
  temp (final (write_output w cfg h))
  = (TWO * ekin (final (write_output w cfg h))
     / (THREE * of_int (natoms cfg) - THREE) / kboltz)%fp /\
  (forall hd, write_output w cfg h = Done tt hd ->
     exists o, log hd = Output o :: log h /\
               o_ekin o = ekin hd /\ o_temp o = temp hd).
Proof.
  unfold write_output, for_each, scale_ekin, set_temperature, output, emit,
    bind, modify.
  rewrite sum_both.
  destruct (erg w cfg && traj w cfg)%bool; simpl.
  - split; [reflexivity|]. split; [reflexivity|].
    intros hd E. injection E as <-. eexists. split; [reflexivity|].
    split; reflexivity.
  - split; [reflexivity|]. split; [reflexivity|]. discriminate.
Qed.

(** The same for the set-up: [sys.ekin] is [ZERO] when the partials are
    added to it. *)
Lemma initial_energies (h : host F) :
  exists h',
    bind (initial_forces w cfg) (fun _ => initial_ekin w cfg) h = Done tt h' /\
    ekin h' = (host_sum w ZERO (nthreads cfg) (mem h' tmp_ekin)
               * (HALF * mvsq2e * mass cfg))%fp /\
    temp h' = (TWO * ekin h' / (THREE * of_int (natoms cfg) - THREE)
               / kboltz)%fp.
Proof.
  unfold bind.
  destruct (initial_forces_zeroing w cfg h) as ([] & h1 & -> & _ & Z1).
  destruct (initial_ekin_run w cfg h1) as (h' & -> & _ & He & Ht).
  exists h'. split; [reflexivity|]. rewrite Z1 in He. auto.
Qed.

End Energies.



(** ** The command line and the input script *)

Lemma digits_no_digit s :
  match s with
  | EmptyString => True
  | String c _ => isdigit c = false
  end -> digits s 0 = 0.
Proof. destruct s as [|c r]; simpl; [reflexivity|]. intros ->. reflexivity. Qed.

Lemma strtol_no_digit s : no_leading_digit s -> strtol s = 0.
Proof.
  unfold no_leading_digit, subject, strtol, signed_digits.
  destruct (skip_spaces (c_str s)) as [|c r]; [reflexivity|].
  destruct (Ascii.eqb c "-"); simpl.
  - intros H. rewrite (digits_no_digit r H). reflexivity.
  - destruct (Ascii.eqb c "+"); simpl.
    + intros H. rewrite (digits_no_digit r H). reflexivity.
    + intros H. rewrite H. reflexivity.
Qed.

Section Script.

Context {F : Type} {fp : FPTYPE F}.
Variable w : world F.

Lemma read_line_read (h : host F) buf rest :
  get_me_a_line (input h) = LineRead buf rest ->
  read_line h = Done buf (set_input rest h).
Proof. unfold read_line. intros ->. reflexivity. Qed.

Lemma read_line_error (h : host F) :
  get_me_a_line (input h) = LineError ->
  exists h', read_line h = Halted (Exit 1) h'.
Proof. unfold read_line. intros ->. eauto. Qed.

Lemma read_input_nthreads n (h h' : host F) cfg :
  read_input n h = Done cfg h' -> nthreads cfg = n.
Proof.
  unfold read_input. intros H.
  repeat (apply bind_done in H as (? & ? & _ & H)).
  injection H as <- _. reflexivity.
Qed.

Lemma command_line_done argv n (h h1 : host F) :
  command_line argv h = Done n h1 -> h1 = h.
Proof.
  unfold command_line, PrintUsageAndExit, bind, emit, modify, stop, ret.
  destruct argv as [|a0 [|a1 [|a2 [|a3 rest]]]]; try discriminate.
  - intros E. injection E as _ <-. reflexivity.
  - destruct (to_int (strtol a2) <? 0); [discriminate|].
    intros E. injection E as _ <-. reflexivity.
Qed.

Lemma preamble_nthreads argv n cfg (h h1 h2 : host F) :
  command_line argv h = Done n h1 ->
  preamble w argv h = Done cfg h2 -> nthreads cfg = n.
Proof.
  intros Hc H. unfold preamble, bind in H. rewrite Hc in H.
  destruct (init_opencl w (nth 1 argv EmptyString) h1) as [[] h3|];
    [|discriminate].
  eapply read_input_nthreads. exact H.
Qed.

(** The input script ends where one of the twelve lines should be:
    [read_input] makes [main] return 1. *)
Lemma read_input_truncated n (k : nat) (h : host F) rest :
  (k < 12)%nat ->
  lines_read k (input h) = Some rest ->
  get_me_a_line rest = LineError ->
  exists h', read_input n h = Halted (Exit 1) h'.
Proof.
  intros Hk Hl He. unfold read_input.
  do 12 (
    unfold bind at 1, read_line at 1;
    destruct k as [|k];
    [ simpl in Hl; injection Hl as Hl; subst rest; rewrite He; eauto
    | simpl in Hl;
      let b := fresh "buf" in
      let r := fresh "tail" in
      destruct (get_me_a_line (input h)) as [b r| |];
      try discriminate;
      apply Nat.succ_lt_mono in Hk;
      change r with (input (set_input r h)) in Hl;
      revert Hl; generalize (set_input r h); clear h; intros h Hl ]).
  lia.
Qed.

End Script.

(** ** Work sizes of a whole run *)

Section Sizes.

Context {F : Type} {fp : FPTYPE F}.
Variable w : world F.

Lemma no_dispatch_sized g (e : event F) : no_dispatch e -> sized g e.
Proof.
  unfold no_dispatch, sized. destruct e as [| c s st | | |]; simpl;
    try discriminate. destruct c; simpl; discriminate.
Qed.

(** Every dispatch of a run uses the worker count of the command line as
    its global work size. *)
Lemma run_sized argv n (h1 : host F) :
  command_line argv (host0 w) = Done n h1 ->
  Forall (sized n) (snd (main w argv)).
Proof.
  intros Hc. rewrite main_log, main_body_preamble, bind_final.
  pose proof (preamble_no_dispatch w argv (host0 w)) as (evs & Hl & Hf).
  simpl in Hl. rewrite app_nil_r in Hl.
  destruct (preamble w argv (host0 w)) as [cfg h2|e h2] eqn:Ep; simpl in Hl.
  - pose proof (preamble_nthreads w _ _ _ _ _ _ Hc Ep) as Hn.
    pose proof (simulate_sized w cfg h2) as (evs' & Hl' & Hf').
    rewrite Hl', Hl, Hn in *. apply Forall_app. split; [exact Hf'|].
    eapply Forall_impl; [|exact Hf]. intros e. apply no_dispatch_sized.
  - simpl. rewrite Hl. eapply Forall_impl; [|exact Hf].
    intros e0. apply no_dispatch_sized.
Qed.

(** A run whose restart file opens dispatches the zero-fill, the force
    evaluation and the kinetic-energy kernel first. *)
Lemma run_starts argv cfg :
  configuration w argv = Some cfg ->
  fopen_r w (restfile cfg) <> None ->
  exists rest,
    dispatches (snd (main w argv)) =
      opencl_azzero :: opencl_force :: opencl_ekin :: rest.
Proof.
  intros Hc Hf. apply configuration_preamble in Hc as (h2 & Ep).
  rewrite main_log, main_body_preamble, bind_final.
  pose proof (preamble_no_dispatch w argv (host0 w)) as (evs & Hl & Hn).
  simpl in Hl. rewrite app_nil_r in Hl.
  assert (K0 : kernels_of (log (final (preamble w argv (host0 w)))) = [])
    by (rewrite Hl; apply no_dispatch_kernels, Hn).
  rewrite Ep in *. simpl in K0. rewrite simulate_final.
  pose proof (setup_kernels w cfg h2) as Hs.
  destruct (setup w cfg h2) as [[] hs|e hs].
  2:{ destruct Hs as [(_ & Hs & _) | (_ & _ & _ & Hs)]; [contradiction|].
      exists []. unfold dispatches. rewrite Hs, K0. reflexivity. }
  destruct Hs as (_ & _ & Hs). rewrite K0 in Hs.
  pose proof (md_loop_no_zero_fill w cfg (Z.to_nat (nsteps cfg))
                (set_nfi 1 hs)) as (evs' & Hl' & _).
  exists (rev (kernels_of evs')).
  unfold dispatches. rewrite Hl', kernels_of_app. simpl log.
  rewrite Hs, rev_app_distr. reflexivity.
Qed.

(** A run that stops before the configuration is complete, or at the
    restart file, has dispatched nothing. *)
Lemma run_not_started argv :
  match configuration w argv with
  | Some cfg => fopen_r w (restfile cfg) = None
  | None => True
  end ->
  dispatches (snd (main w argv)) = [].
Proof.
  unfold configuration. intros Hc.
  rewrite main_log, main_body_preamble, bind_final.
  pose proof (preamble_no_dispatch w argv (host0 w)) as (evs & Hl & Hn).
  simpl in Hl. rewrite app_nil_r in Hl.
  assert (K0 : kernels_of (log (final (preamble w argv (host0 w)))) = [])
    by (rewrite Hl; apply no_dispatch_kernels, Hn).
  destruct (preamble w argv (host0 w)) as [cfg h2|e h2]; simpl in K0.
  2:{ unfold dispatches. simpl. rewrite K0. reflexivity. }
  rewrite simulate_final.
  pose proof (setup_kernels w cfg h2) as Hs.
  destruct (setup w cfg h2) as [[] hs|e hs].
  - destruct Hs as [Hs _]. contradiction.
  - destruct Hs as [(_ & _ & Hs) | (_ & Hs & _)]; [|contradiction].
    unfold dispatches. rewrite Hs, K0. reflexivity.
Qed.

End Sizes.

(** * The claims *)

Section Claims.

Context {F : Type} {fp : FPTYPE F}.

(** C7. In every iteration of the main MD loop the kernels are
    dispatched in the order first half-step, force evaluation, second
    half-step: an iteration that runs to its end dispatches exactly
    these three, followed by the kinetic-energy kernel in the step before
    an output boundary; an iteration stopped by a checkpoint has
    dispatched a beginning of that sequence. So the force evaluation
    never comes before the first half-step (the position update) nor
    after the second. *)
Theorem kicks_straddle_the_force_evaluation
  (w : world F) (cfg : config F) (h : host F) :
  match md_step w cfg h with
  | Done _ h' =>
      dispatches (log h') =
        dispatches (log h) ++
        [opencl_verlet_first; opencl_force; opencl_verlet_second] ++
        (if Z.rem (nfi h) (nprint cfg) =? nprint cfg - 1
         then [opencl_ekin] else [])
  | Halted _ h' =>
      exists ks,
        dispatches (log h') = dispatches (log h) ++ ks /\
        begins ks [opencl_verlet_first; opencl_force;
                   opencl_verlet_second; opencl_ekin]
  end.
Proof.
  pose proof (md_step_schedule w cfg h) as H.
  destruct (md_step w cfg h) as [[] h'|e h'].
  - destruct H as [_ H]. rewrite !dispatches_timeline, H, kernels_in_app.
    f_equal. unfold iteration.
    destruct (Z.rem (nfi h) (nprint cfg) =? nprint cfg - 1);
      destruct (Z.rem (nfi h) (nprint cfg) =? 0); reflexivity.
  - destruct H as (ks & Hk & H). exists (rev ks). split.
    + unfold dispatches. rewrite !kernels_of_schedule, H.
      apply rev_app_distr.
    + apply partial_kicks_begin, Hk.
Qed.

(** C1 (as amended). The zero-fill kernel is dispatched once in a run,
    during the set-up and before the first force evaluation; the main MD
    loop never dispatches it. The dispatches of a run are none at all
    (the run stopped before the device was used), or the zero-fill, the
    force evaluation and the kinetic-energy kernel followed by dispatches
    among which the zero-fill does not occur. *)
Theorem zero_fill_only_in_the_setup (w : world F) (argv : list string) :
  dispatches (snd (main w argv)) = [] \/
  exists rest,
    dispatches (snd (main w argv)) =
      opencl_azzero :: opencl_force :: opencl_ekin :: rest /\
    ~ In opencl_azzero rest.
Proof.
  rewrite main_log, main_body_preamble, bind_final.
  pose proof (preamble_no_dispatch w argv (host0 w)) as (evs & Hl & Hf).
  simpl in Hl. rewrite app_nil_r in Hl.
  assert (K0 : kernels_of (log (final (preamble w argv (host0 w)))) = [])
    by (rewrite Hl; apply no_dispatch_kernels, Hf).
  destruct (preamble w argv (host0 w)) as [cfg h2|e h2]; simpl in K0.
  2:{ left. unfold dispatches. rewrite K0. reflexivity. }
  rewrite simulate_final.
  pose proof (setup_kernels w cfg h2) as Hs.
  destruct (setup w cfg h2) as [[] hs|e hs].
  2:{ destruct Hs as [(_ & _ & Hs) | (_ & _ & _ & Hs)].
      - left. unfold dispatches. rewrite Hs, K0. reflexivity.
      - right. exists []. split; [|intros []].
        unfold dispatches. rewrite Hs, K0. reflexivity. }
  destruct Hs as (_ & _ & Hs). rewrite K0 in Hs.
  pose proof (md_loop_no_zero_fill w cfg (Z.to_nat (nsteps cfg))
                (set_nfi 1 hs)) as (evs' & Hl' & Hf').
  right. exists (rev (kernels_of evs')). split.
  - unfold dispatches. rewrite Hl', kernels_of_app. simpl log.
    rewrite Hs, rev_app_distr. reflexivity.
  - rewrite <- in_rev. apply not_zero_fill_kernels, Hf'.
Qed.

(** C2 (as amended). For a print interval of at least 2, every frame
    the loop prints (at a step [s >= 1], a multiple of the interval)
    shows the positions and the potential- and kinetic-energy partials
    that the latest downloads delivered, and these downloads were all
    made during step [s - 1]. This holds whatever statuses the device
    calls return. *)
Theorem frames_show_the_step_before
  (w : world F) (argv : list string) (cfg : config F) :
  configuration w argv = Some cfg ->
  2 <= nprint cfg ->
  one_step_stale w cfg (snd (main w argv)).
Proof.
  intros Hc Hn. apply run_stale; assumption.
Qed.

(** C9. With a print interval of 1 the test for the read-backs and the
    test for the output are the same test; every frame the loop prints
    shows the positions and the energy partials downloaded during its
    own step, not the step before; and an iteration that runs to its end
    does, in this order: first half-step, download of the positions,
    force evaluation, download of the potential-energy partials, second
    half-step, kinetic-energy kernel, download of its partials, frame;
    one that a checkpoint stops prints no frame. *)
Theorem interval_one_prints_its_own_step
  (w : world F) (argv : list string) (cfg : config F) :
  configuration w argv = Some cfg ->
  nprint cfg = 1 ->
  (forall s, (Z.rem s (nprint cfg) =? nprint cfg - 1)
             = (Z.rem s (nprint cfg) =? 0)) /\
  same_step w cfg (snd (main w argv)) /\
  (forall h : host F,
     match md_step w cfg h with
     | Done _ h' =>
         timeline (log h') =
           timeline (log h) ++
           [Dispatch opencl_verlet_first;
            Transfer rx; Transfer ry; Transfer rz;
            Dispatch opencl_force; Transfer epot_buffer;
            Dispatch opencl_verlet_second;
            Dispatch opencl_ekin; Transfer ekin_buffer;
            Frame (nfi h)]
     | Halted _ h' =>
         exists evs, log h' = evs ++ log h /\ Forall not_output evs
     end).
Proof.
  intros Hc Hn. split; [|split].
  - intros s. rewrite Hn. reflexivity.
  - apply run_same; assumption.
  - intros h. pose proof (md_step_schedule w cfg h) as H.
    destruct (md_step w cfg h) as [[] h'|e h'] eqn:E.
    + destruct H as [_ H]. rewrite H. f_equal. unfold iteration.
      rewrite Hn, Z.rem_1_r. reflexivity.
    + clear H. unfold md_step, bind in E.
      pose proof (propagate_stamped w cfg (nfi h) h eq_refl)
        as (Hnp & evs & Hl & Hf).
      destruct (propagate w cfg h) as [[] hp|e' hp]; simpl in Hnp, Hl.
      * rewrite at_boundary_taken in E
          by (rewrite ?Hnp, ?Hn; first [lia | apply Z.rem_1_r]).
        destruct (erg w cfg && traj w cfg)%bool eqn:Eo.
        -- destruct (write_output_frame w cfg hp Eo) as (h1 & E1 & _).
           rewrite E1 in E. discriminate.
        -- destruct (write_output_stuck w cfg hp Eo) as (h1 & E1 & L1 & _).
           rewrite E1 in E. injection E as _ <-.
           exists evs. split; [congruence|].
           eapply Forall_impl; [|exact Hf]. apply stamped_not_output.
      * injection E as _ <-. exists evs. split; [exact Hl|].
        eapply Forall_impl; [|exact Hf]. apply stamped_not_output.
Qed.

(** C10. With three arguments, a thread count of 0, or one that does
    not start with a digit (after blanks and a sign), is taken as 0
    workers: the command line is accepted without a message and without
    an exit; the configuration of the run has 0 workers; every kernel
    dispatch of the run has a global work size of 0; and a run whose
    input script and restart file can be read does dispatch kernels,
    starting with the zero-fill. *)
Theorem zero_workers_are_accepted
  (w : world F) (prog device count : string) :
  count = "0" \/ no_leading_digit count ->
  (forall h : host F, command_line [prog; device; count] h = Done 0 h) /\
  (forall cfg, configuration w [prog; device; count] = Some cfg ->
     nthreads cfg = 0 /\
     (fopen_r w (restfile cfg) <> None ->
      exists rest,
        dispatches (snd (main w [prog; device; count])) =
          opencl_azzero :: opencl_force :: opencl_ekin :: rest)) /\
  (forall e g, In e (snd (main w [prog; device; count])) ->
     work_size e = Some g -> g = 0).
Proof.
  intros Hcount.
  assert (Hz : strtol count = 0).
  { destruct Hcount as [-> | Hn]; [reflexivity | apply strtol_no_digit, Hn]. }
  assert (Hc : forall h : host F,
             command_line [prog; device; count] h = Done 0 h).
  { intros h. unfold command_line. rewrite Hz. reflexivity. }
  split; [exact Hc|]. split.
  - intros cfg Hcfg. split.
    + destruct (configuration_preamble w _ _ Hcfg) as (h2 & Ep).
      exact (preamble_nthreads w _ _ _ _ _ _ (Hc (host0 w)) Ep).
    + intros Hf. exact (run_starts w _ _ Hcfg Hf).
  - intros e g He Hg.
    pose proof (run_sized w _ _ _ (Hc (host0 w))) as Hs.
    rewrite Forall_forall in Hs. exact (Hs e He g Hg).
Qed.

(** C8. Once the command line is accepted: the program exits with
    status 4 when the initialization of the device facility does not
    return [CL_SUCCESS]; it exits with status 1 when the input script
    ends where one of its twelve lines is to be read; it exits with
    status 3 when the restart file named in the script cannot be
    opened. In all three cases no kernel has been dispatched. *)
Theorem fatal_errors_set_the_exit_status
  (w : world F) (argv : list string) (n : Z) (h1 : host F) :
  command_line argv (host0 w) = Done n h1 ->
  (InitOpenCLEnvironment w (nth 1 argv EmptyString) <> CL_SUCCESS ->
   fst (main w argv) = Exit 4 /\ dispatches (snd (main w argv)) = []) /\
  (InitOpenCLEnvironment w (nth 1 argv EmptyString) = CL_SUCCESS ->
   forall (k : nat) rest,
     (k < 12)%nat ->
     lines_read k (stdin w) = Some rest ->
     get_me_a_line rest = LineError ->
     fst (main w argv) = Exit 1 /\ dispatches (snd (main w argv)) = []) /\
  (forall cfg,
     configuration w argv = Some cfg ->
     fopen_r w (restfile cfg) = None ->
     fst (main w argv) = Exit 3 /\ dispatches (snd (main w argv)) = []).
Proof.
  intros Hc. pose proof (command_line_done _ _ _ _ Hc) as ->.
  split; [|split].
  - intros Hi.
    assert (Hp : exists h', preamble w argv (host0 w) = Halted (Exit 4) h').
    { unfold preamble, bind. rewrite Hc. unfold init_opencl.
      destruct (Z.eqb_spec (InitOpenCLEnvironment w (nth 1 argv EmptyString))
                  CL_SUCCESS) as [E|_]; [contradiction|].
      eexists. reflexivity. }
    destruct Hp as (h' & Hp). split.
    + rewrite main_exit, main_body_preamble. unfold bind. rewrite Hp.
      reflexivity.
    + apply run_not_started. unfold configuration. rewrite Hp. exact I.
  - intros Hi k rest Hk Hl He.
    assert (Hp : exists h', preamble w argv (host0 w) = Halted (Exit 1) h').
    { unfold preamble, bind. rewrite Hc. unfold init_opencl.
      rewrite Hi, Z.eqb_refl. unfold ret.
      destruct (read_input_truncated n k (host0 w) rest Hk Hl He)
        as (h' & ->). eauto. }
    destruct Hp as (h' & Hp). split.
    + rewrite main_exit, main_body_preamble. unfold bind. rewrite Hp.
      reflexivity.
    + apply run_not_started. unfold configuration. rewrite Hp. exact I.
  - intros cfg Hcfg Hf. split.
    + destruct (configuration_preamble w _ _ Hcfg) as (h2 & Ep).
      rewrite main_exit, main_body_preamble. unfold bind. rewrite Ep.
      unfold simulate, bind.
      pose proof (setup_kernels w cfg h2) as Hs.
      destruct (setup w cfg h2) as [[] hs|e hs].
      * destruct Hs as [Hs _]. contradiction.
      * destruct Hs as [(-> & _) | (_ & Hs & _)];
          [reflexivity | contradiction].
    + apply run_not_started. rewrite Hcfg. exact Hf.
Qed.

End Claims.

(** ** The claims on concrete runs: two particles on the stand-in
    device, two workers. *)

(** C1, the claim as it was stated, fails: in a run of two steps the
    force evaluations of the loop are not preceded by a zero-fill. *)
Lemma zero_fill_missing_in_the_loop :
  zero_fill_before_each_force false
    (dispatches (snd (main (Standin.world_of "2" "1" Standin.sound)
                        (Example.argv_of "2")))) = false.
Proof. vm_compute. reflexivity. Qed.

(** C2, the claim as it was stated, fails for a print interval of 1:
    the frame of step 1 does not show a download of step 0. *)
Lemma interval_one_is_not_stale :
  configuration (Standin.world_of "2" "1" Standin.sound) (Example.argv_of "2")
    = Some (Example.parsed "2" "2" "1") /\
  nprint (Example.parsed "2" "2" "1") = 1 /\
  ~ one_step_stale (Standin.world_of "2" "1" Standin.sound)
      (Example.parsed "2" "2" "1")
      (snd (main (Standin.world_of "2" "1" Standin.sound)
              (Example.argv_of "2"))).
Proof.
  split; [vm_compute; reflexivity|]. split; [vm_compute; reflexivity|].
  intros H. apply stale_frames_lag in H. vm_compute in H. discriminate.
Qed.

Lemma frames_show_the_step_before_witness :
  configuration (Standin.world_of "4" "2" Standin.sound) (Example.argv_of "2")
    = Some (Example.parsed "2" "4" "2") /\
  2 <= nprint (Example.parsed "2" "4" "2") /\
  one_step_stale (Standin.world_of "4" "2" Standin.sound)
    (Example.parsed "2" "4" "2")
    (snd (main (Standin.world_of "4" "2" Standin.sound)
            (Example.argv_of "2"))).
Proof.
  assert (H1 : configuration (Standin.world_of "4" "2" Standin.sound)
                 (Example.argv_of "2") = Some (Example.parsed "2" "4" "2"))
    by (vm_compute; reflexivity).
  assert (H2 : 2 <= nprint (Example.parsed "2" "4" "2"))
    by (vm_compute; discriminate).
  split; [exact H1|]. split; [exact H2|].
  exact (frames_show_the_step_before _ _ _ H1 H2).
Defined.

Lemma interval_one_prints_its_own_step_witness :
  configuration (Standin.world_of "2" "1" Standin.sound) (Example.argv_of "2")
    = Some (Example.parsed "2" "2" "1") /\
  nprint (Example.parsed "2" "2" "1") = 1 /\
  same_step (Standin.world_of "2" "1" Standin.sound)
    (Example.parsed "2" "2" "1")
    (snd (main (Standin.world_of "2" "1" Standin.sound)
            (Example.argv_of "2"))).
Proof.
  assert (H1 : configuration (Standin.world_of "2" "1" Standin.sound)
                 (Example.argv_of "2") = Some (Example.parsed "2" "2" "1"))
    by (vm_compute; reflexivity).
  assert (H2 : nprint (Example.parsed "2" "2" "1") = 1)
    by (vm_compute; reflexivity).
  split; [exact H1|]. split; [exact H2|].
  exact (proj1 (proj2 (interval_one_prints_its_own_step _ _ _ H1 H2))).
Defined.

Lemma zero_workers_are_accepted_witness :
  ("0" = "0" \/ no_leading_digit "0") /\
  (forall h : host Q, command_line ["ljmd-cl.x"; "cpu"; "0"] h = Done 0 h) /\
  (forall e g,
     In e (snd (main (Standin.world_of "2" "1" Standin.sound)
                  ["ljmd-cl.x"; "cpu"; "0"])) ->
     work_size e = Some g -> g = 0).
Proof.
  assert (H : "0" = "0" \/ no_leading_digit "0") by (left; reflexivity).
  split; [exact H|].
  pose proof (zero_workers_are_accepted
                (Standin.world_of "2" "1" Standin.sound)
                "ljmd-cl.x" "cpu" "0" H) as (H1 & _ & H3).
  split; [exact H1 | exact H3].
Defined.

Lemma fatal_errors_set_the_exit_status_witness :
  command_line (Example.argv_of "2")
    (host0 (Example.without_files (Standin.world_of "1" "1" Standin.sound)))
  = Done 2
      (host0 (Example.without_files (Standin.world_of "1" "1" Standin.sound)))
  /\
  fst (main (Example.without_files (Standin.world_of "1" "1" Standin.sound))
         (Example.argv_of "2")) = Exit 3.
Proof.
  assert (H : command_line (Example.argv_of "2")
    (host0 (Example.without_files (Standin.world_of "1" "1" Standin.sound)))
    = Done 2
      (host0 (Example.without_files (Standin.world_of "1" "1" Standin.sound))))
    by reflexivity.
  split; [exact H|].
  refine (proj1 (proj2 (proj2 (fatal_errors_set_the_exit_status _ _ _ _ H))
                   (Example.parsed "2" "1" "1") _ _)).
  - vm_compute. reflexivity.
  - reflexivity.
Defined.

(** ** Where the code departs from the claims *)

(** C5. A thread count of 0 is not a positive integer, yet the command
    line accepts it: no message, no exit; on the stand-in device the run
    goes on to dispatch its kernels and ends with status 0. *)
Theorem thread_count_zero_is_not_refused :
  (forall h : host Q, command_line (Example.argv_of "0") h = Done 0 h) /\
  fst (main (Standin.world_of "1" "1" Standin.sound) (Example.argv_of "0"))
    = Exit 0 /\
  dispatches
    (snd (main (Standin.world_of "1" "1" Standin.sound) (Example.argv_of "0")))
    = [opencl_azzero; opencl_force; opencl_ekin;
       opencl_verlet_first; opencl_force; opencl_verlet_second; opencl_ekin].
Proof.
  split; [intros h; reflexivity|]. split; vm_compute; reflexivity.
Qed.

(** C6. A result that is overwritten before any checkpoint looks at it:
    with a print interval of 1 the dispatch of the first half-step fails
    in step 1, the download of the positions assigns over its status, all
    checkpoints of the step see [CL_SUCCESS], and the run ends with
    status 0. *)
Theorem failed_dispatch_is_overwritten :
  fst (main (Standin.world_of "1" "1"
               (Standin.failing
                  (clEnqueueNDRangeKernel opencl_verlet_first 2) 1))
         (Example.argv_of "2")) = Exit 0 /\
  filter failed_call
    (snd (main (Standin.world_of "1" "1"
                  (Standin.failing
                     (clEnqueueNDRangeKernel opencl_verlet_first 2) 1))
            (Example.argv_of "2")))
    = [DeviceCall (clEnqueueNDRangeKernel opencl_verlet_first 2) 1
         Standin.CL_OUT_OF_RESOURCES] /\
  checked
    (snd (main (Standin.world_of "1" "1"
                  (Standin.failing
                     (clEnqueueNDRangeKernel opencl_verlet_first 2) 1))
            (Example.argv_of "2")))
    = [CL_SUCCESS; CL_SUCCESS; CL_SUCCESS; CL_SUCCESS;
       CL_SUCCESS; CL_SUCCESS; CL_SUCCESS].
Proof.
  split; [|split]; vm_compute; reflexivity.
Qed.


(** * Further properties of the driver *)

Local Open Scope string_scope.
Local Open Scope list_scope.
Local Open Scope Z_scope.

(** ** [get_me_a_line] *)

Section Lines.

Local Open Scope nat_scope.

Lemma fgets_chunk_app n inp :
  (fst (fgets_chunk n inp) ++ snd (fgets_chunk n inp))%string = inp.
Proof.
  revert inp. induction n as [|n IH]; intros [|c r]; simpl; try reflexivity.
  destruct (Ascii.eqb c newline); simpl; [reflexivity|].
  specialize (IH r). destruct (fgets_chunk n r) as [l rest]. simpl in *.
  rewrite IH. reflexivity.
Qed.

Lemma fgets_chunk_length n inp :
  String.length (fst (fgets_chunk n inp)) <= n.
Proof.
  revert inp. induction n as [|n IH]; intros [|c r]; simpl; try lia.
  destruct (Ascii.eqb c newline); simpl; [lia|].
  specialize (IH r). destruct (fgets_chunk n r) as [l rest]. simpl in *. lia.
Qed.

Lemma fgets_chunk_nonempty n c r :
  1 <= String.length (fst (fgets_chunk (S n) (String c r))).
Proof.
  simpl. destruct (Ascii.eqb c newline); simpl; [lia|].
  destruct (fgets_chunk n r). simpl. lia.
Qed.

(** A chunk stops behind a newline, at its size, or where the input ends;
    it has no newline before its last byte. *)
Lemma fgets_chunk_stops n inp :
  let chunk := fst (fgets_chunk n inp) in
  ((exists a, chunk = (a ++ String newline "")%string) \/
   String.length chunk = n \/ snd (fgets_chunk n inp) = "") /\
  (forall a b, chunk = (a ++ String newline b)%string -> b = "").
Proof.
  revert inp. induction n as [|n IH]; intros [|c r]; simpl.
  - split; [right; left; reflexivity|]. intros [|] ?; discriminate.
  - split; [right; left; reflexivity|]. intros [|] ?; discriminate.
  - split; [right; right; reflexivity|]. intros [|] ?; discriminate.
  - destruct (Ascii.eqb_spec c newline) as [->|Hc]; simpl.
    + split; [left; exists ""; reflexivity|].
      intros [|x a] b E; simpl in E.
      * injection E as <-. reflexivity.
      * injection E as _ E. destruct a; discriminate.
    + specialize (IH r). destruct (fgets_chunk n r) as [l rest].
      simpl in *. destruct IH as [IH1 IH2]. split.
      * destruct IH1 as [(a & ->) | [E | E]].
        -- left. exists (String c a). reflexivity.
        -- right; left. lia.
        -- right; right. exact E.
      * intros [|x a] b E; simpl in E.
        -- injection E as E _. congruence.
        -- injection E as _ E. eapply IH2. exact E.
Qed.

Lemma c_str_length s : String.length (c_str s) <= String.length s.
Proof.
  induction s as [|c r IH]; simpl; [lia|].
  destruct (Ascii.eqb c NUL); simpl; lia.
Qed.

Lemma c_str_free s : free_of NUL (c_str s).
Proof.
  unfold free_of. induction s as [|c r IH]; simpl; [tauto|].
  destruct (Ascii.eqb_spec c NUL) as [->|Hc]; simpl; [tauto|].
  intros [E|E]; [congruence | tauto].
Qed.

Lemma cut_at_length d s : String.length (cut_at d s) <= String.length s.
Proof.
  induction s as [|c r IH]; simpl; [lia|].
  destruct (Ascii.eqb c d); simpl; lia.
Qed.

Lemma cut_at_free d s : free_of d (cut_at d s).
Proof.
  unfold free_of. induction s as [|c r IH]; simpl; [tauto|].
  destruct (Ascii.eqb_spec c d) as [->|Hc]; simpl; [tauto|].
  intros [E|E]; [congruence | tauto].
Qed.

Lemma cut_at_keeps d x s : free_of x s -> free_of x (cut_at d s).
Proof.
  unfold free_of. induction s as [|c r IH]; simpl; [tauto|].
  destruct (Ascii.eqb c d); simpl; [tauto|].
  intros H [E|E]; [tauto|]. apply IH; tauto.
Qed.

(** What the strip loop returns is what it was given, less white space
    at the near end. *)
Lemma strip_backwards_suffix r out :
  strip_backwards r = Some out ->
  exists sp, r = sp ++ out /\ Forall (fun c => isspace c = true) sp.
Proof.
  induction r as [|c r IH]; simpl; [discriminate|].
  destruct (isspace c) eqn:E.
  - intros H. destruct (IH H) as (sp & -> & Hsp).
    exists (c :: sp). split; [reflexivity|]. constructor; assumption.
  - intros H; injection H as <-. exists []. split; [reflexivity|constructor].
Qed.

Lemma string_of_list_app a b :
  string_of_list_ascii (a ++ b)
  = (string_of_list_ascii a ++ string_of_list_ascii b)%string.
Proof. induction a as [|c a IH]; simpl; [reflexivity|]. rewrite IH. reflexivity. Qed.

Lemma list_of_string_app a b :
  list_ascii_of_string (a ++ b)%string
  = list_ascii_of_string a ++ list_ascii_of_string b.
Proof. induction a as [|c a IH]; simpl; [reflexivity|]. rewrite IH. reflexivity. Qed.

Lemma list_of_string_length s :
  List.length (list_ascii_of_string s) = String.length s.
Proof. induction s as [|c r IH]; simpl; [reflexivity|]. rewrite IH. reflexivity. Qed.

(** [strip_trailing]: the result with a tail of white space is the
    argument, and the result ends in a byte that is no white space. *)
Lemma strip_trailing_shape tmp out :
  strip_trailing tmp = Some out ->
  (exists sp, tmp = (out ++ sp)%string /\ blank sp) /\ ends_in_text out.
Proof.
  unfold strip_trailing.
  destruct (strip_backwards (rev (list_ascii_of_string tmp))) as [r|] eqn:E;
    [|discriminate].
  intros H; injection H as <-.
  destruct (strip_backwards_suffix _ _ E) as (sp & Hr & Hsp).
  destruct (strip_backwards_shape _ _ E) as (c & rest & -> & Hc).
  split.
  - exists (string_of_list_ascii (rev sp)). split.
    + rewrite <- string_of_list_app, <- rev_app_distr, <- Hr, rev_involutive.
      symmetry. apply string_of_list_ascii_of_string.
    + unfold blank. rewrite list_ascii_of_string_of_list_ascii.
      apply Forall_rev. exact Hsp.
  - exists (string_of_list_ascii (rev rest)), c. split; [|exact Hc].
    simpl. rewrite string_of_list_app. reflexivity.
Qed.

Lemma free_of_app x a b :
  free_of x (a ++ b)%string <-> free_of x a /\ free_of x b.
Proof.
  unfold free_of. rewrite list_of_string_app, in_app_iff. tauto.
Qed.

Lemma blank_app a b : blank (a ++ b)%string <-> blank a /\ blank b.
Proof. unfold blank. rewrite list_of_string_app. apply Forall_app. Qed.

Lemma string_app_length a b :
  String.length (a ++ b)%string = String.length a + String.length b.
Proof. induction a as [|c a IH]; simpl; [reflexivity|]. rewrite IH. reflexivity. Qed.

Lemma string_app_assoc a b c : ((a ++ b) ++ c = a ++ (b ++ c))%string.
Proof. induction a as [|x a IH]; simpl; [reflexivity|]. rewrite IH. reflexivity. Qed.

Lemma string_app_nil a : (a ++ "")%string = a.
Proof. induction a as [|x a IH]; simpl; [reflexivity|]. rewrite IH. reflexivity. Qed.

Lemma space_is_no_mark c :
  isspace c = true -> c <> NUL /\ c <> hash.
Proof.
  intros H. split; intros ->; discriminate.
Qed.

Lemma strip_backwards_blank r :
  Forall (fun c => isspace c = true) r -> strip_backwards r = None.
Proof.
  induction 1 as [|c r Hc _ IH]; simpl; [reflexivity|]. rewrite Hc. exact IH.
Qed.

Lemma strip_trailing_blank s : blank s -> strip_trailing s = None.
Proof.
  unfold blank, strip_trailing. intros H.
  rewrite strip_backwards_blank; [reflexivity|]. apply Forall_rev, H.
Qed.

Lemma strip_backwards_app sp r c :
  Forall (fun c => isspace c = true) sp -> isspace c = false ->
  strip_backwards (sp ++ c :: r) = Some (c :: r).
Proof.
  induction 1 as [|x sp Hx _ IH]; simpl; intros Hc.
  - rewrite Hc. reflexivity.
  - rewrite Hx. apply IH, Hc.
Qed.

Lemma strip_trailing_app v sp :
  ends_in_text v -> blank sp -> strip_trailing (v ++ sp)%string = Some v.
Proof.
  intros (front & c & -> & Hc) Hsp. unfold strip_trailing.
  rewrite !list_of_string_app, !rev_app_distr. simpl.
  rewrite strip_backwards_app; [|apply Forall_rev, Hsp|exact Hc].
  simpl. rewrite rev_involutive, string_of_list_app.
  rewrite string_of_list_ascii_of_string. reflexivity.
Qed.

(** A line shorter than the chunk is read through its newline. *)
Lemma fgets_chunk_line n line rest :
  free_of newline line -> String.length line + 1 <= n ->
  fgets_chunk n (line ++ String newline rest) = ((line ++ String newline "")%string, rest).
Proof.
  revert n. induction line as [|c r IH]; intros n Hf Hn.
  - destruct n as [|n]; [simpl in Hn; lia|]. reflexivity.
  - destruct n as [|n]; [simpl in Hn; lia|]. simpl.
    destruct (Ascii.eqb_spec c newline) as [->|Hc].
    + exfalso. apply Hf. simpl. auto.
    + rewrite IH; [reflexivity| |simpl in Hn; lia].
      intros H. apply Hf. simpl. auto.
Qed.

Lemma cut_c_str_app s t :
  free_of NUL s -> free_of hash s ->
  cut_at hash (c_str (s ++ t)) = (s ++ cut_at hash (c_str t))%string.
Proof.
  unfold free_of. induction s as [|c r IH]; simpl; intros H0 H1; [reflexivity|].
  destruct (Ascii.eqb_spec c NUL) as [->|Hc]; [tauto|]. simpl.
  destruct (Ascii.eqb_spec c hash) as [->|Hh]; [tauto|].
  rewrite IH; tauto.
Qed.

Lemma blank_free s : blank s -> free_of NUL s /\ free_of hash s.
Proof.
  unfold blank, free_of. induction 1 as [|c r Hc _ [IH0 IH1]]; simpl; [tauto|].
  destruct (space_is_no_mark c Hc) as [A B].
  split; intros [E|E]; try tauto; congruence.
Qed.

(** The chunk read from a line of white space that a [#] or a newline
    ends is white space once the comment is cut. *)
Lemma blank_chunk n ws d tail :
  blank ws -> d = hash \/ d = newline ->
  blank (cut_at hash (c_str (fst (fgets_chunk n (ws ++ String d tail))))).
Proof.
  unfold blank. intros Hws Hd. revert n.
  induction ws as [|c r IH]; intros [|n]; try (simpl; constructor).
  - simpl. destruct Hd as [-> | ->].
    + replace (Ascii.eqb hash newline) with false by reflexivity.
      destruct (fgets_chunk n tail). simpl. constructor.
    + simpl. constructor; [reflexivity|constructor].
  - simpl in Hws. inversion Hws as [|? ? Hc Hr]; subst.
    destruct (space_is_no_mark c Hc) as [A B]. simpl.
    destruct (Ascii.eqb_spec c newline) as [->|Hn]; simpl.
    + constructor; [reflexivity|constructor].
    + specialize (IH Hr n).
      destruct (fgets_chunk n (r ++ String d tail)) as [l rest]. simpl in *.
      destruct (Ascii.eqb_spec c NUL) as [->|_]; [congruence|]. simpl.
      destruct (Ascii.eqb_spec c hash) as [->|_]; [congruence|]. simpl.
      constructor; assumption.
Qed.

End Lines.

Section LineReader.

Local Open Scope nat_scope.

Lemma get_me_a_line_read fp buf rest :
  get_me_a_line fp = LineRead buf rest ->
  fp <> "" /\ rest = snd (fgets_chunk (BLEN - 1) fp) /\
  strip_trailing (cut_at hash (c_str (fst (fgets_chunk (BLEN - 1) fp))))
  = Some buf.
Proof.
  unfold get_me_a_line, fgets. destruct fp as [|c r]; [discriminate|].
  destruct (fgets_chunk (BLEN - 1) (String c r)) as [chunk rest0].
  cbv zeta. simpl fst. simpl snd.
  destruct (strip_trailing (cut_at hash (c_str chunk))) as [tmp|];
    [|discriminate].
  intros H. injection H as <- <-. repeat split. discriminate.
Qed.

(** X1. What [get_me_a_line] delivers has no [#] in it and no NUL, is not
    empty, does not end in white space, and with its terminating NUL
    fits an array of [BLEN] bytes, so that [strcpy(buf,tmp)] stays inside
    the caller's buffer. *)
Theorem delivered_line_is_clean (fp buf rest : string) :
  get_me_a_line fp = LineRead buf rest ->
  free_of hash buf /\ free_of NUL buf /\ ends_in_text buf /\
  String.length buf < BLEN.
Proof.
  intros H. apply get_me_a_line_read in H as (_ & _ & H).
  apply strip_trailing_shape in H as ((sp & E & _) & Ht).
  pose proof (cut_at_free hash
                (c_str (fst (fgets_chunk (BLEN - 1) fp)))) as H1.
  pose proof (cut_at_keeps hash NUL _
                (c_str_free (fst (fgets_chunk (BLEN - 1) fp)))) as H2.
  pose proof (cut_at_length hash
                (c_str (fst (fgets_chunk (BLEN - 1) fp)))) as L1.
  pose proof (c_str_length (fst (fgets_chunk (BLEN - 1) fp))) as L2.
  pose proof (fgets_chunk_length (BLEN - 1) fp) as L3.
  rewrite E in H1, H2, L1. rewrite string_app_length in L1.
  apply free_of_app in H1 as [H1 _]. apply free_of_app in H2 as [H2 _].
  repeat split; try assumption.
  unfold BLEN in *. lia.
Qed.

(** X2. A call that returns 0 takes one chunk off the front of the
    stream: at least one byte and at most [BLEN - 1]; the chunk ends
    behind the first newline, or at [BLEN - 1] bytes, or with the
    stream, and has no newline before its last byte. *)
Theorem each_call_consumes_one_chunk (fp buf rest : string) :
  get_me_a_line fp = LineRead buf rest ->
  exists chunk,
    fp = (chunk ++ rest)%string /\
    1 <= String.length chunk <= BLEN - 1 /\
    ((exists a, chunk = (a ++ String newline "")%string) \/
     String.length chunk = BLEN - 1 \/ rest = "") /\
    (forall a b, chunk = (a ++ String newline b)%string -> b = "").
Proof.
  intros H. apply get_me_a_line_read in H as (Hne & -> & _).
  exists (fst (fgets_chunk (BLEN - 1) fp)).
  split; [symmetry; apply fgets_chunk_app|].
  split.
  - split; [|apply fgets_chunk_length].
    destruct fp as [|c r]; [congruence|].
    change (BLEN - 1) with (S 198). apply fgets_chunk_nonempty.
  - apply fgets_chunk_stops.
Qed.

(** X3. A line that holds white space only, up to its newline or up to
    a comment, makes the strip loop run off the front of [tmp]: it reads
    [tmp[-1]], which C leaves undefined. *)
Theorem blank_line_reads_outside_the_buffer (ws tail : string) (d : ascii) :
  blank ws -> d = hash \/ d = newline ->
  get_me_a_line (ws ++ String d tail) = LineUndefined.
Proof.
  intros Hws Hd. unfold get_me_a_line, fgets.
  pose proof (blank_chunk (BLEN - 1) ws d tail Hws Hd) as Hb.
  destruct (ws ++ String d tail)%string as [|c r] eqn:E.
  { destruct ws; discriminate. }
  destruct (fgets_chunk (BLEN - 1) (String c r)) as [chunk rest].
  cbv zeta. simpl fst in Hb. rewrite (strip_trailing_blank _ Hb). reflexivity.
Qed.

(** X4. A well-formed line is delivered as its value: the value [v]
    (no [#], NUL or newline in it, not ending in white space), then
    blanks, then nothing or a comment, then the newline, all within
    [BLEN - 1] bytes, gives [v] and leaves the stream behind the
    newline. Blanks in front of the value are part of [v]. *)
Theorem value_line_is_delivered (v pad tail rest : string) :
  ends_in_text v ->
  free_of hash v -> free_of NUL v -> free_of newline v ->
  blank pad -> free_of newline pad ->
  (tail = "" \/ exists comment, tail = String hash comment) ->
  free_of newline tail ->
  String.length v + String.length pad + String.length tail + 1 <= BLEN - 1 ->
  get_me_a_line (v ++ pad ++ tail ++ String newline rest) = LineRead v rest.
Proof.
  intros Hv Hh H0 Hn Hp Hpn Ht Htn Hl.
  assert (Hline : free_of newline (v ++ pad ++ tail)%string)
    by (rewrite !free_of_app; tauto).
  assert (Hlen : String.length (v ++ pad ++ tail)%string + 1 <= BLEN - 1)
    by (rewrite !string_app_length; lia).
  pose proof (fgets_chunk_line (BLEN - 1) _ rest Hline Hlen) as Hc.
  rewrite !string_app_assoc in Hc.
  unfold get_me_a_line, fgets.
  destruct (v ++ pad ++ tail ++ String newline rest)%string as [|c r] eqn:E.
  { destruct Hv as (front & x & -> & _). destruct front; discriminate. }
  rewrite Hc. cbv zeta.
  destruct (blank_free pad Hp) as [Hp0 Hph].
  assert (Hcut : exists sp,
            cut_at hash (c_str (v ++ pad ++ tail ++ String newline ""))
            = (v ++ sp)%string /\ blank sp).
  { rewrite (cut_c_str_app v _ H0 Hh), (cut_c_str_app pad _ Hp0 Hph).
    destruct Ht as [-> | (comment & ->)].
    - exists (pad ++ String newline "")%string. split; [reflexivity|].
      apply blank_app. split; [exact Hp|].
      constructor; [reflexivity|constructor].
    - exists pad. split.
      + simpl. rewrite string_app_nil. reflexivity.
      + exact Hp. }
  destruct Hcut as (sp & -> & Hsp).
  rewrite (strip_trailing_app v sp Hv Hsp). reflexivity.
Qed.

End LineReader.

Lemma delivered_line_is_clean_witness :
  get_me_a_line ("108  # natoms" ++ String newline "39.948")
    = LineRead "108" "39.948" /\
  free_of hash "108" /\ (String.length "108" < BLEN)%nat.
Proof.
  assert (H : get_me_a_line ("108  # natoms" ++ String newline "39.948")
              = LineRead "108" "39.948") by reflexivity.
  split; [exact H|].
  destruct (delivered_line_is_clean _ _ _ H) as (H1 & _ & _ & H4).
  split; [exact H1 | exact H4].
Defined.

Lemma each_call_consumes_one_chunk_witness :
  get_me_a_line ("108  # natoms" ++ String newline "39.948")
    = LineRead "108" "39.948" /\
  exists chunk,
    ("108  # natoms" ++ String newline "39.948")%string
      = (chunk ++ "39.948")%string /\
    (1 <= String.length chunk <= BLEN - 1)%nat /\
    ((exists a, chunk = (a ++ String newline "")%string) \/
     String.length chunk = (BLEN - 1)%nat \/ "39.948" = "") /\
    (forall a b, chunk = (a ++ String newline b)%string -> b = "").
Proof.
  assert (H : get_me_a_line ("108  # natoms" ++ String newline "39.948")
              = LineRead "108" "39.948") by reflexivity.
  split; [exact H|].
  exact (each_call_consumes_one_chunk _ _ _ H).
Defined.

Lemma blank_line_reads_outside_the_buffer_witness :
  blank "   " /\
  get_me_a_line ("   " ++ String newline "39.948") = LineUndefined.
Proof.
  assert (H : blank "   ") by (repeat constructor).
  split; [exact H|].
  exact (blank_line_reads_outside_the_buffer "   " "39.948" newline H
           (or_intror eq_refl)).
Defined.

Lemma value_line_is_delivered_witness :
  ends_in_text " 108" /\ blank "  " /\
  get_me_a_line (" 108" ++ "  " ++ "# natoms" ++ String newline "39.948")
  = LineRead " 108" "39.948".
Proof.
  assert (H1 : ends_in_text " 108").
  { exists " 10", "8"%char. split; reflexivity. }
  assert (H2 : blank "  ") by (repeat constructor).
  split; [exact H1|]. split; [exact H2|].
  apply (value_line_is_delivered " 108" "  " "# natoms" "39.948" H1).
  - intros H; simpl in H; repeat destruct H as [H|H]; discriminate || exact H.
  - intros H; simpl in H; repeat destruct H as [H|H]; discriminate || exact H.
  - intros H; simpl in H; repeat destruct H as [H|H]; discriminate || exact H.
  - exact H2.
  - intros H; simpl in H; repeat destruct H as [H|H]; discriminate || exact H.
  - right. exists " natoms". reflexivity.
  - intros H; simpl in H; repeat destruct H as [H|H]; discriminate || exact H.
  - unfold BLEN. simpl. lia.
Defined.

(** ** The command line and the input script *)

Section CommandLine.

Context {F : Type} {fp : FPTYPE F}.
Variable w : world F.

(** X5. A thread count that [strtol] and the conversion to [int] make
    negative is refused: the program prints its message and the usage,
    and exits with status 1; the device is not initialized and nothing is
    read from the input. *)
Theorem negative_thread_count_is_refused (prog device count : string) :
  to_int (strtol count) < 0 ->
  main w [prog; device; count] =
    (Exit 1,
     [Stderr usage; Stderr ". The number of threads must be more than 1."]).
Proof.
  intros H. unfold main, main_body, bind, command_line.
  apply Z.ltb_lt in H. rewrite H. reflexivity.
Qed.

(** X6. With no argument, or with more than two, the program prints the
    usage and exits with status 1, and does nothing else. *)
Theorem wrong_argument_count_prints_usage (argv : list string) :
  List.length argv <> 2%nat -> List.length argv <> 3%nat ->
  main w argv = (Exit 1, [Stderr usage]).
Proof.
  intros H2 H3.
  destruct argv as [|a0 [|a1 [|a2 [|a3 r]]]]; simpl in H2, H3;
    try congruence; reflexivity.
Qed.

(** X7. With the device name as the only argument the run has 16
    workers on ["cpu"] and 1024 on anything else: this is the thread
    count of its configuration and the global work size of every kernel
    it dispatches. *)
Theorem default_thread_counts (prog device : string) :
  (forall cfg, configuration w [prog; device] = Some cfg ->
     nthreads cfg = if String.eqb device "cpu" then 16 else 1024) /\
  (forall k g s st,
     In (DeviceCall (clEnqueueNDRangeKernel k g) s st)
        (snd (main w [prog; device])) ->
     g = if String.eqb device "cpu" then 16 else 1024).
Proof.
  assert (Hc : command_line [prog; device] (host0 w)
               = Done (if String.eqb device "cpu" then 16 else 1024) (host0 w))
    by reflexivity.
  split.
  - intros cfg Hcfg.
    destruct (configuration_preamble w _ _ Hcfg) as (h2 & Ep).
    exact (preamble_nthreads w _ _ _ _ _ _ Hc Ep).
  - intros k g s st Hin.
    pose proof (run_sized w _ _ _ Hc) as Hs.
    rewrite Forall_forall in Hs. exact (Hs _ Hin g eq_refl).
Qed.

(** X8. Whatever the command line gives as thread count is the global
    work size of every kernel dispatch of the run, in the set-up and in
    the loop, and the thread count of the configuration. *)
Theorem every_dispatch_uses_the_thread_count
  (argv : list string) (n : Z) (h1 : host F) :
  command_line argv (host0 w) = Done n h1 ->
  (forall cfg, configuration w argv = Some cfg -> nthreads cfg = n) /\
  (forall k g s st,
     In (DeviceCall (clEnqueueNDRangeKernel k g) s st) (snd (main w argv)) ->
     g = n).
Proof.
  intros Hc. split.
  - intros cfg Hcfg.
    destruct (configuration_preamble w _ _ Hcfg) as (h2 & Ep).
    exact (preamble_nthreads w _ _ _ _ _ _ Hc Ep).
  - intros k g s st Hin.
    pose proof (run_sized w _ _ _ Hc) as Hs.
    rewrite Forall_forall in Hs. exact (Hs _ Hin g eq_refl).
Qed.

(** X9. The input script is twelve lines in this order: number of
    atoms, mass, epsilon, sigma, cut-off radius, box length, restart
    file, trajectory file, energy file, number of steps, time step,
    print interval. When twelve lines can be read, [main] reads exactly
    those, prints nothing, and takes the thread count from the command
    line. *)
Theorem script_lines_in_order (n : Z) (h : host F) (rest : string) :
  lines_read 12 (input h) = Some rest ->
  exists cfg,
    read_input n h = Done cfg (set_input rest h) /\
    nthreads cfg = n /\
    option_map atoi (nth_line 0 (input h)) = Some (natoms cfg) /\
    option_map atof (nth_line 1 (input h)) = Some (mass cfg) /\
    option_map atof (nth_line 2 (input h)) = Some (epsilon cfg) /\
    option_map atof (nth_line 3 (input h)) = Some (sigma cfg) /\
    option_map atof (nth_line 4 (input h)) = Some (rcut cfg) /\
    option_map atof (nth_line 5 (input h)) = Some (box cfg) /\
    nth_line 6 (input h) = Some (restfile cfg) /\
    nth_line 7 (input h) = Some (trajfile cfg) /\
    nth_line 8 (input h) = Some (ergfile cfg) /\
    option_map atoi (nth_line 9 (input h)) = Some (nsteps cfg) /\
    option_map atof (nth_line 10 (input h)) = Some (dt cfg) /\
    option_map atoi (nth_line 11 (input h)) = Some (nprint cfg).
Proof.
  intros Hl. cbn [lines_read] in Hl.
  do 12 (match type of Hl with
         | context [match get_me_a_line ?s with _ => _ end] =>
             let E := fresh "E" in
             destruct (get_me_a_line s) as [? ?| |] eqn:E; try discriminate
         end).
  injection Hl as <-.
  eexists. split.
  { unfold read_input, bind, read_line.
    repeat match goal with
           | E : get_me_a_line _ = LineRead _ _ |- _ =>
               rewrite E; cbn [input set_input]
           end.
    reflexivity. }
  cbn [nthreads natoms mass epsilon sigma rcut box restfile trajfile ergfile
       nsteps dt nprint nth_line].
  repeat match goal with
         | E : get_me_a_line _ = LineRead _ _ |- _ => rewrite E
         end.
  repeat split.
Qed.

End CommandLine.

(** ** Whole runs *)

Section RunsMore.

Context {F : Type} {fp : FPTYPE F}.
Variable w : world F.

Lemma frames_of_app (a b : list (event F)) :
  frames_of (a ++ b) = frames_of a ++ frames_of b.
Proof.
  induction a as [|e a IH]; simpl; [reflexivity|].
  destruct e; simpl; rewrite IH; reflexivity.
Qed.

Lemma frames_of_quiet (evs : list (event F)) :
  Forall not_output evs -> frames_of evs = [].
Proof.
  induction 1 as [|e evs He _ IH]; simpl; [reflexivity|].
  destruct e; try exact IH. discriminate He.
Qed.

Lemma frames_of_extended (h h' : host F) :
  extends not_output h h' -> frames_of (log h') = frames_of (log h).
Proof.
  intros (evs & -> & Hf). rewrite frames_of_app, frames_of_quiet by exact Hf.
  reflexivity.
Qed.



Lemma boundaries_spec p k n s :
  In s (boundaries p k n) <->
  k <= s < k + Z.of_nat n /\ Z.rem s p = 0.
Proof.
  revert k. induction n as [|n IH]; intros k.
  - simpl. split; [tauto | lia].
  - cbn [boundaries]. rewrite in_app_iff, IH.
    destruct (Z.eqb_spec (Z.rem k p) 0) as [E|E]; simpl; split.
    + intros [[<-|[]] | [H1 H2]]; split; auto; lia.
    + intros [H1 H2].
      destruct (Z.eq_dec s k) as [->|Hne]; [left; left; reflexivity|].
      right. split; [lia | exact H2].
    + intros [[] | [H1 H2]]; split; auto; lia.
    + intros [H1 H2].
      destruct (Z.eq_dec s k) as [->|Hne]; [contradiction|].
      right. split; [lia | exact H2].
Qed.

Section WithConfig.

Variable cfg : config F.

Lemma not_output_setup : AdmitsSetup cfg (extends (not_output (F:=F))).
Proof. apply extends_setup; intros; reflexivity. Qed.

Lemma not_output_download :
  admits_download w cfg (extends (not_output (F:=F))).
Proof. apply extends_admits_download. intros; reflexivity. Qed.



(** The frame of step 0. *)
Lemma read_extends b n dst (h h1 : host F) st :
  read_buffer w b n dst h = Done st h1 -> extends not_output h h1.
Proof.
  unfold read_buffer, device_call. intros E. injection E as _ <-.
  destruct (cl_status w (clEnqueueReadBuffer b) (nfi h) =? CL_SUCCESS).
  - eexists [_; _]. split; [reflexivity|]. repeat constructor.
  - eexists [_]. split; [reflexivity|]. repeat constructor.
Qed.

Lemma first_frame_frames (h h' : host F) :
  first_frame w cfg h = Done tt h' ->
  exists o evs, log h' = Output o :: evs ++ log h /\ Forall not_output evs.
Proof.
  unfold first_frame. intros E.
  apply bind_done in E as ([] & h1 & E1 & E).
  apply bind_done in E as ([] & h2 & E2 & E).
  apply bind_done in E as ([] & h3 & E3 & E).
  unfold assign in E1. apply bind_done in E1 as (s1 & g1 & E1 & M1).
  unfold or_assign in E2, E3.
  apply bind_done in E2 as (s2 & g2 & E2 & M2).
  apply bind_done in E3 as (s3 & g3 & E3 & M3).
  apply read_extends in E1 as (e1 & L1 & F1).
  apply read_extends in E2 as (e2 & L2 & F2).
  apply read_extends in E3 as (e3 & L3 & F3).
  unfold modify in M1, M2, M3.
  injection M1 as <-. injection M2 as <-. injection M3 as <-.
  unfold output, emit, modify in E.
  destruct (erg w cfg && traj w cfg)%bool; [|discriminate].
  injection E as <-.
  simpl in *. eexists; exists (e3 ++ e2 ++ e1). split.
  - rewrite L3, L2, L1, <- !app_assoc. reflexivity.
  - repeat (apply Forall_app; split); assumption.
Qed.

Lemma setup_unfold :
  setup w cfg =
  bind (allocate w cfg) (fun _ =>
  bind (read_restart w cfg) (fun _ =>
  bind (initial_forces w cfg) (fun _ =>
  bind (initial_ekin w cfg) (fun _ => first_frame w cfg)))).
Proof. reflexivity. Qed.

Lemma simulate_unfold :
  simulate w cfg =
  bind (setup w cfg) (fun _ =>
  bind (modify (set_nfi 1)) (fun _ =>
  md_loop w cfg (Z.to_nat (nsteps cfg)))).
Proof. reflexivity. Qed.

Lemma md_step_unfold :
  md_step w cfg =
  bind (propagate w cfg) (fun _ => at_boundary cfg (write_output w cfg)).
Proof. reflexivity. Qed.

Lemma md_loop_unfold n :
  md_loop w cfg (S n) =
  bind (md_step w cfg) (fun _ =>
  bind (modify (fun h => set_nfi (nfi h + 1) h)) (fun _ =>
  md_loop w cfg n)).
Proof. reflexivity. Qed.

Lemma propagate_unfold :
  propagate w cfg =
  bind (verlet_first w cfg) (fun _ =>
  bind (before_boundary cfg (download_positions w cfg)) (fun _ =>
  bind (force w cfg) (fun _ =>
  bind (before_boundary cfg (download_epot w cfg)) (fun _ =>
  bind (verlet_second w cfg) (fun _ =>
  before_boundary cfg (ekin_and_download w cfg)))))).
Proof. reflexivity. Qed.

Lemma setup_frames argv (h2 hs : host F) :
  preamble w argv (host0 w) = Done cfg h2 ->
  setup w cfg h2 = Done tt hs ->
  nfi hs = 0 /\ frames_of (log hs) = [0].
Proof.
  intros Ep Es.
  assert (Hb : nfi (final (setup w cfg h2)) = 0 /\
               Forall initial (log (final (setup w cfg h2))))
    by exact (before_the_loop w cfg argv h2 Ep).
  rewrite Es in Hb. change (final (Done tt hs)) with hs in Hb.
  destruct Hb as [Hn Hi].
  split; [exact Hn|].
  assert (H2 : frames_of (log h2) = []).
  { pose proof (steps_preamble w (extends not_output)
                  (fun msg h => extends_event _ (Stderr msg) h eq_refl)
                  argv (host0 w)) as Hp.
    rewrite Ep in Hp. apply frames_of_extended in Hp. exact Hp. }
  pose proof not_output_setup as AS.
  pose proof not_output_download as HD.
  rewrite setup_unfold in Es.
  apply bind_done in Es as ([] & h3 & E3 & Es).
  apply bind_done in Es as ([] & h4 & E4 & Es).
  apply bind_done in Es as ([] & h5 & E5 & Es).
  apply bind_done in Es as ([] & h6 & E6 & Es).
  apply (steps_done _ _ _ _ _ (steps_allocate w cfg _)) in E3.
  apply (steps_done _ _ _ _ _ (steps_read_restart w cfg _)) in E4.
  apply (steps_done _ _ _ _ _ (steps_initial_forces w cfg _ HD)) in E5.
  apply (steps_done _ _ _ _ _ (steps_initial_ekin w cfg _ HD)) in E6.
  apply frames_of_extended in E3, E4, E5, E6.
  destruct (first_frame_frames _ _ Es) as (o & evs & L & Hf).
  rewrite L in Hi. apply Forall_inv in Hi.
  change (o_nfi o = 0) in Hi.
  rewrite L. cbn [frames_of]. rewrite frames_of_app, frames_of_quiet by exact Hf.
  cbn [app]. rewrite E6, E5, E4, E3, H2, Hi. reflexivity.
Qed.

Lemma md_step_frames (h h' : host F) :
  md_step w cfg h = Done tt h' ->
  nfi h' = nfi h /\
  frames_of (log h') =
    (if Z.rem (nfi h) (nprint cfg) =? 0 then [nfi h] else [])
    ++ frames_of (log h).
Proof.
  rewrite md_step_unfold. intros E.
  apply bind_done in E as ([] & h1 & E1 & E).
  pose proof (steps_done _ _ _ _ _ (propagate_stamped w cfg (nfi h)) E1 eq_refl)
    as (Hn & evs & L & Hf).
  assert (H1 : frames_of (log h1) = frames_of (log h)).
  { rewrite L, frames_of_app, frames_of_quiet; [reflexivity|].
    eapply Forall_impl; [|exact Hf]. apply stamped_not_output. }
  unfold at_boundary, bind, nfi_mod in E.
  destruct (nprint cfg =? 0); [discriminate|].
  rewrite Hn in E.
  destruct (Z.rem (nfi h) (nprint cfg) =? 0).
  - destruct (erg w cfg && traj w cfg)%bool eqn:Eo.
    2:{ destruct (write_output_stuck w cfg h1 Eo) as (h1' & Ew & _).
        rewrite Ew in E. discriminate. }
    destruct (write_output_frame w cfg h1 Eo) as (h1' & Ew & Lw & Nw & _).
    rewrite Ew in E. injection E as <-.
    split; [congruence|]. rewrite Lw. simpl. rewrite Hn, H1. reflexivity.
  - injection E as <-. split; [exact Hn | exact H1].
Qed.

Lemma md_loop_frames n (h h' : host F) :
  md_loop w cfg n h = Done tt h' ->
  frames_of (log h') =
    rev (boundaries (nprint cfg) (nfi h) n) ++ frames_of (log h).
Proof.
  revert h. induction n as [|n IH]; intros h E.
  - injection E as <-. reflexivity.
  - rewrite md_loop_unfold in E.
    apply bind_done in E as ([] & h1 & E1 & E).
    apply bind_done in E as ([] & h2 & E2 & E).
    injection E2 as <-.
    apply md_step_frames in E1 as [Hn Hf].
    apply IH in E. rewrite E. cbn [boundaries nfi set_nfi log].
    rewrite Hn, Hf, rev_app_distr, <- app_assoc. f_equal.
    destruct (Z.rem (nfi h) (nprint cfg) =? 0); reflexivity.
Qed.

End WithConfig.

Lemma completed_run_frames
  (argv : list string) (cfg : config F) (hf : host F) :
  configuration w argv = Some cfg ->
  main_body w argv (host0 w) = Done tt hf ->
  frame_steps (snd (main w argv))
  = 0 :: boundaries (nprint cfg) 1 (Z.to_nat (nsteps cfg)).
Proof.
  intros Hc Hm.
  apply configuration_preamble in Hc as (h2 & Ep).
  unfold main. rewrite Hm. simpl.
  rewrite main_body_preamble in Hm. unfold bind in Hm. rewrite Ep in Hm.
  rewrite simulate_unfold in Hm.
  apply bind_done in Hm as ([] & hs & Es & Hm).
  apply bind_done in Hm as ([] & h1 & E1 & Hm).
  injection E1 as <-.
  destruct (setup_frames cfg argv h2 hs Ep Es) as [Hn Hf].
  apply md_loop_frames in Hm. unfold frame_steps. rewrite Hm.
  cbn [nfi set_nfi log]. rewrite Hf, rev_app_distr, rev_involutive.
  reflexivity.
Qed.

(** X11. A run that reaches the end of [main] has printed the frame of
    step 0 and then one frame at every step from 1 to [nsteps] that the
    print interval divides, in this order, and no other frame. *)
Theorem frames_at_the_boundaries
  (argv : list string) (cfg : config F) (hf : host F) :
  configuration w argv = Some cfg ->
  main_body w argv (host0 w) = Done tt hf ->
  frame_steps (snd (main w argv))
  = 0 :: boundaries (nprint cfg) 1 (Z.to_nat (nsteps cfg)) /\
  (forall s, In s (boundaries (nprint cfg) 1 (Z.to_nat (nsteps cfg))) <->
             1 <= s <= nsteps cfg /\ Z.rem s (nprint cfg) = 0).
Proof.
  intros Hc Hm. split.
  - exact (completed_run_frames argv cfg hf Hc Hm).
  - intros s. rewrite boundaries_spec. split; intros [H1 H2]; split; auto; lia.
Qed.

End RunsMore.

Section Outcomes.

Context {F : Type} {fp : FPTYPE F}.
Variable w : world F.
Variable cfg : config F.

Lemma first_frame_unfold :
  first_frame w cfg =
  bind (assign (read_buffer w rx (Z.to_nat (natoms cfg)) buffers_0)) (fun _ =>
  bind (or_assign (read_buffer w ry (Z.to_nat (natoms cfg)) buffers_1)) (fun _ =>
  bind (or_assign (read_buffer w rz (Z.to_nat (natoms cfg)) buffers_2)) (fun _ =>
  output w cfg (erg w cfg) (traj w cfg)))).
Proof. reflexivity. Qed.

(** On a device whose calls all succeed, the set-up ends with a zero
    [status]. *)
Lemma setup_status (h hs : host F) :
  device_sound w -> setup w cfg h = Done tt hs -> status hs = 0.
Proof.
  intros Hs E. rewrite setup_unfold in E.
  apply bind_done in E as ([] & h3 & _ & E).
  apply bind_done in E as ([] & h4 & _ & E).
  apply bind_done in E as ([] & h5 & _ & E).
  apply bind_done in E as ([] & h6 & _ & E).
  rewrite first_frame_unfold in E.
  apply bind_done in E as ([] & g1 & E1 & E).
  apply bind_done in E as ([] & g2 & E2 & E).
  apply bind_done in E as ([] & g3 & E3 & E).
  unfold read_buffer in E1, E2, E3.
  rewrite (sound_assign w _ _ _ Hs) in E1.
  rewrite (sound_or_assign w _ _ _ Hs) in E2.
  rewrite (sound_or_assign w _ _ _ Hs) in E3.
  injection E1 as <-. injection E2 as <-. injection E3 as <-.
  unfold output, emit, modify in E.
  destruct (erg w cfg && traj w cfg)%bool; [|discriminate].
  injection E as <-. reflexivity.
Qed.


End Outcomes.

Section OutcomesOfRuns.

Context {F : Type} {fp : FPTYPE F}.
Variable w : world F.

Lemma main_body_done argv cfg (h2 : host F) :
  preamble w argv (host0 w) = Done cfg h2 ->
  main_body w argv (host0 w) = simulate w cfg h2.
Proof.
  intros Ep. rewrite main_body_preamble. unfold bind. rewrite Ep. reflexivity.
Qed.

Lemma setup_done cfg (h : host F) :
  fopen_r w (restfile cfg) <> None ->
  (erg w cfg && traj w cfg)%bool = true ->
  exists hs, setup w cfg h = Done tt hs.
Proof.
  intros Hf Ho. pose proof (setup_kernels w cfg h) as Hs.
  destruct (setup w cfg h) as [[] hs|e hs]; [eauto|].
  destruct Hs as [(_ & Hs & _) | (_ & _ & Hs & _)];
    [contradiction | congruence].
Qed.

Lemma files_open cfg :
  erg w cfg = true -> traj w cfg = true ->
  (erg w cfg && traj w cfg)%bool = true.
Proof. intros -> ->. reflexivity. Qed.


End OutcomesOfRuns.

(** ** What the checkpoints of an iteration see *)

Section Checkpoints.

Context {F : Type} {fp : FPTYPE F}.
Variable w : world F.
Variable cfg : config F.

Lemma or_assign_call_run c eff (h : host F) :
  (forall g, nfi (eff g) = nfi g) -> (forall g, status (eff g) = status g) ->
  exists h1,
    or_assign (device_call w c eff) h = Done tt h1 /\
    nfi h1 = nfi h /\
    status h1 = Z.lor (status h) (cl_status w c (nfi h)).
Proof.
  intros Hn Hs. unfold or_assign, bind, device_call, modify.
  eexists. split; [reflexivity|].
  destruct (cl_status w c (nfi h) =? CL_SUCCESS); simpl;
    rewrite ?Hn, ?Hs; split; reflexivity.
Qed.

Lemma assign_call_run c eff (h : host F) :
  (forall g, nfi (eff g) = nfi g) ->
  exists h1,
    assign (device_call w c eff) h = Done tt h1 /\
    nfi h1 = nfi h /\ status h1 = cl_status w c (nfi h).
Proof.
  intros Hn. unfold assign, bind, device_call, modify.
  eexists. split; [reflexivity|].
  destruct (cl_status w c (nfi h) =? CL_SUCCESS); simpl;
    rewrite ?Hn; split; reflexivity.
Qed.

(** Arguments, checkpoint, dispatch: the checkpoint sees the status
    accumulated so far or-ed with that of the arguments; behind the
    dispatch [status] is the status of the dispatch alone. *)
Lemma kick_run k l (h : host F) :
  let st := Z.lor (status h) (cl_status w (clSetMultKernelArgs k) (nfi h)) in
  match bind (or_assign (set_args w k))
          (fun _ => bind (CheckSuccess l)
                      (fun _ => assign (enqueue w cfg k))) h with
  | Done _ h1 =>
      st = 0 /\ nfi h1 = nfi h /\
      status h1 = cl_status w (clEnqueueNDRangeKernel k (nthreads cfg)) (nfi h)
  | Halted e h1 => e = CheckFailed l st /\ st <> 0 /\ nfi h1 = nfi h
  end.
Proof.
  cbv zeta. unfold bind at 1. unfold set_args.
  destruct (or_assign_call_run (clSetMultKernelArgs k) (fun g => g) h)
    as (h1 & -> & N1 & S1); try reflexivity.
  unfold bind at 1. rewrite check_run.
  destruct (Z.eqb_spec (status h1) CL_SUCCESS) as [E|E].
  - unfold enqueue.
    destruct (assign_call_run
                (clEnqueueNDRangeKernel k (nthreads cfg))
                (fun g => set_dev (cl_kernel w k (kernel_args cfg)
                                     (nthreads cfg) (dev g)) g)
                (add_event (Check l (status h1)) h1))
      as (h2 & -> & N2 & S2); try reflexivity.
    simpl in N2, S2. rewrite N1 in S2. rewrite <- S1.
    split; [exact E|]. split; [congruence | exact S2].
  - rewrite <- S1. split; [reflexivity|]. split; [exact E | exact N1].
Qed.

Lemma verlet_first_run (h : host F) :
  let st := Z.lor (status h)
              (cl_status w (clSetMultKernelArgs opencl_verlet_first) (nfi h)) in
  match verlet_first w cfg h with
  | Done _ h1 =>
      st = 0 /\ nfi h1 = nfi h /\
      status h1 = cl_status w (clEnqueueNDRangeKernel opencl_verlet_first
                                 (nthreads cfg)) (nfi h)
  | Halted e h1 => e = CheckFailed 2 st /\ st <> 0 /\ nfi h1 = nfi h
  end.
Proof. exact (kick_run opencl_verlet_first 2 h). Qed.

Lemma force_run (h : host F) :
  let st := Z.lor (status h)
              (cl_status w (clSetMultKernelArgs opencl_force) (nfi h)) in
  match force w cfg h with
  | Done _ h1 =>
      st = 0 /\ nfi h1 = nfi h /\
      status h1 = cl_status w (clEnqueueNDRangeKernel opencl_force
                                 (nthreads cfg)) (nfi h)
  | Halted e h1 => e = CheckFailed 3 st /\ st <> 0 /\ nfi h1 = nfi h
  end.
Proof. exact (kick_run opencl_force 3 h). Qed.

Lemma verlet_second_run (h : host F) :
  let st := Z.lor (status h)
              (cl_status w (clSetMultKernelArgs opencl_verlet_second) (nfi h)) in
  match verlet_second w cfg h with
  | Done _ h1 =>
      st = 0 /\ nfi h1 = nfi h /\
      status h1 = cl_status w (clEnqueueNDRangeKernel opencl_verlet_second
                                 (nthreads cfg)) (nfi h)
  | Halted e h1 => e = CheckFailed 4 st /\ st <> 0 /\ nfi h1 = nfi h
  end.
Proof. exact (kick_run opencl_verlet_second 4 h). Qed.

Lemma before_boundary_cases body (h : host F) :
  nprint cfg <> 0 ->
  before_boundary cfg body h =
  if Z.rem (nfi h) (nprint cfg) =? nprint cfg - 1 then body h else Done tt h.
Proof.
  intros Hn. unfold before_boundary, bind, nfi_mod.
  apply Z.eqb_neq in Hn. rewrite Hn.
  destruct (Z.rem (nfi h) (nprint cfg) =? nprint cfg - 1); reflexivity.
Qed.

(** A download: status, step, and what it leaves in the host array. *)
Lemma read_run b n dst (h : host F) :
  let st := cl_status w (clEnqueueReadBuffer b) (nfi h) in
  exists h1,
    read_buffer w b n dst h = Done st h1 /\
    nfi h1 = nfi h /\ status h1 = status h /\ dev h1 = dev h /\
    (st = 0 ->
     mem h1 = mem_store dst (blit (cells w 0 n (dev h b)) (mem h dst)) (mem h)).
Proof.
  cbv zeta. unfold read_buffer, device_call. eexists. split; [reflexivity|].
  destruct (Z.eqb_spec (cl_status w (clEnqueueReadBuffer b) (nfi h)) CL_SUCCESS)
    as [E|E]; simpl; repeat split; try reflexivity.
  intros E'. contradiction.
Qed.

Lemma assign_read_run b n dst (h : host F) :
  let st := cl_status w (clEnqueueReadBuffer b) (nfi h) in
  exists h1,
    assign (read_buffer w b n dst) h = Done tt h1 /\
    nfi h1 = nfi h /\ status h1 = st /\ dev h1 = dev h /\
    (st = 0 ->
     mem h1 = mem_store dst (blit (cells w 0 n (dev h b)) (mem h dst)) (mem h)).
Proof.
  cbv zeta. unfold assign, bind.
  destruct (read_run b n dst h) as (h1 & -> & N & S & D & M).
  unfold modify. eexists. split; [reflexivity|]. simpl. auto.
Qed.

Lemma or_assign_read_run b n dst (h : host F) :
  let st := cl_status w (clEnqueueReadBuffer b) (nfi h) in
  exists h1,
    or_assign (read_buffer w b n dst) h = Done tt h1 /\
    nfi h1 = nfi h /\ status h1 = Z.lor (status h) st /\ dev h1 = dev h /\
    (st = 0 ->
     mem h1 = mem_store dst (blit (cells w 0 n (dev h b)) (mem h dst)) (mem h)).
Proof.
  cbv zeta. unfold or_assign, bind.
  destruct (read_run b n dst h) as (h1 & -> & N & S & D & M).
  unfold modify. eexists. split; [reflexivity|]. simpl.
  rewrite S. auto.
Qed.

Lemma cells_cells n (a : list F) : cells w 0 n (cells w 0 n a) = cells w 0 n a.
Proof.
  apply map_ext_in. intros i Hi. apply in_seq in Hi.
  unfold at_index. simpl. apply (cells_at w 0 n a i). lia.
Qed.

Lemma agree_blit n (a old : list F) : agree w n (blit (cells w 0 n a) old) a.
Proof.
  unfold agree. rewrite cells_blit by apply cells_length. apply cells_cells.
Qed.

Lemma download_positions_unfold :
  download_positions w cfg =
  bind (assign (read_buffer w rx (Z.to_nat (natoms cfg)) buffers_0)) (fun _ =>
  bind (or_assign (read_buffer w ry (Z.to_nat (natoms cfg)) buffers_1)) (fun _ =>
  bind (or_assign (read_buffer w rz (Z.to_nat (natoms cfg)) buffers_2)) (fun _ =>
  CheckSuccess 6))).
Proof. reflexivity. Qed.

Lemma download_positions_run (h : host F) :
  let s b := cl_status w (clEnqueueReadBuffer b) (nfi h) in
  match download_positions w cfg h with
  | Done _ h' =>
      (s rx = 0 /\ s ry = 0 /\ s rz = 0) /\
      status h' = 0 /\ nfi h' = nfi h /\ dev h' = dev h /\
      agree w (Z.to_nat (natoms cfg)) (mem h' buffers_0) (dev h rx) /\
      agree w (Z.to_nat (natoms cfg)) (mem h' buffers_1) (dev h ry) /\
      agree w (Z.to_nat (natoms cfg)) (mem h' buffers_2) (dev h rz)
  | Halted e h' =>
      e = CheckFailed 6 (Z.lor (Z.lor (s rx) (s ry)) (s rz)) /\
      (s rx <> 0 \/ s ry <> 0 \/ s rz <> 0) /\ nfi h' = nfi h
  end.
Proof.
  cbv zeta. rewrite download_positions_unfold.
  unfold bind at 1.
  destruct (assign_read_run rx (Z.to_nat (natoms cfg)) buffers_0 h)
    as (h1 & -> & N1 & S1 & D1 & M1).
  unfold bind at 1.
  destruct (or_assign_read_run ry (Z.to_nat (natoms cfg)) buffers_1 h1)
    as (h2 & -> & N2 & S2 & D2 & M2).
  unfold bind at 1.
  destruct (or_assign_read_run rz (Z.to_nat (natoms cfg)) buffers_2 h2)
    as (h3 & -> & N3 & S3 & D3 & M3).
  rewrite check_run.
  rewrite N2, N1 in S3, M3. rewrite N1 in S2, M2.
  rewrite S2, S1 in S3.
  destruct (Z.eqb_spec (status h3) CL_SUCCESS) as [E|E].
  - rewrite S3 in E. apply lor_zero in E as [E E3].
    apply lor_zero in E as [E1 E2].
    split; [auto|]. simpl.
    split; [rewrite S3, E1, E2, E3; reflexivity|].
    split; [congruence|]. split; [congruence|].
    rewrite (M3 E3), (M2 E2), (M1 E1), D2, D1. simpl.
    repeat split; apply agree_blit.
  - simpl. rewrite S3. split; [reflexivity|]. split; [|congruence].
    rewrite S3 in E. unfold CL_SUCCESS in E.
    destruct (Z.eq_dec (cl_status w (clEnqueueReadBuffer rx) (nfi h)) 0)
      as [A|A]; [|tauto].
    destruct (Z.eq_dec (cl_status w (clEnqueueReadBuffer ry) (nfi h)) 0)
      as [B|B]; [|tauto].
    right; right. intros C. apply E. rewrite A, B, C. reflexivity.
Qed.

(** X13. The download of the positions is always checked: checkpoint 6
    is passed exactly when the three read-backs of this step returned
    [CL_SUCCESS], whatever [status] held before, and then the host
    arrays [buffers[0..2]] hold the first [natoms] cells of the device
    buffers [rx], [ry], [rz]; otherwise the run stops there with the
    three statuses or-ed together. *)
Theorem position_download_is_checked (h : host F) :
  match download_positions w cfg h with
  | Done _ h' =>
      (cl_status w (clEnqueueReadBuffer rx) (nfi h) = 0 /\
       cl_status w (clEnqueueReadBuffer ry) (nfi h) = 0 /\
       cl_status w (clEnqueueReadBuffer rz) (nfi h) = 0) /\
      status h' = 0 /\ nfi h' = nfi h /\ dev h' = dev h /\
      agree w (Z.to_nat (natoms cfg)) (mem h' buffers_0) (dev h rx) /\
      agree w (Z.to_nat (natoms cfg)) (mem h' buffers_1) (dev h ry) /\
      agree w (Z.to_nat (natoms cfg)) (mem h' buffers_2) (dev h rz)
  | Halted e h' =>
      e = CheckFailed 6
            (Z.lor (Z.lor (cl_status w (clEnqueueReadBuffer rx) (nfi h))
                      (cl_status w (clEnqueueReadBuffer ry) (nfi h)))
               (cl_status w (clEnqueueReadBuffer rz) (nfi h))) /\
      (cl_status w (clEnqueueReadBuffer rx) (nfi h) <> 0 \/
       cl_status w (clEnqueueReadBuffer ry) (nfi h) <> 0 \/
       cl_status w (clEnqueueReadBuffer rz) (nfi h) <> 0) /\
      nfi h' = nfi h
  end.
Proof. exact (download_positions_run h). Qed.

End Checkpoints.

Section Failures.

Context {F : Type} {fp : FPTYPE F}.
Variable w : world F.
Variable cfg : config F.

Lemma bind_halted {A B} (m : M F A) (k : A -> M F B) (h h' : host F) e :
  m h = Halted e h' -> bind m k h = Halted e h'.
Proof. unfold bind. intros ->. reflexivity. Qed.

Lemma download_epot_unfold :
  download_epot w cfg =
  bind (or_assign (read_buffer w epot_buffer (Z.to_nat (nthreads cfg)) tmp_epot))
    (fun _ => CheckSuccess 7).
Proof. reflexivity. Qed.

Lemma download_epot_run (h : host F) :
  let st := Z.lor (status h)
              (cl_status w (clEnqueueReadBuffer epot_buffer) (nfi h)) in
  match download_epot w cfg h with
  | Done _ h' => st = 0 /\ nfi h' = nfi h /\ status h' = 0
  | Halted e h' => e = CheckFailed 7 st /\ st <> 0 /\ nfi h' = nfi h
  end.
Proof.
  cbv zeta. rewrite download_epot_unfold. unfold bind at 1.
  destruct (or_assign_read_run w epot_buffer (Z.to_nat (nthreads cfg))
              tmp_epot h) as (h1 & -> & N1 & S1 & _).
  rewrite check_run. rewrite <- S1.
  destruct (Z.eqb_spec (status h1) CL_SUCCESS) as [E|E]; simpl; auto.
Qed.

(** From the force evaluation on: a failed dispatch of the force kernel
    stops the iteration at checkpoint 3, 7 or 4. *)
Lemma force_failure_is_caught (h h2 : host F) :
  nprint cfg <> 0 ->
  cl_status w (clEnqueueNDRangeKernel opencl_force (nthreads cfg)) (nfi h) <> 0 ->
  nfi h2 = nfi h ->
  exists l st h',
    bind (force w cfg) (fun _ =>
    bind (before_boundary cfg (download_epot w cfg)) (fun _ =>
    bind (verlet_second w cfg) (fun _ =>
    before_boundary cfg (ekin_and_download w cfg)))) h2
    = Halted (CheckFailed l st) h' /\ st <> 0 /\ In l [3; 7; 4].
Proof.
  intros Hn Hs N2. unfold bind at 1.
  pose proof (force_run w cfg h2) as V. cbv zeta in V.
  destruct (force w cfg h2) as [[] h3|e h3].
  2:{ destruct V as (-> & V & _). do 3 eexists.
      split; [reflexivity|]. split; [exact V | simpl; tauto]. }
  destruct V as (_ & N3 & S3). rewrite N2 in S3.
  unfold bind at 1. rewrite (before_boundary_cases cfg _ _ Hn).
  destruct (Z.rem (nfi h3) (nprint cfg) =? nprint cfg - 1).
  - pose proof (download_epot_run h3) as D. cbv zeta in D.
    destruct (download_epot w cfg h3) as [[] h4|e h4].
    + destruct D as (D & _). apply lor_zero in D as [D _]. congruence.
    + destruct D as (-> & D & _). do 3 eexists.
      split; [reflexivity|]. split; [exact D | simpl; tauto].
  - unfold bind at 1.
    pose proof (verlet_second_run w cfg h3) as V. cbv zeta in V.
    destruct (verlet_second w cfg h3) as [[] h4|e h4].
    + destruct V as (V & _). apply lor_zero in V as [V _]. congruence.
    + destruct V as (-> & V & _). do 3 eexists.
      split; [reflexivity|]. split; [exact V | simpl; tauto].
Qed.

(** X14. A failed dispatch of the force kernel never goes unnoticed:
    when [clEnqueueNDRangeKernel] returns an error for the force kernel
    in some step, the iteration of that step stops at a checkpoint (2, 6
    or 3 before the dispatch is reached; 7 in the step before an output
    boundary, 4 otherwise) with a status that is not [CL_SUCCESS]. *)
Theorem failed_force_dispatch_is_caught (h : host F) :
  nprint cfg <> 0 ->
  cl_status w (clEnqueueNDRangeKernel opencl_force (nthreads cfg)) (nfi h) <> 0 ->
  exists l st h',
    md_step w cfg h = Halted (CheckFailed l st) h' /\
    st <> 0 /\ In l [2; 6; 3; 7; 4].
Proof.
  intros Hn Hs.
  assert (Hp : exists l st h',
             propagate w cfg h = Halted (CheckFailed l st) h' /\
             st <> 0 /\ In l [2; 6; 3; 7; 4]).
  { rewrite propagate_unfold. unfold bind at 1.
    pose proof (verlet_first_run w cfg h) as V. cbv zeta in V.
    destruct (verlet_first w cfg h) as [[] h1|e h1].
    2:{ destruct V as (-> & V & _). do 3 eexists.
        split; [reflexivity|]. split; [exact V | simpl; tauto]. }
    destruct V as (_ & N1 & _).
    unfold bind at 1. rewrite (before_boundary_cases cfg _ _ Hn).
    destruct (Z.rem (nfi h1) (nprint cfg) =? nprint cfg - 1).
    - pose proof (download_positions_run w cfg h1) as D. cbv zeta in D.
      destruct (download_positions w cfg h1) as [[] h2|e h2].
      + destruct D as (_ & _ & N2 & _).
        destruct (force_failure_is_caught h h2 Hn Hs) as (l & st & h' & E & Hst & Hl);
          [congruence|].
        exists l, st, h'. split; [exact E|]. split; [exact Hst|].
        simpl in *. tauto.
      + destruct D as (-> & D & _). do 3 eexists.
        split; [reflexivity|]. split; [|simpl; tauto].
        intros Z0. apply lor_zero in Z0 as [Z0 Z3].
        apply lor_zero in Z0 as [Z1 Z2]. tauto.
    - destruct (force_failure_is_caught h h1 Hn Hs N1)
        as (l & st & h' & E & Hst & Hl).
      exists l, st, h'. split; [exact E|]. split; [exact Hst|].
      simpl in *. tauto. }
  destruct Hp as (l & st & h' & E & Hst & Hl).
  exists l, st, h'. split; [|auto].
  rewrite md_step_unfold. apply bind_halted, E.
Qed.

(** With a print interval of 0 an iteration gets as far as the first
    dispatch and then divides by zero. *)
Lemma propagate_zero_interval (h : host F) :
  nprint cfg = 0 ->
  exists h',
    extends not_output h h' /\
    ((propagate w cfg h = Halted Undefined h' /\
      Z.lor (status h)
        (cl_status w (clSetMultKernelArgs opencl_verlet_first) (nfi h)) = 0) \/
     exists st, st <> 0 /\
       st = Z.lor (status h)
              (cl_status w (clSetMultKernelArgs opencl_verlet_first) (nfi h)) /\
       propagate w cfg h = Halted (CheckFailed 2 st) h').
Proof.
  intros Hn.
  pose proof (propagate_stamped w cfg (nfi h) h eq_refl) as (_ & evs & L & Hf).
  assert (Hx : extends not_output h (final (propagate w cfg h))).
  { exists evs. split; [exact L|].
    eapply Forall_impl; [|exact Hf]. apply stamped_not_output. }
  clear L Hf.
  assert (E : exists h',
    (propagate w cfg h = Halted Undefined h' /\
      Z.lor (status h)
        (cl_status w (clSetMultKernelArgs opencl_verlet_first) (nfi h)) = 0) \/
     exists st, st <> 0 /\
       st = Z.lor (status h)
              (cl_status w (clSetMultKernelArgs opencl_verlet_first) (nfi h)) /\
       propagate w cfg h = Halted (CheckFailed 2 st) h').
  { pose proof (verlet_first_run w cfg h) as V. cbv zeta in V.
    destruct (verlet_first w cfg h) as [[] h1|e h1] eqn:Ev.
    - destruct V as (V & _). exists h1. left. split; [|exact V].
      rewrite propagate_unfold. unfold bind at 1. rewrite Ev.
      unfold bind at 1. unfold before_boundary at 1.
      unfold bind at 1. unfold nfi_mod. rewrite Hn. reflexivity.
    - destruct V as (-> & V & _). exists h1. right. eexists.
      split; [exact V|]. split; [reflexivity|].
      rewrite propagate_unfold. apply bind_halted, Ev. }
  destruct E as (h' & E). exists h'. split; [|exact E].
  destruct E as [[E _] | (st & _ & _ & E)]; rewrite E in Hx; exact Hx.
Qed.

End Failures.

Section EdgesOfRuns.

Context {F : Type} {fp : FPTYPE F}.
Variable w : world F.



(** X16. With a print interval of 0 and at least one step, the first
    iteration evaluates [sys.nfi % nprint] with [nprint] equal to 0,
    which C leaves undefined, right behind the dispatch of the first
    half-step; the only other way the run can end is at checkpoint 2
    just before (or, undefined as well, in the first call of [output]
    when an output file could not be created). On a device whose calls
    all succeed the run ends undefined. When the output files could be
    created, the frame of step 0 has been printed, and no other. *)
Theorem zero_interval_is_undefined (argv : list string) (cfg : config F) :
  configuration w argv = Some cfg ->
  fopen_r w (restfile cfg) <> None ->
  nprint cfg = 0 -> 1 <= nsteps cfg ->
  (fst (main w argv) = Undefined \/
   exists st, st <> 0 /\ fst (main w argv) = CheckFailed 2 st) /\
  (device_sound w -> fst (main w argv) = Undefined) /\
  (erg w cfg = true -> traj w cfg = true ->
   frame_steps (snd (main w argv)) = [0]).
Proof.
  intros Hc Hf Hn Hs.
  destruct (configuration_preamble w _ _ Hc) as (h2 & Ep).
  destruct (erg w cfg && traj w cfg)%bool eqn:Eo.
  2:{ assert (Hm : exists hs, main_body w argv (host0 w)
                              = Halted Undefined hs).
      { pose proof (setup_kernels w cfg h2) as Hk.
        rewrite (main_body_done w _ _ _ Ep), simulate_unfold.
        unfold bind at 1.
        destruct (setup w cfg h2) as [[] hs|e hs].
        - destruct Hk as (_ & Hk & _). congruence.
        - destruct Hk as [(_ & Hk & _) | (-> & _)]; [contradiction|].
          eauto. }
      destruct Hm as (hs & Hm).
      split; [left; rewrite main_exit, Hm; reflexivity|].
      split; [intros _; rewrite main_exit, Hm; reflexivity|].
      intros He Ht. rewrite (files_open w cfg He Ht) in Eo. discriminate. }
  destruct (setup_done w cfg h2 Hf Eo) as (hs & Es).
  destruct (setup_frames w cfg argv h2 hs Ep Es) as [_ Fs].
  destruct (Z.to_nat (nsteps cfg)) as [|n] eqn:N0; [lia|].
  destruct (propagate_zero_interval w cfg (set_nfi 1 hs) Hn)
    as (h' & Hx & Hp).
  assert (Hm : forall e, propagate w cfg (set_nfi 1 hs) = Halted e h' ->
                         main_body w argv (host0 w) = Halted e h').
  { intros e E. rewrite (main_body_done w _ _ _ Ep), simulate_unfold.
    unfold bind at 1. rewrite Es. unfold bind at 1. unfold modify.
    rewrite N0, md_loop_unfold. apply bind_halted.
    rewrite md_step_unfold. apply bind_halted. exact E. }
  assert (Hfr : frames_of (log h') = [0]).
  { rewrite (frames_of_extended _ _ Hx). exact Fs. }
  split; [|split].
  - destruct Hp as [[E _] | (st & Hst & _ & E)].
    + left. rewrite main_exit, (Hm _ E). reflexivity.
    + right. exists st. split; [exact Hst|].
      rewrite main_exit, (Hm _ E). reflexivity.
  - intros Hd. destruct Hp as [[E _] | (st & Hst & Est & E)].
    + rewrite main_exit, (Hm _ E). reflexivity.
    + exfalso. apply Hst. rewrite Est.
      change (status (set_nfi 1 hs)) with (status hs).
      rewrite (setup_status w cfg h2 hs Hd Es), (Hd _ _). reflexivity.
  - intros _ _.
    assert (E : exists e, main_body w argv (host0 w) = Halted e h').
    { destruct Hp as [[E _] | (st & _ & _ & E)]; eexists; apply Hm, E. }
    destruct E as (e & E). unfold main. rewrite E. unfold frame_steps.
    simpl. rewrite Hfr. reflexivity.
Qed.

End EdgesOfRuns.

(** ** The host arrays and the frames *)

Section Memory.

Context {F : Type} {fp : FPTYPE F}.
Variable w : world F.
Variable cfg : config F.

#[local] Instance follows_stable : Stable (memory_follows_downloads (F:=F)).
Proof.
  constructor.
  - intros h. exists []. split; reflexivity.
  - intros a b c (e1 & L1 & M1) (e2 & L2 & M2). exists (e2 ++ e1). split.
    + rewrite L2, L1. apply app_assoc.
    + intros Hf. apply Forall_app in Hf as [H2 H1].
      rewrite (M2 H2). apply M1, H1.
  - intros v h. exists []. split; reflexivity.
  - intros v h. exists []. split; reflexivity.
  - intros v h. exists []. split; reflexivity.
  - intros v h. exists []. split; reflexivity.
  - intros v h. exists []. split; reflexivity.
  - intros v h. exists []. split; reflexivity.
Qed.

Lemma follows_event (e : event F) (h : host F) :
  memory_follows_downloads h (add_event e h).
Proof. exists [e]. split; reflexivity. Qed.

#[local] Instance follows_admits : Admits cfg (memory_follows_downloads (F:=F)).
Proof. constructor; intros; apply follows_event. Qed.

Lemma follows_download : admits_download w cfg (memory_follows_downloads (F:=F)).
Proof.
  intros b dst n _ h. eexists [_]. split; [reflexivity|].
  intros Hf. apply Forall_inv in Hf. discriminate Hf.
Qed.

Lemma follows_output : admits_output (memory_follows_downloads (F:=F)).
Proof. intros h o _. apply follows_event. Qed.

(** X17. An iteration that falls neither on an output boundary nor on
    the step before one downloads nothing, prints nothing and leaves the
    host arrays as they are, whether it runs to its end or stops at a
    checkpoint; when it runs to its end it has dispatched the first
    half-step, the force evaluation and the second half-step and nothing
    else. *)
Theorem steps_between_boundaries_transfer_nothing (h : host F) :
  Z.rem (nfi h) (nprint cfg) <> nprint cfg - 1 ->
  Z.rem (nfi h) (nprint cfg) <> 0 ->
  mem (final (md_step w cfg h)) = mem h /\
  nfi (final (md_step w cfg h)) = nfi h /\
  (exists evs, log (final (md_step w cfg h)) = evs ++ log h /\
               Forall no_transfer evs) /\
  (forall h', md_step w cfg h = Done tt h' ->
     timeline (log h') =
       timeline (log h) ++
       [Dispatch opencl_verlet_first; Dispatch opencl_force;
        Dispatch opencl_verlet_second]).
Proof.
  intros Hb H0.
  assert (Hf : final (md_step w cfg h) = final (propagate w cfg h)).
  { rewrite md_step_unfold, bind_final.
    pose proof (propagate_quiet w cfg (nfi h) Hb h eq_refl) as [Hn _].
    destruct (propagate w cfg h) as [[] h1|e h1]; [|reflexivity].
    simpl in Hn.
    change (final (at_boundary cfg (write_output w cfg) h1) = h1).
    apply at_boundary_skipped. rewrite Hn. exact H0. }
  rewrite Hf.
  pose proof (propagate_quiet w cfg (nfi h) Hb h eq_refl)
    as (Hn & evs & L & Hq).
  pose proof (steps_propagate w cfg memory_follows_downloads
                follows_download h) as (evs' & L' & M).
  assert (evs' = evs) as ->.
  { rewrite L in L'. apply app_inv_tail in L'. congruence. }
  split; [|split; [exact Hn|split]].
  - apply M. eapply Forall_impl; [|exact Hq]. intros e [_ He]. exact He.
  - exists evs. split; assumption.
  - intros h' E. pose proof (md_step_schedule w cfg h) as S.
    rewrite E in S. destruct S as [_ S]. rewrite S. f_equal.
    unfold iteration. apply Z.eqb_neq in Hb, H0. rewrite Hb, H0.
    reflexivity.
Qed.

(** X18. A frame of the loop, the energy and trajectory files being
    open: [write_output] sums the [nthreads] potential-energy partials of
    [tmp_epot] and the kinetic-energy partials of [tmp_ekin] from
    [ZERO], scales the kinetic energy, and hands [output] the step, the
    two energies, their sum as total energy, and one line per atom with
    the coordinates found in the host arrays [buffers[0..2]]; it changes
    neither the host arrays, nor the device, nor [status]. *)
Theorem frame_shows_the_sums (h : host F) :
  erg w cfg = true -> traj w cfg = true ->
  exists h' o,
    write_output w cfg h = Done tt h' /\
    log h' = Output o :: log h /\
    o_nfi o = nfi h /\
    o_epot o = host_sum w ZERO (nthreads cfg) (mem h tmp_epot) /\
    o_ekin o = (host_sum w ZERO (nthreads cfg) (mem h tmp_ekin)
                * (HALF * mvsq2e * mass cfg))%fp /\
    o_etot o = (o_ekin o + o_epot o)%fp /\
    o_atoms o = map (fun i => (at_index w (mem h buffers_0) i,
                               at_index w (mem h buffers_1) i,
                               at_index w (mem h buffers_2) i))
                    (seq 0 (Z.to_nat (natoms cfg))) /\
    List.length (o_atoms o) = Z.to_nat (natoms cfg) /\
    mem h' = mem h /\ dev h' = dev h /\ status h' = status h /\
    nfi h' = nfi h.
Proof.
  intros He Ht.
  assert (Ho : (erg w cfg && traj w cfg)%bool = true)
    by (rewrite He, Ht; reflexivity).
  destruct (write_output_frame w cfg h Ho) as (h' & E & L & N & M & D & S).
  exists h'. eexists. split; [exact E|]. split; [exact L|].
  simpl. rewrite length_map, length_seq. repeat split; assumption.
Qed.

End Memory.

(** ** The restart file *)

Section Restart.

Context {F : Type} {fp : FPTYPE F}.
Variable w : world F.
Variable cfg : config F.

Local Open Scope nat_scope.

Lemma at_index_blit (data old : list F) i :
  i < List.length data ->
  at_index w (blit data old) i = nth i data (indeterminate w).
Proof. intros Hi. unfold at_index, blit. apply app_nth1, Hi. Qed.

Lemma at_index_column (nums : list F) c j :
  j < 2 * Z.to_nat (natoms cfg) ->
  at_index w (column w cfg nums c) j = at_index w nums (3 * j + c).
Proof.
  intros Hj. unfold column. unfold at_index at 1.
  rewrite nth_indep with (d' := at_index w nums (3 * 0 + c))
    by (rewrite length_map, length_seq; exact Hj).
  rewrite (map_nth (fun i => at_index w nums (3 * i + c))).
  rewrite seq_nth by exact Hj. reflexivity.
Qed.

(** A block of a column of the file, written to a device buffer. *)
Lemma written_cell (nums old : list F) c off i :
  i < Z.to_nat (natoms cfg) ->
  off + Z.to_nat (natoms cfg) <= 2 * Z.to_nat (natoms cfg) ->
  at_index w (blit (cells w off (Z.to_nat (natoms cfg))
                      (column w cfg nums c)) old) i
  = at_index w nums (3 * (off + i) + c).
Proof.
  intros Hi Ho. rewrite at_index_blit by (rewrite cells_length; exact Hi).
  rewrite cells_at by exact Hi. apply at_index_column. lia.
Qed.

Lemma assign_write_run b n src off (h : host F) :
  device_sound w ->
  exists h1,
    assign (write_buffer w b n src off) h = Done tt h1 /\
    mem h1 = mem h /\
    dev h1 = dev_store b (blit (cells w off n (mem h src)) (dev h b)) (dev h).
Proof.
  intros Hs. unfold write_buffer. rewrite (sound_assign w _ _ _ Hs).
  eexists. split; [reflexivity|]. split; reflexivity.
Qed.

Lemma or_assign_write_run b n src off (h : host F) :
  device_sound w ->
  exists h1,
    or_assign (write_buffer w b n src off) h = Done tt h1 /\
    mem h1 = mem h /\
    dev h1 = dev_store b (blit (cells w off n (mem h src)) (dev h b)) (dev h).
Proof.
  intros Hs. unfold write_buffer. rewrite (sound_or_assign w _ _ _ Hs).
  eexists. split; [reflexivity|]. split; reflexivity.
Qed.

(** X19. The restart file is read as [2 * natoms] triples: the first
    [natoms] triples are the positions and go to the device buffers
    [rx], [ry], [rz], the next [natoms] triples are the velocities and
    go to [vx], [vy], [vz] (on a device whose calls succeed). *)
Theorem restart_holds_positions_then_velocities
  (h : host F) (nums : list F) :
  device_sound w ->
  fopen_r w (restfile cfg) = Some nums ->
  exists h',
    read_restart w cfg h = Done tt h' /\
    forall i, i < Z.to_nat (natoms cfg) ->
      at_index w (dev h' rx) i = at_index w nums (3 * i) /\
      at_index w (dev h' ry) i = at_index w nums (3 * i + 1) /\
      at_index w (dev h' rz) i = at_index w nums (3 * i + 2) /\
      at_index w (dev h' vx) i
        = at_index w nums (3 * (Z.to_nat (natoms cfg) + i)) /\
      at_index w (dev h' vy) i
        = at_index w nums (3 * (Z.to_nat (natoms cfg) + i) + 1) /\
      at_index w (dev h' vz) i
        = at_index w nums (3 * (Z.to_nat (natoms cfg) + i) + 2).
Proof.
  intros Hs Hf. unfold read_restart. rewrite Hf.
  unfold bind at 1. unfold modify at 1.
  set (h0 := set_mem _ h).
  assert (M0 : forall c s, In (c, s) [(0, buffers_0); (1, buffers_1); (2, buffers_2)] ->
                           mem h0 s = column w cfg nums c).
  { intros c s [E|[E|[E|[]]]]; injection E as <- <-; reflexivity. }
  clearbody h0.
  unfold bind at 1.
  destruct (assign_write_run rx (Z.to_nat (natoms cfg)) buffers_0 0 h0 Hs)
    as (h1 & -> & M1 & D1).
  unfold bind at 1.
  destruct (or_assign_write_run ry (Z.to_nat (natoms cfg)) buffers_1 0 h1 Hs)
    as (h2 & -> & M2 & D2).
  unfold bind at 1.
  destruct (or_assign_write_run rz (Z.to_nat (natoms cfg)) buffers_2 0 h2 Hs)
    as (h3 & -> & M3 & D3).
  unfold bind at 1.
  destruct (or_assign_write_run vx (Z.to_nat (natoms cfg)) buffers_0
              (Z.to_nat (natoms cfg)) h3 Hs) as (h4 & -> & M4 & D4).
  unfold bind at 1.
  destruct (or_assign_write_run vy (Z.to_nat (natoms cfg)) buffers_1
              (Z.to_nat (natoms cfg)) h4 Hs) as (h5 & -> & M5 & D5).
  destruct (or_assign_write_run vz (Z.to_nat (natoms cfg)) buffers_2
              (Z.to_nat (natoms cfg)) h5 Hs) as (h6 & -> & M6 & D6).
  exists h6. split; [reflexivity|]. intros i Hi.
  rewrite D6, D5, D4, D3, D2, D1. unfold dev_store. cbn [buffer_eqb].
  rewrite M5, M4, M3, M2, M1.
  rewrite (M0 0 buffers_0), (M0 1 buffers_1), (M0 2 buffers_2)
    by (cbn [In]; tauto).
  rewrite !written_cell by (try exact Hi; lia).
  repeat split; f_equal; lia.
Qed.

End Restart.

(** ** What the loop never does *)

Section LoopEvents.

Context {F : Type} {fp : FPTYPE F}.
Variable w : world F.
Variable cfg : config F.

Lemma loop_admits : Admits cfg (extends (loop_event (F:=F))).
Proof. constructor; intros; apply extends_event; exact I. Qed.

(** X20. The main loop, however many iterations it makes and wherever
    it stops, only sets kernel arguments, dispatches kernels, reads
    buffers back, runs checkpoints and prints frames: it creates no
    buffer, program or kernel, writes nothing to the device from the
    host, and prints nothing on [stderr]. *)
Theorem loop_only_dispatches_and_reads (n : nat) (h : host F) :
  exists evs,
    log (final (md_loop w cfg n h)) = evs ++ log h /\
    Forall loop_event evs.
Proof.
  pose proof loop_admits as AD.
  apply (steps_md_loop w cfg (extends loop_event)).
  - apply extends_admits_download. intros; exact I.
  - apply extends_admits_output. intros; exact I.
  - intros. apply extends_same. reflexivity.
Qed.

End LoopEvents.

(** ** The read-backs of the energies *)

Section EnergyDownloads.

Context {F : Type} {fp : FPTYPE F}.
Variable w : world F.
Variable cfg : config F.

Lemma ekin_and_download_unfold :
  ekin_and_download w cfg =
  bind (or_assign (set_args w opencl_ekin)) (fun _ =>
  bind (CheckSuccess 5) (fun _ =>
  bind (assign (enqueue w cfg opencl_ekin)) (fun _ =>
  bind (or_assign (read_buffer w ekin_buffer (Z.to_nat (nthreads cfg)) tmp_ekin))
    (fun _ => CheckSuccess 8)))).
Proof. reflexivity. Qed.

Lemma assign_enqueue_run k (h : host F) :
  let s := cl_status w (clEnqueueNDRangeKernel k (nthreads cfg)) (nfi h) in
  exists h1,
    assign (enqueue w cfg k) h = Done tt h1 /\
    nfi h1 = nfi h /\ status h1 = s /\ mem h1 = mem h /\
    (s = 0 ->
     dev h1 = cl_kernel w k (kernel_args cfg) (nthreads cfg) (dev h)).
Proof.
  cbv zeta. unfold assign, bind, enqueue, device_call, modify.
  eexists. split; [reflexivity|].
  destruct (Z.eqb_spec
              (cl_status w (clEnqueueNDRangeKernel k (nthreads cfg)) (nfi h))
              CL_SUCCESS) as [E|E]; simpl; repeat split; try reflexivity.
  intros E'. contradiction.
Qed.

Lemma or_assign_args_run k (h : host F) :
  exists h1,
    or_assign (set_args w k) h = Done tt h1 /\
    nfi h1 = nfi h /\
    status h1 = Z.lor (status h) (cl_status w (clSetMultKernelArgs k) (nfi h)) /\
    dev h1 = dev h /\ mem h1 = mem h.
Proof.
  unfold or_assign, bind, set_args, device_call, modify.
  eexists. split; [reflexivity|].
  destruct (cl_status w (clSetMultKernelArgs k) (nfi h) =? CL_SUCCESS);
    simpl; repeat split; reflexivity.
Qed.

(** X21. The read-backs of the energy partials are always checked.
    Checkpoint 7 is passed exactly when the status left by the force
    dispatch and the read-back of [epot_buffer] are both [CL_SUCCESS],
    and then [tmp_epot] holds the [nthreads] partials of the device.
    The kinetic-energy block passes checkpoints 5 and 8 exactly when the
    status before it, the arguments, the dispatch and the read-back are
    all [CL_SUCCESS], and then [tmp_ekin] holds the [nthreads] partials
    the kinetic-energy kernel has just left in [ekin_buffer]. *)
Theorem energy_downloads_are_checked (h : host F) :
  (match download_epot w cfg h with
   | Done _ h' =>
       status h = 0 /\
       cl_status w (clEnqueueReadBuffer epot_buffer) (nfi h) = 0 /\
       status h' = 0 /\ dev h' = dev h /\
       agree w (Z.to_nat (nthreads cfg)) (mem h' tmp_epot) (dev h epot_buffer)
   | Halted e h' =>
       e = CheckFailed 7
             (Z.lor (status h)
                (cl_status w (clEnqueueReadBuffer epot_buffer) (nfi h))) /\
       (status h <> 0 \/
        cl_status w (clEnqueueReadBuffer epot_buffer) (nfi h) <> 0)
   end) /\
  (match ekin_and_download w cfg h with
   | Done _ h' =>
       status h = 0 /\
       cl_status w (clSetMultKernelArgs opencl_ekin) (nfi h) = 0 /\
       cl_status w (clEnqueueNDRangeKernel opencl_ekin (nthreads cfg)) (nfi h)
         = 0 /\
       cl_status w (clEnqueueReadBuffer ekin_buffer) (nfi h) = 0 /\
       status h' = 0 /\
       dev h' = cl_kernel w opencl_ekin (kernel_args cfg) (nthreads cfg) (dev h)
       /\
       agree w (Z.to_nat (nthreads cfg)) (mem h' tmp_ekin) (dev h' ekin_buffer)
   | Halted e h' =>
       (e = CheckFailed 5
              (Z.lor (status h)
                 (cl_status w (clSetMultKernelArgs opencl_ekin) (nfi h))) /\
        (status h <> 0 \/
         cl_status w (clSetMultKernelArgs opencl_ekin) (nfi h) <> 0)) \/
       (e = CheckFailed 8
              (Z.lor
                 (cl_status w (clEnqueueNDRangeKernel opencl_ekin
                                 (nthreads cfg)) (nfi h))
                 (cl_status w (clEnqueueReadBuffer ekin_buffer) (nfi h))) /\
        (cl_status w (clEnqueueNDRangeKernel opencl_ekin (nthreads cfg))
           (nfi h) <> 0 \/
         cl_status w (clEnqueueReadBuffer ekin_buffer) (nfi h) <> 0))
   end).
Proof.
  assert (Hor : forall a b, Z.lor a b <> 0 -> a <> 0 \/ b <> 0).
  { intros a b H. destruct (Z.eq_dec a 0) as [->|Ha]; [|tauto].
    right. intros ->. apply H. reflexivity. }
  split.
  - rewrite download_epot_unfold. unfold bind at 1.
    destruct (or_assign_read_run w epot_buffer (Z.to_nat (nthreads cfg))
                tmp_epot h) as (h1 & -> & N1 & S1 & D1 & M1).
    rewrite check_run.
    destruct (Z.eqb_spec (status h1) CL_SUCCESS) as [E|E].
    + rewrite S1 in E. apply lor_zero in E as [E0 E1].
      split; [exact E0|]. split; [exact E1|]. simpl.
      split; [rewrite S1, E0, E1; reflexivity|]. split; [exact D1|].
      rewrite (M1 E1). simpl. apply agree_blit.
    + rewrite S1 in *. split; [reflexivity|]. apply Hor, E.
  - rewrite ekin_and_download_unfold. unfold bind at 1.
    destruct (or_assign_args_run opencl_ekin h)
      as (h1 & -> & N1 & S1 & D1 & M1).
    unfold bind at 1. rewrite check_run.
    destruct (Z.eqb_spec (status h1) CL_SUCCESS) as [E|E].
    2:{ left. rewrite S1 in *. split; [reflexivity|]. apply Hor, E. }
    rewrite S1 in E. apply lor_zero in E as [E0 E1].
    unfold bind at 1.
    destruct (assign_enqueue_run opencl_ekin
                (add_event (Check 5 (status h1)) h1))
      as (h2 & -> & N2 & S2 & M2 & D2).
    simpl in N2, S2, M2, D2. rewrite N1 in N2, S2, D2.
    unfold bind at 1.
    destruct (or_assign_read_run w ekin_buffer (Z.to_nat (nthreads cfg))
                tmp_ekin h2) as (h3 & -> & N3 & S3 & D3 & M3).
    rewrite N2 in S3, M3. rewrite S2 in S3.
    rewrite check_run.
    destruct (Z.eqb_spec (status h3) CL_SUCCESS) as [E'|E'].
    + rewrite S3 in E'. apply lor_zero in E' as [E2 E3].
      split; [exact E0|]. split; [exact E1|]. split; [exact E2|].
      split; [exact E3|]. simpl.
      split; [rewrite S3, E2, E3; reflexivity|].
      rewrite D3, (D2 E2), D1. split; [reflexivity|].
      rewrite (M3 E3). simpl. rewrite (D2 E2), D1. apply agree_blit.
    + right. rewrite S3 in *. split; [reflexivity|]. apply Hor, E'.
Qed.

End EnergyDownloads.

(** ** The properties above on concrete runs *)

Lemma negative_thread_count_is_refused_witness :
  to_int (strtol "-4") < 0 /\
  fst (main (Standin.world_of "2" "1" Standin.sound) (Example.argv_of "-4"))
  = Exit 1.
Proof.
  assert (H : to_int (strtol "-4") < 0) by (vm_compute; reflexivity).
  split; [exact H|].
  rewrite (negative_thread_count_is_refused
             (Standin.world_of "2" "1" Standin.sound)
             "ljmd-cl.x" "cpu" "-4" H).
  reflexivity.
Defined.

Lemma wrong_argument_count_prints_usage_witness :
  List.length ["ljmd-cl.x"] <> 2%nat /\
  main (Standin.world_of "2" "1" Standin.sound) ["ljmd-cl.x"]
  = (Exit 1, [Stderr usage]).
Proof.
  assert (H2 : List.length ["ljmd-cl.x"] <> 2%nat) by discriminate.
  assert (H3 : List.length ["ljmd-cl.x"] <> 3%nat) by discriminate.
  split; [exact H2|].
  exact (wrong_argument_count_prints_usage
           (Standin.world_of "2" "1" Standin.sound) ["ljmd-cl.x"] H2 H3).
Defined.

Lemma every_dispatch_uses_the_thread_count_witness :
  command_line (Example.argv_of "2")
    (host0 (Standin.world_of "2" "1" Standin.sound))
  = Done 2 (host0 (Standin.world_of "2" "1" Standin.sound)) /\
  forall k g s st,
    In (DeviceCall (clEnqueueNDRangeKernel k g) s st)
       (snd (main (Standin.world_of "2" "1" Standin.sound)
               (Example.argv_of "2"))) ->
    g = 2.
Proof.
  assert (H : command_line (Example.argv_of "2")
                (host0 (Standin.world_of "2" "1" Standin.sound))
              = Done 2 (host0 (Standin.world_of "2" "1" Standin.sound)))
    by reflexivity.
  split; [exact H|].
  exact (proj2 (every_dispatch_uses_the_thread_count _ _ _ _ H)).
Defined.

Lemma script_lines_in_order_witness :
  lines_read 12 (input (host0 (Standin.world_of "2" "1" Standin.sound)))
    = Some "" /\
  exists cfg,
    read_input 2 (host0 (Standin.world_of "2" "1" Standin.sound))
    = Done cfg (set_input "" (host0 (Standin.world_of "2" "1" Standin.sound)))
    /\ nth_line 6 (input (host0 (Standin.world_of "2" "1" Standin.sound)))
       = Some (restfile cfg).
Proof.
  assert (H : lines_read 12
                (input (host0 (Standin.world_of "2" "1" Standin.sound)))
              = Some "") by (vm_compute; reflexivity).
  split; [exact H|].
  destruct (script_lines_in_order 2 _ _ H) as (cfg & E & P).
  exists cfg. split; [exact E|]. apply P.
Defined.

Lemma frames_at_the_boundaries_witness :
  configuration (Standin.world_of "4" "2" Standin.sound) (Example.argv_of "2")
    = Some (Example.parsed "2" "4" "2") /\
  frame_steps (snd (main (Standin.world_of "4" "2" Standin.sound)
                      (Example.argv_of "2")))
  = 0 :: boundaries (nprint (Example.parsed "2" "4" "2")) 1
           (Z.to_nat (nsteps (Example.parsed "2" "4" "2"))).
Proof.
  assert (H1 : configuration (Standin.world_of "4" "2" Standin.sound)
                 (Example.argv_of "2") = Some (Example.parsed "2" "4" "2"))
    by (vm_compute; reflexivity).
  split; [exact H1|].
  destruct (main_body (Standin.world_of "4" "2" Standin.sound)
              (Example.argv_of "2")
              (host0 (Standin.world_of "4" "2" Standin.sound)))
    as [[] hf|e hf] eqn:E.
  - exact (proj1 (frames_at_the_boundaries _ _ _ hf H1 E)).
  - exfalso. vm_compute in E. discriminate E.
Defined.


Lemma failed_force_dispatch_is_caught_witness :
  nprint (Example.parsed "2" "4" "2") <> 0 /\
  exists l st h',
    md_step
      (Standin.world_of "4" "2"
         (Standin.failing (clEnqueueNDRangeKernel opencl_force 2) 1))
      (Example.parsed "2" "4" "2")
      (set_nfi 1 (host0 (Standin.world_of "4" "2"
         (Standin.failing (clEnqueueNDRangeKernel opencl_force 2) 1))))
    = Halted (CheckFailed l st) h' /\ st <> 0 /\ In l [2; 6; 3; 7; 4].
Proof.
  assert (H1 : nprint (Example.parsed "2" "4" "2") <> 0)
    by (vm_compute; discriminate).
  split; [exact H1|].
  apply (failed_force_dispatch_is_caught _ _ _ H1).
  vm_compute. discriminate.
Defined.


Lemma zero_interval_is_undefined_witness :
  nprint (Example.parsed "2" "2" "0") = 0 /\
  1 <= nsteps (Example.parsed "2" "2" "0") /\
  frame_steps (snd (main (Standin.world_of "2" "0" Standin.sound)
                      (Example.argv_of "2"))) = [0].
Proof.
  assert (H1 : configuration (Standin.world_of "2" "0" Standin.sound)
                 (Example.argv_of "2") = Some (Example.parsed "2" "2" "0"))
    by (vm_compute; reflexivity).
  assert (H2 : fopen_r (Standin.world_of "2" "0" Standin.sound)
                 (restfile (Example.parsed "2" "2" "0")) <> None)
    by (vm_compute; discriminate).
  assert (H3 : nprint (Example.parsed "2" "2" "0") = 0)
    by (vm_compute; reflexivity).
  assert (H4 : 1 <= nsteps (Example.parsed "2" "2" "0"))
    by (vm_compute; discriminate).
  assert (He : erg (Standin.world_of "2" "0" Standin.sound)
                 (Example.parsed "2" "2" "0") = true)
    by (vm_compute; reflexivity).
  assert (Ht : traj (Standin.world_of "2" "0" Standin.sound)
                 (Example.parsed "2" "2" "0") = true)
    by (vm_compute; reflexivity).
  split; [exact H3|]. split; [exact H4|].
  exact (proj2 (proj2 (zero_interval_is_undefined _ _ _ H1 H2 H3 H4)) He Ht).
Defined.

Lemma steps_between_boundaries_transfer_nothing_witness :
  Z.rem 1 (nprint (Example.parsed "2" "9" "3"))
    <> nprint (Example.parsed "2" "9" "3") - 1 /\
  Z.rem 1 (nprint (Example.parsed "2" "9" "3")) <> 0 /\
  mem (final (md_step (Standin.world_of "9" "3" Standin.sound)
                (Example.parsed "2" "9" "3")
                (set_nfi 1 (host0 (Standin.world_of "9" "3" Standin.sound)))))
  = mem (set_nfi 1 (host0 (Standin.world_of "9" "3" Standin.sound))).
Proof.
  assert (H1 : Z.rem 1 (nprint (Example.parsed "2" "9" "3"))
               <> nprint (Example.parsed "2" "9" "3") - 1)
    by (vm_compute; discriminate).
  assert (H2 : Z.rem 1 (nprint (Example.parsed "2" "9" "3")) <> 0)
    by (vm_compute; discriminate).
  split; [exact H1|]. split; [exact H2|].
  exact (proj1 (steps_between_boundaries_transfer_nothing
                  (Standin.world_of "9" "3" Standin.sound)
                  (Example.parsed "2" "9" "3")
                  (set_nfi 1 (host0 (Standin.world_of "9" "3" Standin.sound)))
                  H1 H2)).
Defined.

Lemma restart_holds_positions_then_velocities_witness :
  device_sound (Standin.world_of "2" "1" Standin.sound) /\
  fopen_r (Standin.world_of "2" "1" Standin.sound)
    (restfile (Example.parsed "2" "2" "1")) = Some Standin.restart /\
  exists h',
    read_restart (Standin.world_of "2" "1" Standin.sound)
      (Example.parsed "2" "2" "1")
      (host0 (Standin.world_of "2" "1" Standin.sound)) = Done tt h'.
Proof.
  assert (H0 : device_sound (Standin.world_of "2" "1" Standin.sound))
    by (intros c s; reflexivity).
  assert (H1 : fopen_r (Standin.world_of "2" "1" Standin.sound)
                 (restfile (Example.parsed "2" "2" "1")) = Some Standin.restart)
    by (vm_compute; reflexivity).
  split; [exact H0|]. split; [exact H1|].
  destruct (restart_holds_positions_then_velocities
              (Standin.world_of "2" "1" Standin.sound)
              (Example.parsed "2" "2" "1")
              (host0 (Standin.world_of "2" "1" Standin.sound))
              Standin.restart H0 H1) as (h' & E & _).
  exists h'. exact E.
Defined.

Lemma frame_shows_the_sums_witness :
  erg (Standin.world_of "4" "2" Standin.sound) (Example.parsed "2" "4" "2")
  = true /\
  traj (Standin.world_of "4" "2" Standin.sound) (Example.parsed "2" "4" "2")
  = true /\
  exists h' o,
    write_output (Standin.world_of "4" "2" Standin.sound)
      (Example.parsed "2" "4" "2")
      (final (setup (Standin.world_of "4" "2" Standin.sound)
                (Example.parsed "2" "4" "2")
                (host0 (Standin.world_of "4" "2" Standin.sound))))
    = Done tt h' /\
    o_nfi o = 0 /\
    o_epot o = 8%Q /\
    o_ekin o = (2386950286963496463 # 250000000000000000)%Q.
Proof.
  assert (He : erg (Standin.world_of "4" "2" Standin.sound)
                 (Example.parsed "2" "4" "2") = true)
    by (vm_compute; reflexivity).
  assert (Ht : traj (Standin.world_of "4" "2" Standin.sound)
                 (Example.parsed "2" "4" "2") = true)
    by (vm_compute; reflexivity).
  split; [exact He|]. split; [exact Ht|].
  destruct (frame_shows_the_sums (Standin.world_of "4" "2" Standin.sound)
              (Example.parsed "2" "4" "2")
              (final (setup (Standin.world_of "4" "2" Standin.sound)
                        (Example.parsed "2" "4" "2")
                        (host0 (Standin.world_of "4" "2" Standin.sound))))
              He Ht)
    as (h' & o & E & _ & Hn & Hp & Hk & _).
  exists h', o. split; [exact E|].
  rewrite Hn, Hp, Hk. repeat split; vm_compute; reflexivity.
Defined.

(** * The energies the host finalizes *)

Section Finalized.

Context {F : Type} {fp : FPTYPE F}.
Variable w : world F.
Variable cfg : config F.

Local Open Scope md_scope.

(** [initial_forces] starts by setting the step to 0, and leaves it
    there. *)
Lemma initial_forces_restarts (h : host F) :
  initial_forces w cfg h = initial_forces w cfg (set_nfi 0 h).
Proof.
  unfold initial_forces.
  match goal with |- bind ?m ?k ?h = bind ?m ?k ?h' =>
    change (bind m k h) with (k tt (set_nfi 0 h));
    change (bind m k h') with (k tt (set_nfi 0 h))
  end.
  reflexivity.
Qed.

Lemma initial_forces_step (h : host F) :
  nfi (final (initial_forces w cfg h)) = 0.
Proof.
  rewrite initial_forces_restarts.
  exact (proj1 (@steps_initial_forces _ _ w cfg (during 0 initial) _
                  (initial_setup cfg) (initial_download w cfg)
                  (set_nfi 0 h) eq_refl)).
Qed.

(** A read-back that succeeds logs what it has read. *)
Lemma or_assign_read_log b n dst (h : host F) :
  cl_status w (clEnqueueReadBuffer b) (nfi h) = CL_SUCCESS ->
  last_download b (log (final (or_assign (read_buffer w b n dst) h)))
  = Some (nfi h, cells w 0 n (dev h b)).
Proof.
  intros E. unfold or_assign, bind, read_buffer, device_call, modify.
  rewrite E. simpl. rewrite buffer_eqb_refl. reflexivity.
Qed.

(** Lines 306-318 in detail: the partials the host sums are those the
    read-back of line 314 has copied from [ekin_buffer], when it
    succeeds, and [ekin_buffer] is what the kinetic-energy kernel has
    left, when its dispatch succeeds. *)
Lemma initial_ekin_read (h : host F) :
  exists h',
    initial_ekin w cfg h = Done tt h' /\
    ekin h' = (host_sum w (ekin h) (nthreads cfg) (mem h' tmp_ekin)
               * (HALF * mvsq2e * mass cfg))%fp /\
    temp h' = (TWO * ekin h' / (THREE * of_int (natoms cfg) - THREE)
               / kboltz)%fp /\
    (cl_status w (clEnqueueReadBuffer ekin_buffer) (nfi h) = CL_SUCCESS ->
     agree w (Z.to_nat (nthreads cfg)) (mem h' tmp_ekin) (dev h' ekin_buffer) /\
     last_download ekin_buffer (log h')
     = Some (nfi h, cells w 0 (Z.to_nat (nthreads cfg)) (dev h' ekin_buffer))) /\
    (cl_status w (clEnqueueNDRangeKernel opencl_ekin (nthreads cfg)) (nfi h)
     = CL_SUCCESS ->
     exists d, dev h' = cl_kernel w opencl_ekin (kernel_args cfg)
                          (nthreads cfg) d).
Proof.
  destruct (initial_ekin_run w cfg h) as (h' & E & _ & He & Ht).
  exists h'. split; [exact E|]. split; [exact He|]. split; [exact Ht|].
  revert E. unfold initial_ekin.
  unfold bind at 1. unfold malloc at 1. unfold modify at 1.
  set (h1 := set_mem _ h).
  unfold bind at 1. unfold create_buffer.
  destruct (assign_call_run w (clCreateBuffer ekin_buffer)
              (fun h0 => set_dev (dev_store ekin_buffer
                 (repeat (indeterminate w) (Z.to_nat (nthreads cfg)))
                 (dev h0)) h0) h1 (fun _ => eq_refl))
    as (h2 & -> & N2 & _).
  unfold bind at 1.
  destruct (or_assign_args_run w opencl_ekin h2) as (h3 & -> & N3 & _).
  unfold bind at 1.
  destruct (assign_enqueue_run w cfg opencl_ekin h3)
    as (h4 & -> & N4 & _ & _ & D4).
  unfold bind at 1.
  pose proof (or_assign_read_log ekin_buffer (Z.to_nat (nthreads cfg))
                tmp_ekin h4) as L5.
  destruct (or_assign_read_run w ekin_buffer (Z.to_nat (nthreads cfg))
              tmp_ekin h4) as (h5 & E5 & N5 & _ & D5 & M5).
  rewrite E5 in L5 |- *. simpl in L5.
  assert (N : nfi h4 = nfi h) by (rewrite N4, N3, N2; reflexivity).
  rewrite N in L5, M5. rewrite N3, N2 in D4. change (nfi h1) with (nfi h) in D4.
  unfold for_each, scale_ekin, set_temperature, bind, modify.
  intros E. injection E as <-. simpl. rewrite sum_one. simpl.
  split.
  - intros R. rewrite D5. split.
    + rewrite (M5 R). simpl. apply agree_blit.
    + apply L5, R.
  - intros K. exists (dev h3). rewrite D5. apply D4, K.
Qed.

(** Lines 238-318 together. *)
Lemma initial_energies_read (h : host F) :
  exists h',
    bind (initial_forces w cfg) (fun _ => initial_ekin w cfg) h = Done tt h' /\
    ekin h' = (host_sum w ZERO (nthreads cfg) (mem h' tmp_ekin)
               * (HALF * mvsq2e * mass cfg))%fp /\
    temp h' = (TWO * ekin h' / (THREE * of_int (natoms cfg) - THREE)
               / kboltz)%fp /\
    (cl_status w (clEnqueueReadBuffer ekin_buffer) 0 = CL_SUCCESS ->
     agree w (Z.to_nat (nthreads cfg)) (mem h' tmp_ekin) (dev h' ekin_buffer) /\
     last_download ekin_buffer (log h')
     = Some (0, cells w 0 (Z.to_nat (nthreads cfg)) (dev h' ekin_buffer))) /\
    (cl_status w (clEnqueueNDRangeKernel opencl_ekin (nthreads cfg)) 0
     = CL_SUCCESS ->
     exists d, dev h' = cl_kernel w opencl_ekin (kernel_args cfg)
                          (nthreads cfg) d).
Proof.
  unfold bind.
  pose proof (initial_forces_step h) as N1.
  destruct (initial_forces_zeroing w cfg h) as ([] & h1 & E1 & _ & Z1).
  rewrite E1 in N1 |- *. simpl in N1.
  destruct (initial_ekin_read h1) as (h' & -> & He & Ht & Hr & Hk).
  rewrite N1 in Hr, Hk. rewrite Z1 in He.
  exists h'. auto.
Qed.

Section InARun.

Variable argv : list string.
Hypothesis Hc : configuration w argv = Some cfg.
Hypothesis Hn : 1 <= nprint cfg.

(** A frame of the loop shows the kinetic energy of the partials last
    downloaded: during the step before with an interval of 2 or more,
    during its own step with an interval of 1. *)
Lemma boundary_frame_energies later o earlier :
  snd (main w argv) = later ++ Output o :: earlier -> 1 <= o_nfi o ->
  exists ke,
    last_download ekin_buffer earlier
    = Some (if nprint cfg =? 1 then o_nfi o else o_nfi o - 1, ke) /\
    o_ekin o = (host_sum w ZERO (nthreads cfg) ke
                * (HALF * mvsq2e * mass cfg))%fp /\
    o_temp o = (TWO * o_ekin o / (THREE * of_int (natoms cfg) - THREE)
                / kboltz)%fp.
Proof.
  intros Hl Ho.
  assert (H : staged_during w cfg
                (if nprint cfg =? 1 then o_nfi o else o_nfi o - 1) earlier o).
  { destruct (Z.eqb_spec (nprint cfg) 1) as [E|E].
    - exact (run_same w cfg E argv Hc later o earlier Hl Ho).
    - assert (I : 2 <= nprint cfg) by lia.
      exact (run_stale w cfg I argv Hc later o earlier Hl Ho). }
  destruct H as (x & y & z & pe & ke & _ & _ & _ & _ & Hk & Hf).
  exists ke. split; [exact Hk|].
  pose proof (f_equal (@o_ekin F) Hf) as H1.
  pose proof (f_equal (@o_temp F) Hf) as H2.
  simpl in H1, H2. rewrite <- H1 in H2. split; assumption.
Qed.

End InARun.

Lemma frame_at_split s (l : list (event F)) o earlier :
  frame_at s l = Some (o, earlier) ->
  exists later, l = later ++ Output o :: earlier /\ o_nfi o = s.
Proof.
  induction l as [|e l IH]; [discriminate|]. simpl.
  assert (K : frame_at s l = Some (o, earlier) ->
              exists later, e :: l = later ++ Output o :: earlier /\ o_nfi o = s).
  { intros H. destruct (IH H) as (later & -> & Hs).
    exists (e :: later). split; [reflexivity | exact Hs]. }
  destruct e as [?|? ? ?|? ? ?|? ?|o']; try exact K.
  destruct (Z.eqb_spec (o_nfi o') s) as [E|E]; [|exact K].
  intros H. injection H as -> ->. exists []. split; [reflexivity | exact E].
Qed.

(** C3 (as amended). Whenever the host finalizes energies, it does so in
    [FPTYPE], in this order of operations. The kinetic energy is the sum
    of the [nthreads] cells of [tmp_ekin], taken from [ZERO] in the order
    of the workers, times [HALF * mvsq2e * mass]; the temperature is
    [TWO * ekin] divided by [THREE * natoms - THREE], the quotient
    divided by [kboltz] (two roundings, not the one division by a
    product), for every particle count. At initialization
    (lines 304-318) the cells summed are those the read-back of line 314
    has copied from [ekin_buffer], when that read-back succeeds, and the
    buffer is what the kinetic-energy kernel has left, when its dispatch
    succeeds; a failure of either is not looked at before the sum. At a
    print boundary (lines 436-455) the frame shows these two values;
    and in a run with a print interval of 1 or more, the cells summed
    for a frame of the loop are those of the latest download of
    [ekin_buffer], made one step before the frame (in the frame's own
    step when the interval is 1). *)
Theorem energies_come_from_the_read_back (argv : list string) :
  configuration w argv = Some cfg ->
  1 <= nprint cfg ->
  (forall h, exists h',
     bind (initial_forces w cfg) (fun _ => initial_ekin w cfg) h = Done tt h' /\
     ekin h' = (host_sum w ZERO (nthreads cfg) (mem h' tmp_ekin)
                * (HALF * mvsq2e * mass cfg))%fp /\
     temp h' = (TWO * ekin h' / (THREE * of_int (natoms cfg) - THREE)
                / kboltz)%fp /\
     (cl_status w (clEnqueueReadBuffer ekin_buffer) 0 = CL_SUCCESS ->
      agree w (Z.to_nat (nthreads cfg)) (mem h' tmp_ekin)
        (dev h' ekin_buffer) /\
      last_download ekin_buffer (log h')
      = Some (0, cells w 0 (Z.to_nat (nthreads cfg)) (dev h' ekin_buffer))) /\
     (cl_status w (clEnqueueNDRangeKernel opencl_ekin (nthreads cfg)) 0
      = CL_SUCCESS ->
      exists d, dev h' = cl_kernel w opencl_ekin (kernel_args cfg)
                           (nthreads cfg) d)) /\
  (forall h,
     ekin (final (write_output w cfg h))
     = (host_sum w ZERO (nthreads cfg) (mem h tmp_ekin)
        * (HALF * mvsq2e * mass cfg))%fp /\
     temp (final (write_output w cfg h))
     = (TWO * ekin (final (write_output w cfg h))
        / (THREE * of_int (natoms cfg) - THREE) / kboltz)%fp /\
     (forall hd, write_output w cfg h = Done tt hd ->
        exists o, log hd = Output o :: log h /\
                  o_ekin o = ekin hd /\ o_temp o = temp hd)) /\
  (forall later o earlier,
     snd (main w argv) = later ++ Output o :: earlier -> 1 <= o_nfi o ->
     exists ke,
       last_download ekin_buffer earlier
       = Some (if nprint cfg =? 1 then o_nfi o else o_nfi o - 1, ke) /\
       o_ekin o = (host_sum w ZERO (nthreads cfg) ke
                   * (HALF * mvsq2e * mass cfg))%fp /\
       o_temp o = (TWO * o_ekin o / (THREE * of_int (natoms cfg) - THREE)
                   / kboltz)%fp).
Proof.
  intros Hc Hn. split; [exact initial_energies_read|].
  split; [exact (write_output_energies w cfg)|].
  exact (boundary_frame_energies argv Hc Hn).
Qed.

End Finalized.

(** C3, what the formula of the specification gives instead. In
    binary64, two particles of mass 40 and the partials 1 and 2: the
    kinetic energy is 143403.44169200942, the frame of step 0 shows the
    temperature 6457064961681131 / 2^27 (48108882.91657814), and
    [TWO * ekin / ((THREE * natoms - THREE) * kboltz)] is
    6457064961681132 / 2^27 (48108882.916578144), one unit in the last
    place above. *)
Lemma stated_temperature_is_off_in_binary64 :
  natoms Example.float_config = 2 /\
  forall pw af,
  exists o rest,
    log (Example.float_setup pw af) = Output o :: rest /\
    o_nfi o = 0 /\
    mem (Example.float_setup pw af) tmp_ekin
    = [Binary64.of_Z 1; Binary64.of_Z 2] /\
    o_ekin o = Binary64.literal (4927304737608187 # 34359738368) /\
    o_temp o = Binary64.literal (6457064961681131 # 134217728) /\
    stated_temp (fp := Binary64.fptype pw af) Example.float_config (o_ekin o)
    = Binary64.literal (6457064961681132 # 134217728) /\
    o_temp o
    <> stated_temp (fp := Binary64.fptype pw af) Example.float_config
         (o_ekin o).
Proof.
  split; [reflexivity|]. intros pw af.
  destruct (log (Example.float_setup pw af)) as [|e rest] eqn:E;
    [vm_compute in E; discriminate|].
  destruct e as [?|? ? ?|? ? ?|? ?|o];
    try (vm_compute in E; discriminate).
  exists o, rest. split; [reflexivity|].
  vm_compute in E. injection E as <- _.
  split; [reflexivity|]. split; [vm_compute; reflexivity|].
  split; [vm_compute; reflexivity|]. split; [vm_compute; reflexivity|].
  split; [vm_compute; reflexivity|].
  intros H.
  apply (f_equal (PrimFloat.eqb
                    (Binary64.literal (6457064961681131 # 134217728)))) in H.
  vm_compute in H. discriminate H.
Qed.

Lemma energies_come_from_the_read_back_witness :
  configuration (Standin.world_of "4" "2" Standin.sound) (Example.argv_of "2")
  = Some (Example.parsed "2" "4" "2") /\
  1 <= nprint (Example.parsed "2" "4" "2") /\
  (exists h',
     bind (initial_forces (Standin.world_of "4" "2" Standin.sound)
             (Example.parsed "2" "4" "2"))
          (fun _ => initial_ekin (Standin.world_of "4" "2" Standin.sound)
                      (Example.parsed "2" "4" "2"))
          (Example.restarted (Standin.world_of "4" "2" Standin.sound)
             (Example.parsed "2" "4" "2"))
     = Done tt h' /\
     mem h' tmp_ekin = [1 # 10000; 1 # 10000]%Q /\
     dev h' ekin_buffer = [1 # 10000; 1 # 10000]%Q /\
     ekin h' = (2386950286963496463 # 250000000000000000)%Q /\
     temp h' = (795650095654498821 # 248400837500000)%Q) /\
  (exists o earlier ke,
     frame_at 2 (snd (main (Standin.world_of "4" "2" Standin.sound)
                        (Example.argv_of "2"))) = Some (o, earlier) /\
     last_download ekin_buffer earlier = Some (1, ke) /\
     o_ekin o
     = (host_sum (Standin.world_of "4" "2" Standin.sound) ZERO 2 ke
        * (HALF * mvsq2e * mass (Example.parsed "2" "4" "2")))%fp /\
     (0 < o_ekin o)%Q /\ (0 < o_temp o)%Q).
Proof.
  assert (H1 : configuration (Standin.world_of "4" "2" Standin.sound)
                 (Example.argv_of "2") = Some (Example.parsed "2" "4" "2"))
    by (vm_compute; reflexivity).
  assert (H2 : 1 <= nprint (Example.parsed "2" "4" "2"))
    by (vm_compute; discriminate).
  destruct (energies_come_from_the_read_back _ _ _ H1 H2) as (A & _ & C).
  split; [exact H1|]. split; [exact H2|]. split.
  - destruct (A (Example.restarted (Standin.world_of "4" "2" Standin.sound)
                   (Example.parsed "2" "4" "2")))
      as (h' & E & _).
    exists h'. split; [exact E|].
    pose proof (f_equal final E) as Eh.
    change (final (Done tt h')) with h' in Eh. subst h'.
    repeat split; vm_compute; reflexivity.
  - destruct (frame_at 2 (snd (main (Standin.world_of "4" "2" Standin.sound)
                                 (Example.argv_of "2"))))
      as [[o earlier]|] eqn:E; [|vm_compute in E; discriminate].
    destruct (frame_at_split _ _ _ _ E) as (later & Hl & Hs).
    assert (Ho : 1 <= o_nfi o) by lia.
    destruct (C later o earlier Hl Ho) as (ke & Hk & He & Ht).
    rewrite Hs in Hk.
    exists o, earlier, ke. split; [reflexivity|]. split; [exact Hk|].
    split; [exact He|].
    vm_compute in E. injection E as <- <-.
    split; vm_compute; reflexivity.
Defined.
